(** * RPostgres result cursor: [PqRow.cpp] and [PqResult.cpp]

    A shallow embedding of the two C++ classes and proofs of the properties
    the design document states about them.

    Conventions of the embedding.
    - C [int] values are [Z]; all runs considered keep them inside 32 bits
      (signed overflow is undefined in C++ and is outside the model).
    - C [double] values are exact rationals ([Q]) or the reserved R value
      [NA_REAL]; rounding is not modelled.
    - A [char*] returned by libpq is a [string]; reading past its NUL
      terminator is undefined and shows up as [Indeterminate].
    - Methods that throw are functions from a [world] (the [PqResult] object
      and its connection) to an [outcome] and the world at the throw. *)

From Stdlib Require Import ZArith QArith Qround Lqa String Ascii Bool Lia.
From stdpp Require Import base option list.

Local Open Scope string_scope.
Local Open Scope list_scope.
Local Open Scope Z_scope.

(** ** libpq results *)

Inductive ExecStatusType :=
  | PGRES_EMPTY_QUERY
  | PGRES_COMMAND_OK
  | PGRES_TUPLES_OK
  | PGRES_COPY_OUT
  | PGRES_COPY_IN
  | PGRES_BAD_RESPONSE
  | PGRES_NONFATAL_ERROR
  | PGRES_FATAL_ERROR
  | PGRES_COPY_BOTH
  | PGRES_SINGLE_TUPLE.

#[global] Instance ExecStatusType_eq_dec : EqDecision ExecStatusType.
Proof. solve_decision. Defined.

(** One [PGresult]: a statement description ([nparams], [fields]), or one
    response unit of a running query (at most one tuple, in single-row mode).
    A field of the tuple is [None] when it is SQL NULL. *)
Record PGresult := {
  resultStatus : ExecStatusType;
  nparams : Z;
  fields : list (string * Z);      (* column name, type Oid *)
  tuple : list (option string);    (* text-format values of row 0 *)
  cmdTuples : string
}.

(** [PQresultStatus], which libpq defines on the NULL result too. *)
Definition PQresultStatus (res : option PGresult) : ExecStatusType :=
  match res with
  | Some r => resultStatus r
  | None => PGRES_FATAL_ERROR
  end.

Definition PQnparams (res : PGresult) : Z := nparams res.
Definition PQnfields (res : PGresult) : Z := Z.of_nat (length (fields res)).
Definition PQfname (res : PGresult) (i : nat) : string :=
  match fields res !! i with Some (nm, _) => nm | None => "" end.
Definition PQftype (res : PGresult) (i : nat) : Z :=
  match fields res !! i with Some (_, oid) => oid | None => 0 end.
Definition PQcmdTuples (res : PGresult) : string := cmdTuples res.

(** Row 0, column [j]. libpq reports a column that is out of range as null,
    with length 0; the value of a null field is the empty string. *)
Definition PQgetisnull (res : PGresult) (j : nat) : bool :=
  match tuple res !! j with
  | Some (Some _) => false
  | _ => true
  end.

Definition PQgetvalue (res : PGresult) (j : nat) : string :=
  match tuple res !! j with
  | Some (Some v) => v
  | _ => ""
  end.

Definition PQgetlength (res : PGresult) (j : nat) : nat :=
  String.length (PQgetvalue res j).

(** ** The C library and the R runtime *)

Record tm := {
  tm_sec : Z; tm_min : Z; tm_hour : Z;
  tm_mday : Z; tm_mon : Z; tm_year : Z;
  tm_isdst : Z
}.

(** What the code calls and does not define: the libc conversions, and
    whether a user interrupt is pending when [checkUserInterrupt] polls. *)
Class Platform := {
  atoi : string -> Z;
  atof : string -> Q;
  strtod : string -> Q;
  timegm : tm -> Z;
  mktime : tm -> Z;
  interrupt_pending : bool
}.

Definition NA_INTEGER : Z := - 2147483648.
Definition NA_LOGICAL : Z := - 2147483648.

Inductive double :=
  | NA_REAL
  | Dbl (q : Q)
  | Indeterminate.

Inductive SEXP :=
  | R_NilValue
  | NA_STRING
  | CHARSXP (s : string)
  | RAWSXP (bytes : string).

(** One element of a column vector. [Unfilled] is what allocation and
    lengthening leave in a slot that was never written. *)
Inductive slot :=
  | Unfilled
  | LOGICAL (v : Z)
  | INTEGER (v : Z)
  | REAL (v : double)
  | VECTOR_ELT (v : SEXP)
  | STRING_ELT (v : SEXP).

Inductive PGTypes :=
  | PGInt
  | PGReal
  | PGString
  | PGLogical
  | PGVector
  | PGDate
  | PGDatetime
  | PGDatetimeTZ
  | PGTime.

#[global] Instance PGTypes_eq_dec : EqDecision PGTypes.
Proof. solve_decision. Defined.

(** ** Reading characters off a [char*] *)

(** [char] is signed on the platforms the package builds on. *)
Definition char_val (c : ascii) : Z :=
  let n := Z.of_N (N_of_ascii c) in
  if n <? 128 then n else n - 256.

(** [val[k]]: a character, the terminator, or nothing past it. *)
Fixpoint peek (val : string) (k : nat) : option Z :=
  match val, k with
  | EmptyString, O => Some 0
  | EmptyString, S _ => None
  | String c _, O => Some (char_val c)
  | String _ rest, S k' => peek rest k'
  end.

(** [val + k], defined up to the terminator. *)
Fixpoint advance (val : string) (k : nat) {struct k} : option string :=
  match k, val with
  | O, _ => Some val
  | S _, EmptyString => None
  | S k', String _ rest => advance rest k'
  end.

(** [*(val + k) - 0x30] *)
Definition digit_at (val : string) (k : nat) : option Z :=
  (fun c => c - 48) <$> peek val k.

(** [static_cast<int>(sec)]: truncation toward zero. *)
Definition trunc (sec : Q) : Z := Z.quot (Qnum sec) (Z.pos (Qden sec)).

(** ** The connection *)

Inductive io_event :=
  | Prepare (sql : string)
  | DescribePrepared
  | SendQueryPrepared (params : list (option string))
  | SetSingleRowMode
  | ExecPrepared (params : list string)
  | GetResult (returned : option ExecStatusType).

(** The libpq handle: the results [PQgetResult] has yet to hand out, and
    every call made on the handle so far, oldest first. *)
Record PGconn := {
  pending : list PGresult;
  io_log : list io_event
}.

(** How the backend answers; fixed during a run. *)
Class Server := {
  prepare_reply : string -> ExecStatusType;
  describe_reply : PGresult;
  send_reply : list (option string) -> bool;
  single_row_reply : bool;
  query_results : list (option string) -> list PGresult;
  exec_reply : list string -> ExecStatusType;
  PQerrorMessage : string
}.

Definition record (e : io_event) (c : PGconn) : PGconn :=
  {| pending := pending c; io_log := io_log c ++ [e] |}.

Definition PQgetResult (c : PGconn) : option PGresult * PGconn :=
  match pending c with
  | [] => (None, record (GetResult None) c)
  | r :: q =>
      (Some r, {| pending := q;
                  io_log := io_log c ++ [GetResult (Some (resultStatus r))] |})
  end.

(** Modelled from the spec: the [PqConnection] wrapper, declared in
    PqConnection.h, as far as [PqResult] uses it: [check_connection],
    [conn], [set_current_result] and [is_current_result]. The current
    result is the address of a [PqResult], or NULL. *)
Record PqConnection := {
  usable : bool;
  pCurrentResult_ : option nat;
  conn : PGconn
}.

Definition set_current_result (p : option nat) (c : PqConnection) : PqConnection :=
  {| usable := usable c; pCurrentResult_ := p; conn := conn c |}.

Definition is_current_result (p : nat) (c : PqConnection) : bool :=
  bool_decide (pCurrentResult_ c = Some p).

Definition with_conn (g : PGconn) (c : PqConnection) : PqConnection :=
  {| usable := usable c; pCurrentResult_ := pCurrentResult_ c; conn := g |}.

(** ** Outcomes *)

Inductive exception :=
  | ConnectionError                         (* check_connection() failed *)
  | QueryError (msg : string) (row : option Z)  (* stop(PQerrorMessage(..)) *)
  | ArityError (required supplied : Z)      (* "Query requires %i params; %i supplied." *)
  | SendError                               (* "Failed to send query" *)
  | SingleRowModeError                      (* "Failed to set single row mode" *)
  | BindingError                            (* "Query needs to be bound before fetching" *)
  | StaleResultError                        (* "Inactive result set" *)
  | ProtocolError                           (* "No active query" *)
  | InterruptedError.                       (* checkUserInterrupt() *)

(** [Undefined]: the code reads outside an object. [OutOfFuel]: a loop of
    the model was cut short; the theorems show that no call reaches it. *)
Inductive outcome (A : Type) :=
  | Ok (a : A)
  | Throw (e : exception)
  | Undefined
  | OutOfFuel.
Arguments Ok {A} a.
Arguments Throw {A} e.
Arguments Undefined {A}.
Arguments OutOfFuel {A}.

(** ** PqRow *)

Module PqRow.

Record t := { pRes_ : PGresult }.

Section Methods.
Context `{Platform} `{Server}.

(** [next = PQgetResult(conn); while (next != NULL) { PQclear(next);
    next = PQgetResult(conn); }] *)
Fixpoint drain (fuel : nat) (c : PGconn) : option PGconn :=
  match fuel with
  | O => None
  | S fuel' =>
      match PQgetResult c with
      | (None, c') => Some c'
      | (Some _, c') => drain fuel' c'
      end
  end.

(** [PqRow::PqRow(conn)]. The handle is not NULL: [PqResult] passes
    [pConn_->conn()] of a connection it has checked. *)
Definition new (c : PGconn) : outcome t * PGconn :=
  let '(pRes, c1) := PQgetResult c in
  let drained :=
    if bool_decide (PQresultStatus pRes = PGRES_TUPLES_OK)
    then drain (S (length (pending c1))) c1
    else Some c1 in
  match drained with
  | None => (OutOfFuel, c1)
  | Some c2 =>
      match pRes with
      | None => (Throw ProtocolError, c2)
      | Some r =>
          if bool_decide (resultStatus r = PGRES_FATAL_ERROR)
          then (Throw (QueryError PQerrorMessage None), c2)
          else (Ok {| pRes_ := r |}, c2)
      end
  end.

Definition status (row : t) : ExecStatusType := PQresultStatus (Some (pRes_ row)).

Definition has_data (row : t) : bool :=
  bool_decide (status row = PGRES_SINGLE_TUPLE).

Definition n_rows_affected (row : t) : Z := atoi (PQcmdTuples (pRes_ row)).

Definition is_null (row : t) (j : nat) : bool := PQgetisnull (pRes_ row) j.

Definition get_int (row : t) (j : nat) : Z :=
  if is_null row j then NA_INTEGER else atoi (PQgetvalue (pRes_ row) j).

Definition get_double (row : t) (j : nat) : double :=
  if is_null row j then NA_REAL else Dbl (atof (PQgetvalue (pRes_ row) j)).

Definition get_string (row : t) (j : nat) : SEXP :=
  if is_null row j then NA_STRING else CHARSXP (PQgetvalue (pRes_ row) j).

Definition get_raw (row : t) (j : nat) : SEXP :=
  let size := PQgetlength (pRes_ row) j in
  let blob := PQgetvalue (pRes_ row) j in
  RAWSXP (substring 0 size blob).

(** The year, month and day digits at offsets 0-3, 5-6 and 8-9. *)
Definition parse_ymd (val : string) : option (Z * Z * Z) :=
  y3 ← digit_at val 0; y2 ← digit_at val 1;
  y1 ← digit_at val 2; y0 ← digit_at val 3;
  m1 ← digit_at val 5; m0 ← digit_at val 6;
  d1 ← digit_at val 8; d0 ← digit_at val 9;
  Some (((y3 * 10 + y2) * 10 + y1) * 10 + (y0 - 1900),
        10 * m1 + (m0 - 1),
        d1 * 10 + d0).

(** The hour and minute digits at offsets [k], [k+1] and [k+3], [k+4]. *)
Definition parse_hm (val : string) (k : nat) : option (Z * Z) :=
  h1 ← digit_at val k; h0 ← digit_at val (k + 1);
  n1 ← digit_at val (k + 3); n0 ← digit_at val (k + 4);
  Some (h1 * 10 + h0, n1 * 10 + n0).

Definition get_date (row : t) (j : nat) : double :=
  if is_null row j then NA_REAL else
  let val := PQgetvalue (pRes_ row) j in
  match parse_ymd val with
  | Some (year, mon, mday) =>
      let date := {| tm_sec := 0; tm_min := 0; tm_hour := 0;
                     tm_mday := mday; tm_mon := mon; tm_year := year;
                     tm_isdst := -1 |} in
      Dbl (inject_Z (timegm date) / inject_Z (24 * 60 * 60))
  | None => Indeterminate
  end.

Definition get_datetime (row : t) (j : nat) (use_local : bool) : double :=
  if is_null row j then NA_REAL else
  let val := PQgetvalue (pRes_ row) j in
  match parse_ymd val, parse_hm val 11, advance val 17 with
  | Some (year, mon, mday), Some (hour, min), Some rest =>
      let sec := strtod rest in
      let date := {| tm_sec := trunc sec; tm_min := min; tm_hour := hour;
                     tm_mday := mday; tm_mon := mon; tm_year := year;
                     tm_isdst := -1 |} in
      if use_local
      then Dbl (inject_Z (mktime date) + (sec - inject_Z (tm_sec date)))
      else Dbl (inject_Z (timegm date) + (sec - inject_Z (tm_sec date)))
  | _, _, _ => Indeterminate
  end.

Definition get_time (row : t) (j : nat) : double :=
  if is_null row j then NA_REAL else
  let val := PQgetvalue (pRes_ row) j in
  match parse_hm val 0, advance val 6 with
  | Some (hour, min), Some rest =>
      Dbl (inject_Z (hour * 3600 + min * 60) + strtod rest)
  | _, _ => Indeterminate
  end.

Definition get_logical (row : t) (j : nat) : Z :=
  if is_null row j then NA_LOGICAL
  else if String.eqb (PQgetvalue (pRes_ row) j) "t" then 1 else 0.

(** The value [set_list_value] stores at [x[i]] for column [j] of type [ty]. *)
Definition list_value (row : t) (j : nat) (ty : PGTypes) : slot :=
  match ty with
  | PGLogical => LOGICAL (get_logical row j)
  | PGInt => INTEGER (get_int row j)
  | PGReal => REAL (get_double row j)
  | PGVector => VECTOR_ELT (get_raw row j)
  | PGString => STRING_ELT (get_string row j)
  | PGDate => REAL (get_date row j)
  | PGDatetimeTZ => REAL (get_datetime row j false)
  | PGDatetime => REAL (get_datetime row j true)
  | PGTime => REAL (get_time row j)
  end.

(** [set_list_value(x, i, j, types)]: nothing is stored when [types[j]]
    does not exist ([PqResult] only calls it with [j < types.size()]). *)
Definition set_list_value (row : t) (x : list slot) (i j : nat) (types : list PGTypes)
  : list slot :=
  match types !! j with
  | Some ty => <[i := list_value row j ty]> x
  | None => x
  end.

End Methods.
End PqRow.

(** ** Column buffers *)

Record column := {
  col_data : list slot;
  col_class : list string;
  col_units : list string
}.

Record data_frame := {
  df_names : list string;
  df_cols : list column
}.

Definition bare (data : list slot) : column :=
  {| col_data := data; col_class := []; col_units := [] |}.

(** Modelled from the spec: [df_create] and [df_resize], declared outside
    the two source files. A buffer is created with one column per type and
    room for [n] rows; resizing keeps the first [n] rows of every column and
    leaves added rows unfilled. *)
Definition df_create (types : list PGTypes) (names : list string) (n : Z)
  : data_frame :=
  {| df_names := names;
     df_cols := (fun _ => bare (replicate (Z.to_nat n) Unfilled)) <$> types |}.

Definition df_resize (df : data_frame) (n : Z) : data_frame :=
  {| df_names := df_names df;
     df_cols := (fun c => bare (resize (Z.to_nat n) Unfilled (col_data c)))
                <$> df_cols df |}.

Definition df_nrow (df : data_frame) : list nat :=
  (fun c => length (col_data c)) <$> df_cols df.

(** ** PqResult *)

Inductive Rwarning :=
  | UnknownFieldType (type : Z) (column : string).

Module PqResult.

Record t := {
  self : nat;                       (* the address [this] *)
  pSpec_ : option PGresult;
  nparams_ : Z;
  ncols_ : Z;
  nrows_ : Z;
  bound_ : bool;
  names_ : list string;
  types_ : list PGTypes;
  pNextRow_ : option PqRow.t
}.

(** What a method call can read and change: the object, its connection and
    the warnings raised so far in the R session. *)
Record world := {
  this : t;
  pConn_ : PqConnection;
  warnings : list Rwarning
}.

Definition M (A : Type) : Type := world -> outcome A * world.

Definition ret {A} (a : A) : M A := fun w => (Ok a, w).

Definition and_then {A B} (m : M A) (k : A -> M B) : M B :=
  fun w =>
    match m w with
    | (Ok a, w') => k a w'
    | (Throw e, w') => (Throw e, w')
    | (Undefined, w') => (Undefined, w')
    | (OutOfFuel, w') => (OutOfFuel, w')
    end.

Definition stop {A} (e : exception) : M A := fun w => (Throw e, w).

(** [try { m } catch (...) { h; throw; }] *)
Definition rethrow_after {A} (m : M A) (h : world -> world) : M A :=
  fun w =>
    match m w with
    | (Throw e, w') => (Throw e, h w')
    | r => r
    end.

Definition update (f : world -> world) : M unit := fun w => (Ok tt, f w).

Declare Scope pq_scope.
Delimit Scope pq_scope with pq.
Notation "x <- m ;; k" := (and_then m (fun x => k))
  (at level 100, m at next level, right associativity) : pq_scope.
Notation "m ;; k" := (and_then m (fun _ => k))
  (at level 100, right associativity) : pq_scope.
Local Open Scope pq_scope.

Definition set_this (f : t -> t) (w : world) : world :=
  {| this := f (this w); pConn_ := pConn_ w; warnings := warnings w |}.

Definition set_pConn (f : PqConnection -> PqConnection) (w : world) : world :=
  {| this := this w; pConn_ := f (pConn_ w); warnings := warnings w |}.

Definition set_bound (b : bool) (r : t) : t :=
  {| self := self r; pSpec_ := pSpec_ r; nparams_ := nparams_ r;
     ncols_ := ncols_ r; nrows_ := nrows_ r; bound_ := b;
     names_ := names_ r; types_ := types_ r; pNextRow_ := pNextRow_ r |}.

Definition set_spec (s : option PGresult) (r : t) : t :=
  {| self := self r; pSpec_ := s; nparams_ := nparams_ r;
     ncols_ := ncols_ r; nrows_ := nrows_ r; bound_ := bound_ r;
     names_ := names_ r; types_ := types_ r; pNextRow_ := pNextRow_ r |}.

Definition set_nparams (n : Z) (r : t) : t :=
  {| self := self r; pSpec_ := pSpec_ r; nparams_ := n;
     ncols_ := ncols_ r; nrows_ := nrows_ r; bound_ := bound_ r;
     names_ := names_ r; types_ := types_ r; pNextRow_ := pNextRow_ r |}.

Definition set_metadata (n : Z) (names : list string) (types : list PGTypes)
  (r : t) : t :=
  {| self := self r; pSpec_ := pSpec_ r; nparams_ := nparams_ r;
     ncols_ := n; nrows_ := nrows_ r; bound_ := bound_ r;
     names_ := names; types_ := types; pNextRow_ := pNextRow_ r |}.

(** [pNextRow_.reset(row); nrows_++] *)
Definition set_next_row (row : PqRow.t) (r : t) : t :=
  {| self := self r; pSpec_ := pSpec_ r; nparams_ := nparams_ r;
     ncols_ := ncols_ r; nrows_ := nrows_ r + 1; bound_ := bound_ r;
     names_ := names_ r; types_ := types_ r; pNextRow_ := Some row |}.

(** A call on the libpq handle: its answer and the handle afterwards. *)
Definition libpq {A} (f : PGconn -> A * PGconn) : M A :=
  fun w =>
    let '(a, g) := f (conn (pConn_ w)) in
    (Ok a, set_pConn (with_conn g) w).

Section Methods.
Context `{Platform} `{Server}.

Definition checkUserInterrupt : M unit :=
  if interrupt_pending then stop InterruptedError else ret tt.

Definition PQprepare (sql : string) (c : PGconn) : PGresult * PGconn :=
  ({| resultStatus := prepare_reply sql; nparams := 0; fields := [];
      tuple := []; cmdTuples := "" |},
   record (Prepare sql) c).

Definition PQdescribePrepared (c : PGconn) : PGresult * PGconn :=
  (describe_reply, record DescribePrepared c).

(** A query that is sent queues its results on the handle. *)
Definition PQsendQueryPrepared (params : list (option string)) (c : PGconn)
  : bool * PGconn :=
  if send_reply params
  then (true, {| pending := query_results params;
                 io_log := io_log c ++ [SendQueryPrepared params] |})
  else (false, record (SendQueryPrepared params) c).

Definition PQsetSingleRowMode (c : PGconn) : bool * PGconn :=
  (single_row_reply, record SetSingleRowMode c).

Definition PQexecPrepared (params : list string) (c : PGconn)
  : PGresult * PGconn :=
  ({| resultStatus := exec_reply params; nparams := 0; fields := [];
      tuple := []; cmdTuples := "" |},
   record (ExecPrepared params) c).

(** [PqResult::bind()] *)
Definition bind : M unit :=
  update (set_this (set_bound true)) ;;
  sent <- libpq (PQsendQueryPrepared []) ;;
  if negb sent then stop SendError else
  single <- libpq PQsetSingleRowMode ;;
  if negb single then stop SingleRowModeError else
  ret tt.

Definition undefined {A} : M A := fun w => (Undefined, w).

(** [param[0]] of every parameter; [NA_character_] is [None]. *)
Definition first_elements (params : list (list (option string)))
  : option (list (option string)) :=
  mapM head params.

(** [PqResult::bind(List params)] *)
Definition bind_params (params : list (list (option string))) : M unit :=
  fun w =>
  if negb (Z.of_nat (length params) =? nparams_ (this w))
  then stop (ArityError (nparams_ (this w)) (Z.of_nat (length params))) w
  else
    match first_elements params with
    | None => undefined w
    | Some c_params =>
        (sent <- libpq (PQsendQueryPrepared c_params) ;;
         if negb sent then stop SendError else
         single <- libpq PQsetSingleRowMode ;;
         if negb single then stop SingleRowModeError else
         update (set_this (set_bound true))) w
    end.

(** [as<std::string>] of a character element: [NA_character_] reads as
    the text "NA". *)
Definition as_string (x : option string) : string :=
  match x with Some s => s | None => "NA" end.

(** [s_params[j] = as<std::string>(params[j][i])] for [j < nparams]; nothing
    when an index is outside its vector. *)
Definition row_params (params : list (list (option string))) (nparams : Z)
  (i : nat) : option (list string) :=
  mapM (fun j => param ← params !! j; x ← param !! i; Some (as_string x))
       (seq 0 (Z.to_nat nparams)).

(** The rows [i] of [bind_rows]' loop that are still to run. *)
Fixpoint bind_rows_loop (params : list (list (option string)))
  (rows : list nat) : M unit :=
  match rows with
  | [] => ret tt
  | i :: rest =>
      (if Z.rem (Z.of_nat i) 1000 =? 0 then checkUserInterrupt else ret tt) ;;
      fun w =>
      match row_params params (nparams_ (this w)) i with
      | None => undefined w
      | Some c_params =>
          (res <- libpq (PQexecPrepared c_params) ;;
           if negb (bool_decide (PQresultStatus (Some res) = PGRES_COMMAND_OK))
           then stop (QueryError PQerrorMessage (Some (Z.of_nat i + 1)))
           else bind_rows_loop params rest) w
      end
  end.

(** [PqResult::bind_rows(List params)] *)
Definition bind_rows (params : list (list (option string))) : M unit :=
  fun w =>
  if negb (Z.of_nat (length params) =? nparams_ (this w))
  then stop (ArityError (nparams_ (this w)) (Z.of_nat (length params))) w
  else
    match params !! 0%nat with
    | None => undefined w
    | Some first => bind_rows_loop params (seq 0 (length first)) w
    end.

Definition active (w : world) : bool :=
  is_current_result (self (this w)) (pConn_ w).

(** [pNextRow_.reset(new PqRow(pConn_->conn())); nrows_++;] When the
    constructor throws, the lookahead and the count are left as they were. *)
Definition fetch_row : M unit :=
  fun w =>
    let '(r, g) := PqRow.new (conn (pConn_ w)) in
    let w' := set_pConn (with_conn g) w in
    match r with
    | Ok row => (Ok tt, set_this (set_next_row row) w')
    | Throw e => (Throw e, w')
    | Undefined => (Undefined, w')
    | OutOfFuel => (OutOfFuel, w')
    end.

Definition fetch_row_if_needed : M unit :=
  fun w =>
    match pNextRow_ (this w) with
    | Some _ => ret tt w
    | None => fetch_row w
    end.

(** [pNextRow_->]: the lookahead row, which must exist. *)
Definition next_row : M PqRow.t :=
  fun w =>
    match pNextRow_ (this w) with
    | Some row => ret row w
    | None => undefined w
    end.

(** [for (j = 0; j < ncols_; ++j) pNextRow_->set_list_value(out[j], i, j, types_)] *)
Definition store_row (row : PqRow.t) (types : list PGTypes) (ncols : Z)
  (i : Z) (out : data_frame) : data_frame :=
  {| df_names := df_names out;
     df_cols :=
       foldl (fun cols j =>
                alter (fun c =>
                         {| col_data := PqRow.set_list_value row (col_data c)
                                          (Z.to_nat i) j types;
                            col_class := col_class c;
                            col_units := col_units c |}) j cols)
             (df_cols out) (seq 0 (Z.to_nat ncols)) |}.

(** The [while (pNextRow_->has_data())] loop of [fetch], with the locals
    [out], [i] and [n] it leaves behind. *)
Fixpoint fetch_loop (fuel : nat) (n_max : Z) (out : data_frame) (i n : Z)
  : M (data_frame * Z * Z) :=
  match fuel with
  | O => fun w => (OutOfFuel, w)
  | S fuel' =>
      row <- next_row ;;
      if negb (PqRow.has_data row) then ret (out, i, n) else
      if (n <=? i) && negb (n_max <? 0) then ret (out, i, n) else
      let n' := if n <=? i then n * 2 else n in
      let out1 := if n <=? i then df_resize out n' else out in
      fun w =>
      let out2 := store_row row (types_ (this w)) (ncols_ (this w)) i out1 in
      (fetch_row ;;
       (if Z.rem (i + 1) 1000 =? 0 then checkUserInterrupt else ret tt) ;;
       fetch_loop fuel' n_max out2 (i + 1) n') w
  end.

(** The class and units attributes [fetch] puts on a column. *)
Definition tag_column (ty : PGTypes) (c : column) : column :=
  match ty with
  | PGDate =>
      {| col_data := col_data c; col_class := ["Date"];
         col_units := col_units c |}
  | PGDatetime | PGDatetimeTZ =>
      {| col_data := col_data c; col_class := ["POSIXct"; "POSIXt"];
         col_units := col_units c |}
  | PGTime =>
      {| col_data := col_data c; col_class := ["hms"; "difftime"];
         col_units := ["secs"] |}
  | _ => c
  end.

Definition tag_columns (types : list PGTypes) (out : data_frame) : data_frame :=
  {| df_names := df_names out;
     df_cols := imap (fun i c =>
                        match types !! i with
                        | Some ty => tag_column ty c
                        | None => c
                        end) (df_cols out) |}.

(** [PqResult::fetch(n_max)] *)
Definition fetch (n_max : Z) : M data_frame :=
  fun w =>
  if negb (bound_ (this w)) then stop BindingError w else
  if negb (active w) then stop StaleResultError w else
  let n := if n_max <? 0 then 100 else n_max in
  let out := df_create (types_ (this w)) (names_ (this w)) n in
  (fetch_row_if_needed ;;
   fun w1 =>
   (r <- fetch_loop (S (length (pending (conn (pConn_ w1))))) n_max out 0 n ;;
    let '(out, i, n) := r in
    let out := if i <? n then df_resize out i else out in
    fun w2 => ret (tag_columns (types_ (this w2)) out) w2) w1) w.

Definition n_rows_affected : M Z :=
  fetch_row_if_needed ;;
  row <- next_row ;;
  ret (PqRow.n_rows_affected row).

Definition n_rows_fetched (w : world) : Z :=
  nrows_ (this w) - match pNextRow_ (this w) with Some _ => 1 | None => 0 end.

Definition is_complete : M bool :=
  fetch_row_if_needed ;;
  row <- next_row ;;
  ret (negb (PqRow.has_data row)).

(** The [switch (type)] of [get_column_types]: the decoded type of an Oid,
    and whether the Oid fell to the [default:] label. *)
Definition column_type (type : Z) : PGTypes * bool :=
  match type with
  | 20 | 21 | 23 | 26 => (PGInt, false)
  | 1700 | 701 | 700 | 790 => (PGReal, false)
  | 18 | 19 | 25 | 114 | 1042 | 1043 => (PGString, false)
  | 1082 => (PGDate, false)
  | 1083 | 1266 => (PGTime, false)
  | 1114 => (PGDatetime, false)
  | 1184 => (PGDatetimeTZ, false)
  | 1186 | 3802 | 2950 => (PGString, false)
  | 16 => (PGLogical, false)
  | 17 | 2278 => (PGVector, false)
  | _ => (PGString, true)
  end.

(** [PqResult::get_column_names()] *)
Definition get_column_names (spec : PGresult) (ncols : Z) : list string :=
  PQfname spec <$> seq 0 (Z.to_nat ncols).

(** [PqResult::get_column_types()]: the types, and the warnings raised on
    the way, in column order. *)
Definition get_column_types (spec : PGresult) (ncols : Z)
  : list PGTypes * list Rwarning :=
  foldl (fun '(types, warns) i =>
           let type := PQftype spec i in
           let '(ty, unknown) := column_type type in
           (types ++ [ty],
            if unknown
            then warns ++ [UnknownFieldType type (PQfname spec i)]
            else warns))
        ([], []) (seq 0 (Z.to_nat ncols)).

Definition warn (ws : list Rwarning) (w : world) : world :=
  {| this := this w; pConn_ := pConn_ w; warnings := warnings w ++ ws |}.

Definition check_connection : M unit :=
  fun w => if usable (pConn_ w) then ret tt w else stop ConnectionError w.

(** The members of an object under construction, before the constructor
    body has run: [nrows_(0), bound_(false)]. *)
Definition fresh (addr : nat) : t :=
  {| self := addr; pSpec_ := None; nparams_ := 0; ncols_ := 0; nrows_ := 0;
     bound_ := false; names_ := []; types_ := []; pNextRow_ := None |}.

(** The body of [PqResult::PqResult(pConn, sql)]. *)
Definition construct (sql : string) : M unit :=
  check_connection ;;
  (fun w => update (set_pConn (set_current_result (Some (self (this w))))) w) ;;
  rethrow_after
    (prep <- libpq (PQprepare sql) ;;
     (if negb (bool_decide (PQresultStatus (Some prep) = PGRES_COMMAND_OK))
      then stop (QueryError PQerrorMessage None) else ret tt) ;;
     spec <- libpq PQdescribePrepared ;;
     update (set_this (set_spec (Some spec))) ;;
     (if negb (bool_decide (PQresultStatus (Some spec) = PGRES_COMMAND_OK))
      then stop (QueryError PQerrorMessage None) else ret tt) ;;
     update (set_this (set_nparams (PQnparams spec))) ;;
     if PQnparams spec =? 0 then bind else ret tt)
    (set_pConn (set_current_result None)) ;;
  fun w =>
  match pSpec_ (this w) with
  | None => undefined w
  | Some spec =>
      let ncols := PQnfields spec in
      let names := get_column_names spec ncols in
      let '(types, ws) := get_column_types spec ncols in
      (Ok tt, warn ws (set_this (set_metadata ncols names types) w))
  end.

(** [new PqResult(pConn, sql)] at address [addr]: the object when the
    constructor returns, the connection and the warnings in any case. *)
Definition new (addr : nat) (pConn : PqConnection) (sql : string)
  : outcome t * PqConnection * list Rwarning :=
  let '(r, w) := construct sql {| this := fresh addr; pConn_ := pConn;
                                  warnings := [] |} in
  (match r with
   | Ok _ => Ok (this w)
   | Throw e => Throw e
   | Undefined => Undefined
   | OutOfFuel => OutOfFuel
   end, pConn_ w, warnings w).

(** [PqResult::~PqResult()] *)
Definition destroy (w : world) : world :=
  if active w then set_pConn (set_current_result None) w else w.

(** The [switch (types_[i])] of [get_column_info]: the label of a type.
    [PGTime] has no [case] and falls to [default:], which stops. *)
Definition type_label (ty : PGTypes) : option string :=
  match ty with
  | PGString => Some "character"
  | PGInt => Some "integer"
  | PGReal => Some "double"
  | PGVector => Some "list"
  | PGLogical => Some "logical"
  | PGDate => Some "Date"
  | PGDatetime => Some "POSIXct"
  | PGDatetimeTZ => Some "POSIXct"
  | PGTime => None
  end.

(** What [get_column_info] comes to: the data frame of names and type
    labels with its [row.names] attribute [c(NA, -ncols_)], the stop
    "Unknown variable type", or a read of [names_[i]] or [types_[i]] outside
    the vector. *)
Inductive column_info :=
  | ColumnInfo (names types : list string) (row_names : Z * Z)
  | UnknownVariableType
  | OutsideVector.

(** The second loop of [get_column_info], over the indices still to do. *)
Fixpoint column_labels (types : list PGTypes) (todo : list nat)
  : option (option (list string)) :=
  match todo with
  | [] => Some (Some [])
  | i :: rest =>
      match types !! i with
      | None => None
      | Some ty =>
          match type_label ty with
          | None => Some None
          | Some label =>
              match column_labels types rest with
              | Some (Some labels) => Some (Some (label :: labels))
              | r => r
              end
          end
      end
  end.

(** [PqResult::get_column_info()] *)
Definition get_column_info (r : t) : column_info :=
  let todo := seq 0 (Z.to_nat (ncols_ r)) in
  match mapM (fun i => names_ r !! i) todo with
  | None => OutsideVector
  | Some names =>
      match column_labels (types_ r) todo with
      | None => OutsideVector
      | Some None => UnknownVariableType
      | Some (Some labels) => ColumnInfo names labels (NA_INTEGER, - ncols_ r)
      end
  end.

End Methods.
End PqResult.

(** * Vocabulary of the properties *)

Import PqResult.
Local Open Scope pq_scope.

(** ** A platform and a backend to run the code on *)

Module Demo.

(** Days from 1970-01-01 to the civil date [y]-[m]-[d]. *)
Definition days_from_civil (y m d : Z) : Z :=
  let y := if m <=? 2 then y - 1 else y in
  let era := y / 400 in
  let yoe := y - era * 400 in
  let doy := (153 * (m + (if 2 <? m then -3 else 9)) + 2) / 5 + d - 1 in
  let doe := yoe * 365 + yoe / 4 - yoe / 100 + doy in
  era * 146097 + doe - 719468.

Definition utc_seconds (d : tm) : Z :=
  days_from_civil (tm_year d + 1900) (tm_mon d + 1) (tm_mday d) * 86400
  + tm_hour d * 3600 + tm_min d * 60 + tm_sec d.

(** A process whose local calendar is one hour ahead of UTC. *)
Definition libc : Platform := {|
  atoi := fun _ => 0;
  atof := fun _ => 0%Q;
  strtod := fun s => if String.eqb s "00.25+00" then (1 # 4)%Q else 0%Q;
  timegm := utc_seconds;
  mktime := fun d => utc_seconds d - 3600;
  interrupt_pending := false
|}.

Definition unit_of (st : ExecStatusType) (row : list (option string)) : PGresult :=
  {| resultStatus := st; nparams := 0; fields := []; tuple := row;
     cmdTuples := "" |}.

(** A backend that accepts everything: the statement takes [n] parameters
    and describes the columns [cols]; a sent query streams [rows]. *)
Definition backend (n : Z) (cols : list (string * Z)) (rows : list PGresult)
  : Server := {|
  prepare_reply := fun _ => PGRES_COMMAND_OK;
  describe_reply := {| resultStatus := PGRES_COMMAND_OK; nparams := n;
                       fields := cols; tuple := []; cmdTuples := "" |};
  send_reply := fun _ => true;
  single_row_reply := true;
  query_results := fun _ => rows;
  exec_reply := fun _ => PGRES_COMMAND_OK;
  PQerrorMessage := "ERROR"
|}.

(** A backend that refuses to prepare. *)
Definition refusing : Server := {|
  prepare_reply := fun _ => PGRES_FATAL_ERROR;
  describe_reply := {| resultStatus := PGRES_FATAL_ERROR; nparams := 0;
                       fields := []; tuple := []; cmdTuples := "" |};
  send_reply := fun _ => false;
  single_row_reply := false;
  query_results := fun _ => [];
  exec_reply := fun _ => PGRES_FATAL_ERROR;
  PQerrorMessage := "syntax error"
|}.

Definition idle : PqConnection :=
  {| usable := true; pCurrentResult_ := None;
     conn := {| pending := []; io_log := [] |} |}.

End Demo.

(** ** Missing values, refusals, the type table *)

(** The missing value of a decoded type, in the words of the design
    document: NA integer, NA real, the absent string, the absent list
    element, the absent logical. *)
Definition missing (ty : PGTypes) : slot :=
  match ty with
  | PGInt => INTEGER NA_INTEGER
  | PGReal | PGDate | PGDatetime | PGDatetimeTZ | PGTime => REAL NA_REAL
  | PGString => STRING_ELT NA_STRING
  | PGVector => VECTOR_ELT R_NilValue
  | PGLogical => LOGICAL NA_LOGICAL
  end.

(** The three ways the backend can refuse a construction. *)
Definition refused `{Server} (sql : string) : Prop :=
  prepare_reply sql <> PGRES_COMMAND_OK \/
  resultStatus describe_reply <> PGRES_COMMAND_OK \/
  nparams describe_reply = 0 /\
  (send_reply [] = false \/ single_row_reply = false).

(** The backend accepts the statement: nothing of [refused] holds. *)
Definition accepted `{Server} (sql : string) : Prop :=
  prepare_reply sql = PGRES_COMMAND_OK /\
  resultStatus describe_reply = PGRES_COMMAND_OK /\
  (nparams describe_reply = 0 ->
   send_reply [] = true /\ single_row_reply = true).

(** The Oids named by the [case] labels of [get_column_types]. *)
Definition mapped_oids : list Z :=
  [20; 21; 23; 26; 1700; 701; 700; 790; 18; 19; 25; 114; 1042; 1043;
   1082; 1083; 1266; 1114; 1184; 1186; 3802; 2950; 16; 17; 2278].

Definition is_mapped (type : Z) : bool := existsb (Z.eqb type) mapped_oids.

Definition decoded_type (f : string * Z) : PGTypes := fst (column_type (snd f)).

Definition unknown_type_warning (f : string * Z) : list Rwarning :=
  if is_mapped (snd f) then [] else [UnknownFieldType (snd f) (fst f)].

(** ** Timestamps on the wire *)

Definition digit_char (d : Z) : ascii := ascii_of_N (Z.to_N (48 + d)).

Definition two_digits (v : Z) (rest : string) : string :=
  String (digit_char (v / 10)) (String (digit_char (v mod 10)) rest).

(** The text [YYYY-MM-DD HH:MM:] followed by [rest], the seconds and
    whatever the server appends to them. *)
Definition wire_timestamp (Y M D h m : Z) (rest : string) : string :=
  two_digits (Y / 100) (two_digits (Y mod 100)
    (String "-"%char (two_digits M
    (String "-"%char (two_digits D
    (String " "%char (two_digits h
    (String ":"%char (two_digits m
    (String ":"%char rest)))))))))).

(** The calendar fields [get_datetime] hands to the C library. *)
Definition calendar (Y M D h m : Z) (sec : Q) : tm :=
  {| tm_sec := trunc sec; tm_min := m; tm_hour := h;
     tm_mday := D; tm_mon := M - 1; tm_year := Y - 1900; tm_isdst := -1 |}.

(** The text [YYYY?MM?DD] followed by [rest], with any two characters in
    the places of the separators. *)
Definition wire_date (Y M D : Z) (sep1 sep2 : ascii) (rest : string) : string :=
  two_digits (Y / 100) (two_digits (Y mod 100)
    (String sep1 (two_digits M (String sep2 (two_digits D rest))))).

(** The text [HH?MM?] followed by [rest]. *)
Definition wire_time (h m : Z) (sep1 sep2 : ascii) (rest : string) : string :=
  two_digits h (String sep1 (two_digits m (String sep2 rest))).

(** Midnight of a calendar day, as [get_date] hands it to [timegm]. *)
Definition midnight (Y M D : Z) : tm :=
  {| tm_sec := 0; tm_min := 0; tm_hour := 0;
     tm_mday := D; tm_mon := M - 1; tm_year := Y - 1900; tm_isdst := -1 |}.

(** ** Buffers, capacities and streams *)

(** Column [j], of type [ty], of the given response units. *)
Definition decoded_column `{Platform} (rows : list PGresult) (j : nat)
  (ty : PGTypes) : list slot :=
  (fun r => PqRow.list_value {| PqRow.pRes_ := r |} j ty) <$> rows.

(** Buffers with room for [n] rows of which the first are [rows], decoded. *)
Definition filled `{Platform} (types : list PGTypes) (rows : list PGresult)
  (n : nat) : list column :=
  imap (fun j ty => bare (resize n Unfilled (decoded_column rows j ty))) types.

(** The capacity after [k] more rows are stored, from capacity [n] with
    [i] rows stored: doubled whenever a row arrives at a full buffer. *)
Fixpoint capacity (n i : Z) (k : nat) : Z :=
  match k with
  | O => n
  | S k' => capacity (if n <=? i then n * 2 else n) (i + 1) k'
  end.

(** The world after [k] more units are pulled into the lookahead. *)
Fixpoint pull_rows `{Server} (k : nat) (w : world) : world :=
  match k with
  | O => w
  | S k' => pull_rows k' (snd (fetch_row w))
  end.

(** The units not yet handed to the caller: the lookahead, if there is
    one, and the queue of the connection. *)
Definition lookahead_stream (w : world) : list PGresult :=
  match pNextRow_ (this w) with
  | Some row => PqRow.pRes_ row :: pending (conn (pConn_ w))
  | None => pending (conn (pConn_ w))
  end.

Definition is_row (r : PGresult) : Prop := resultStatus r = PGRES_SINGLE_TUPLE.

(** A unit that ends a stream: neither a row nor a fatal error. *)
Definition is_final (r : PGresult) : Prop :=
  resultStatus r <> PGRES_SINGLE_TUPLE /\ resultStatus r <> PGRES_FATAL_ERROR.

(** A bound, current result whose remaining stream is the rows [rows]
    followed by the final unit [fin]. *)
Definition streaming (w : world) (rows : list PGresult) (fin : PGresult) : Prop :=
  bound_ (this w) = true /\
  active w = true /\
  ncols_ (this w) = Z.of_nat (length (types_ (this w))) /\
  Forall is_row rows /\
  is_final fin /\
  exists after, lookahead_stream w = rows ++ fin :: after.

(** The columns [fetch] returns for the given rows. *)
Definition fetched_columns `{Platform} (types : list PGTypes)
  (rows : list PGresult) : list column :=
  imap (fun j ty => tag_column ty (bare (decoded_column rows j ty))) types.

(** How many rows [fetch(n_max)] takes from a stream of [len] rows. *)
Definition rows_taken (n_max : Z) (len : nat) : nat :=
  if n_max <? 0 then len else Nat.min (Z.to_nat n_max) len.

(** A query of two columns whose stream is 250 equal rows. *)
Module Demo250.
Definition row : PGresult := Demo.unit_of PGRES_SINGLE_TUPLE [Some "7"; None].
Definition fin : PGresult := Demo.unit_of PGRES_TUPLES_OK [].
Definition server : Server :=
  Demo.backend 0 [("id", 23); ("note", 25)] (replicate 250 row ++ [fin]).
Definition sql : string := "SELECT id, note FROM t".
Definition opened : outcome t * PqConnection * list Rwarning :=
  Eval vm_compute in @new server 1 Demo.idle sql.
Definition result : t :=
  match opened with (Ok rs, _, _) => rs | _ => fresh 1 end.
Definition world0 : world :=
  {| this := result; pConn_ := snd (fst opened); warnings := snd opened |}.
End Demo250.

(** ** Rows of a batch, and the record of calls *)

(** Row [i] of a batch as [bind_rows] sends it: element [i] of every
    parameter vector, NA as the text "NA". *)
Definition batch_row (params : list (list (option string))) (i : nat)
  : list string :=
  (fun param => as_string (default None (param !! i))) <$> params.

(** The world after the given calls on the libpq handle were recorded. *)
Definition logged (events : list io_event) (w : world) : world :=
  set_pConn (with_conn {| pending := pending (conn (pConn_ w));
                          io_log := io_log (conn (pConn_ w)) ++ events |}) w.

(** * Properties *)

(** ** Null columns *)

Lemma null_decodes_to_missing `{Platform} (row : PqRow.t) (j : nat) (ty : PGTypes) :
  PqRow.is_null row j = true -> ty <> PGVector ->
  PqRow.list_value row j ty = missing ty.
Proof.
  intros Hnull Hty.
  destruct ty; try congruence; simpl;
    unfold PqRow.get_int, PqRow.get_double, PqRow.get_string, PqRow.get_logical,
      PqRow.get_date, PqRow.get_datetime, PqRow.get_time;
    rewrite Hnull; reflexivity.
Qed.

Lemma get_raw_of_null `{Platform} (row : PqRow.t) (j : nat) :
  PqRow.is_null row j = true -> PqRow.get_raw row j = RAWSXP "".
Proof.
  unfold PqRow.is_null, PqRow.get_raw, PQgetlength, PQgetvalue, PQgetisnull.
  destruct (tuple (PqRow.pRes_ row) !! j) as [[v|]|]; try discriminate; reflexivity.
Qed.

(** C1. A row whose only column is null, read as a raw-bytes column: the
    accessor [get_raw] has no null check, so the stored element is the empty
    raw vector, the same as for a column holding the empty value, and not
    the missing element. *)
Theorem C1_null_raw_column_is_not_missing :
  forall P : Platform,
    let null_row := {| PqRow.pRes_ := Demo.unit_of PGRES_SINGLE_TUPLE [None] |} in
    let empty_row := {| PqRow.pRes_ := Demo.unit_of PGRES_SINGLE_TUPLE [Some ""] |} in
    PqRow.is_null null_row 0 = true /\
    PqRow.is_null empty_row 0 = false /\
    PqRow.list_value null_row 0 PGVector = VECTOR_ELT (RAWSXP "") /\
    PqRow.list_value null_row 0 PGVector = PqRow.list_value empty_row 0 PGVector /\
    PqRow.list_value null_row 0 PGVector <> missing PGVector.
Proof.
  intros P. cbv zeta. repeat split. discriminate.
Qed.

(** ** Draining the connection *)

Lemma drain_pulls_everything (q : list PGresult) :
  forall (c : PGconn) (fuel : nat),
    pending c = q -> (length q < fuel)%nat ->
    PqRow.drain fuel c =
      Some {| pending := [];
              io_log := io_log c
                        ++ map (fun r => GetResult (Some (resultStatus r))) q
                        ++ [GetResult None] |}.
Proof.
  induction q as [|r q IH]; intros c fuel Hq Hfuel;
    (destruct fuel as [|fuel]; [simpl in Hfuel; lia|]);
    simpl; unfold PQgetResult; rewrite Hq.
  - unfold record. rewrite Hq. reflexivity.
  - rewrite IH with (c := {| pending := q; io_log := _ |});
      [| reflexivity | simpl in *; lia].
    simpl. rewrite <- app_assoc. reflexivity.
Qed.

(** C2 as stated fails for the unit that completes a statement without
    rows, such as an INSERT: its status is [PGRES_COMMAND_OK], it carries
    the affected-row count and no row. The constructor keeps it and makes no
    further call: the only [PQgetResult] on record is the one that returned
    the unit, so NULL was never received. *)
Lemma C2_command_ok_is_not_drained :
  let S := Demo.backend 1 [] [] in
  let done := {| resultStatus := PGRES_COMMAND_OK; nparams := 0; fields := [];
                 tuple := []; cmdTuples := "1" |} in
  let c := {| pending := [done]; io_log := [] |} in
  PqRow.has_data {| PqRow.pRes_ := done |} = false /\
  PqRow.new c
  = (Ok {| PqRow.pRes_ := done |},
     {| pending := []; io_log := [GetResult (Some PGRES_COMMAND_OK)] |}) /\
  ~ In (GetResult None) (io_log (snd (PqRow.new c))).
Proof.
  cbv zeta. split; [reflexivity|]. split; [reflexivity|].
  simpl. intros [Hin | []]. discriminate Hin.
Qed.

(** C2, amended. When the unit the constructor pulls has status
    [PGRES_TUPLES_OK] (all rows delivered, command complete), the
    constructor succeeds with that unit and has called [PQgetResult] once
    more for every unit still queued and a last time to receive NULL: the
    queue is empty and the next [PQgetResult] returns NULL. *)
Theorem C2_command_complete_drains `{Server} (c : PGconn) (r : PGresult)
    (q : list PGresult) :
  pending c = r :: q ->
  resultStatus r = PGRES_TUPLES_OK ->
  exists c',
    PqRow.new c = (Ok {| PqRow.pRes_ := r |}, c') /\
    pending c' = [] /\
    io_log c' = io_log c
                ++ GetResult (Some PGRES_TUPLES_OK)
                   :: map (fun u => GetResult (Some (resultStatus u))) q
                ++ [GetResult None] /\
    fst (PQgetResult c') = None.
Proof.
  intros Hq Hst. eexists. unfold PqRow.new, PQgetResult at 1. rewrite Hq.
  simpl PQresultStatus. rewrite Hst. rewrite bool_decide_eq_true_2 by reflexivity.
  rewrite (drain_pulls_everything q); [| reflexivity | simpl; lia].
  rewrite (bool_decide_eq_false_2 (PGRES_TUPLES_OK = PGRES_FATAL_ERROR)) by discriminate.
  split; [reflexivity|]. simpl. rewrite <- app_assoc. auto.
Qed.

Lemma C2_command_complete_drains_witness :
  let H := Demo.backend 0 [] [] in
  let done := Demo.unit_of PGRES_TUPLES_OK [] in
  let c := {| pending := [done; done]; io_log := [] |} in
  exists c',
    PqRow.new c = (Ok {| PqRow.pRes_ := done |}, c') /\
    pending c' = [] /\
    io_log c' = io_log c
                ++ GetResult (Some PGRES_TUPLES_OK)
                   :: map (fun u => GetResult (Some (resultStatus u))) [done]
                ++ [GetResult None] /\
    fst (PQgetResult c') = None.
Proof.
  intros H done c.
  apply (@C2_command_complete_drains H c done [done]); reflexivity.
Defined.

(** Any other status leaves the queue as the first pull left it. *)
Lemma other_status_pulls_once `{Server} (c : PGconn) (r : PGresult)
    (q : list PGresult) :
  pending c = r :: q ->
  resultStatus r <> PGRES_TUPLES_OK ->
  pending (snd (PqRow.new c)) = q.
Proof.
  intros Hq Hst. unfold PqRow.new, PQgetResult. rewrite Hq. simpl PQresultStatus.
  rewrite bool_decide_eq_false_2 by assumption.
  case_bool_decide; reflexivity.
Qed.

(** ** The guards of fetch *)

Lemma fetch_unbound `{Platform} `{Server} (n_max : Z) (w : world) :
  bound_ (this w) = false -> fetch n_max w = (Throw BindingError, w).
Proof. unfold fetch, stop. intros ->. reflexivity. Qed.

Lemma fetch_inactive `{Platform} `{Server} (n_max : Z) (w : world) :
  bound_ (this w) = true -> active w = false ->
  fetch n_max w = (Throw StaleResultError, w).
Proof. unfold fetch, stop. intros -> ->. reflexivity. Qed.

(** C6 as stated fails: a result that is neither bound nor current is
    refused for not being bound. *)
Lemma C6_unbound_stale_is_binding_error :
  let P := Demo.libc in
  let S := Demo.backend 1 [] [] in
  let w := {| this := fresh 1; pConn_ := Demo.idle; warnings := [] |} in
  bound_ (this w) = false /\ active w = false /\
  fetch 10 w = (Throw BindingError, w) /\
  fetch 10 w <> (Throw StaleResultError, w).
Proof. cbv zeta. repeat split. discriminate. Qed.

(** C6, amended. [fetch] on a result that is not bound throws the binding
    error; on a bound result that is not the connection's current one it
    throws the stale-result error. Either way the object, the connection
    (its queue and its log of libpq calls) and the warnings are as before. *)
Theorem C6_fetch_guards `{Platform} `{Server} (n_max : Z) (w : world) :
  (bound_ (this w) = false -> fetch n_max w = (Throw BindingError, w)) /\
  (bound_ (this w) = true -> active w = false ->
   fetch n_max w = (Throw StaleResultError, w)).
Proof. split; [apply fetch_unbound | apply fetch_inactive]. Qed.

Lemma C6_fetch_guards_witness :
  let P := Demo.libc in
  let S := Demo.backend 1 [] [] in
  let w := {| this := set_bound true (fresh 1); pConn_ := Demo.idle;
              warnings := [] |} in
  fetch 10 w = (Throw StaleResultError, w).
Proof.
  intros P S w.
  exact (proj2 (@C6_fetch_guards P S 10 w) eq_refl eq_refl).
Defined.

(** ** Construction *)

Ltac run :=
  unfold construct, bind, check_connection, rethrow_after, and_then, update,
    libpq, stop, ret, undefined, PQprepare, PQdescribePrepared,
    PQsendQueryPrepared, PQsetSingleRowMode, PQnparams; simpl.

(** What the constructor leaves behind, by the answers of the backend. *)
Lemma new_cases `{Platform} `{Server} (addr : nat) (pConn : PqConnection)
    (sql : string) :
  usable pConn = true ->
  let '(r, c, ws) := new addr pConn sql in
  match r with
  | Ok rs =>
      pCurrentResult_ c = Some addr /\ self rs = addr /\
      nparams_ rs = nparams describe_reply /\
      bound_ rs = (nparams describe_reply =? 0) /\
      pNextRow_ rs = None /\ nrows_ rs = 0 /\
      prepare_reply sql = PGRES_COMMAND_OK /\
      resultStatus describe_reply = PGRES_COMMAND_OK /\
      (nparams describe_reply = 0 ->
       send_reply [] = true /\ single_row_reply = true) /\
      ncols_ rs = PQnfields describe_reply /\
      names_ rs = get_column_names describe_reply (PQnfields describe_reply) /\
      (types_ rs, ws) = get_column_types describe_reply (PQnfields describe_reply) /\
      (nparams describe_reply = 0 -> pending (conn c) = query_results [])
  | Throw e =>
      pCurrentResult_ c = None /\
      (prepare_reply sql <> PGRES_COMMAND_OK \/
       resultStatus describe_reply <> PGRES_COMMAND_OK \/
       nparams describe_reply = 0 /\
       (send_reply [] = false \/ single_row_reply = false))
  | _ => False
  end.
Proof.
  intros Hok. unfold new. run. rewrite Hok. simpl.
  destruct (get_column_types describe_reply (PQnfields describe_reply))
    as [types ws] eqn:Hty.
  destruct (prepare_reply sql) eqn:Hprep; simpl; try (split; [reflexivity|left; discriminate]).
  destruct (resultStatus describe_reply) eqn:Hdesc; simpl;
    try (split; [reflexivity|right; left; discriminate]).
  destruct (nparams describe_reply =? 0) eqn:Hn; simpl.
  - apply Z.eqb_eq in Hn.
    destruct (send_reply []) eqn:Hsend; simpl;
      [|split; [reflexivity|right; right; auto]].
    destruct single_row_reply eqn:Hsingle; simpl;
      [|split; [reflexivity|right; right; auto]].
    rewrite Hty. simpl. repeat split; auto.
  - rewrite Hty. simpl. apply Z.eqb_neq in Hn. repeat split; auto; contradiction.
Qed.

(** An unusable connection is refused before anything else happens. *)
Lemma new_unusable `{Server} (addr : nat) (pConn : PqConnection) (sql : string) :
  usable pConn = false ->
  new addr pConn sql = (Throw ConnectionError, pConn, []).
Proof.
  intros Hbad. unfold new. run. rewrite Hbad. destruct pConn. reflexivity.
Qed.

(** Each of the three refusals does make the constructor throw. *)
Lemma refused_construction_throws `{Platform} `{Server}
    (addr : nat) (pConn : PqConnection) (sql : string) :
  usable pConn = true ->
  prepare_reply sql <> PGRES_COMMAND_OK \/
  resultStatus describe_reply <> PGRES_COMMAND_OK \/
  nparams describe_reply = 0 /\
  (send_reply [] = false \/ single_row_reply = false) ->
  exists e c ws, new addr pConn sql = (Throw e, c, ws).
Proof.
  intros Hok Hfail. pose proof (new_cases addr pConn sql Hok) as Hc.
  destruct (new addr pConn sql) as [[r c] ws]. destruct r as [rs|e| |].
  - exfalso. destruct Hc as (_ & _ & _ & _ & _ & _ & Hp & Hd & Hs & _).
    destruct Hfail as [Hf|[Hf|[Hz Hf]]]; [congruence|congruence|].
    destruct (Hs Hz) as [Hs1 Hs2]. destruct Hf; congruence.
  - eauto.
  - contradiction.
  - contradiction.
Qed.

(** C9. On a connection that passes the check, the object registers itself
    and then: a refused prepare, a refused describe and a refused automatic
    bind each make the constructor throw; and whenever the constructor
    throws, the connection is left with no current result. *)
Theorem C9_failed_construction_deregisters `{Platform} `{Server}
    (addr : nat) (pConn : PqConnection) (sql : string) :
  usable pConn = true ->
  (refused sql -> exists e c ws, new addr pConn sql = (Throw e, c, ws)) /\
  (forall e c ws,
     new addr pConn sql = (Throw e, c, ws) ->
     pCurrentResult_ c = None /\ is_current_result addr c = false).
Proof.
  intros Hok. split.
  - apply refused_construction_throws. exact Hok.
  - intros e c ws Hnew. pose proof (new_cases addr pConn sql Hok) as Hc.
    rewrite Hnew in Hc. destruct Hc as [Hc _]. unfold is_current_result.
    rewrite Hc. split; [reflexivity|]. apply bool_decide_eq_false_2. discriminate.
Qed.

Lemma C9_failed_construction_deregisters_witness :
  let P := Demo.libc in
  let S := Demo.refusing in
  new 7 Demo.idle "SELEC 1"
    = (Throw (QueryError "syntax error" None),
       {| usable := true; pCurrentResult_ := None;
          conn := {| pending := []; io_log := [Prepare "SELEC 1"] |} |}, []) /\
  pCurrentResult_ (snd (fst (new 7 Demo.idle "SELEC 1"))) = None.
Proof.
  intros P S. split; [reflexivity|].
  exact (proj1 (proj2 (@C9_failed_construction_deregisters P S 7 Demo.idle
                         "SELEC 1" eq_refl)
                 _ _ _ eq_refl)).
Defined.

(** ** Batch binding *)

Lemma checkUserInterrupt_cases `{Platform} (w : world) :
  checkUserInterrupt w = (Ok tt, w) \/
  checkUserInterrupt w = (Throw InterruptedError, w).
Proof. unfold checkUserInterrupt. destruct interrupt_pending; auto. Qed.

Lemma poll_cases `{Platform} (b : bool) (w : world) :
  (if b then checkUserInterrupt else ret tt) w = (Ok tt, w) \/
  (if b then checkUserInterrupt else ret tt) w = (Throw InterruptedError, w).
Proof. destruct b; [apply checkUserInterrupt_cases | left; reflexivity]. Qed.

Lemma and_then_ok {A B} (m : M A) (k : A -> M B) (w w' : world) (a : A) :
  m w = (Ok a, w') -> and_then m k w = k a w'.
Proof. unfold and_then. intros ->. reflexivity. Qed.

Lemma and_then_throw {A B} (m : M A) (k : A -> M B) (w w' : world)
    (e : exception) :
  m w = (Throw e, w') -> and_then m k w = (Throw e, w').
Proof. unfold and_then. intros ->. reflexivity. Qed.

(** The loop of [bind_rows] touches the connection only: the object, its
    [bound_] flag included, is as before; and it never reports an arity
    error. *)
Lemma bind_rows_loop_frame `{Platform} `{Server}
    (params : list (list (option string))) (rows : list nat) :
  forall w,
    this (snd (bind_rows_loop params rows w)) = this w /\
    forall a b, fst (bind_rows_loop params rows w) <> Throw (ArityError a b).
Proof.
  induction rows as [|i rows IH]; intros w; cbn [bind_rows_loop].
  - split; [reflexivity | discriminate].
  - destruct (poll_cases (Z.rem (Z.of_nat i) 1000 =? 0) w) as [Hp | Hp].
    2: { rewrite (and_then_throw _ _ _ _ _ Hp).
         split; [reflexivity | discriminate]. }
    rewrite (and_then_ok _ _ _ _ _ Hp).
    destruct (row_params params (nparams_ (this w)) i) as [c_params|];
      [| split; [reflexivity | discriminate]].
    unfold and_then, libpq, PQexecPrepared; simpl.
    destruct (bool_decide (exec_reply c_params = PGRES_COMMAND_OK)); simpl.
    + match goal with |- context [bind_rows_loop params rows ?w'] =>
        destruct (IH w') as [IH1 IH2] end.
      split; [rewrite IH1; reflexivity | exact IH2].
    + split; [reflexivity | discriminate].
Qed.

Lemma bind_rows_this `{Platform} `{Server}
    (params : list (list (option string))) (w : world) :
  this (snd (bind_rows params w)) = this w.
Proof.
  unfold bind_rows.
  destruct (negb (Z.of_nat (length params) =? nparams_ (this w))); [reflexivity|].
  destruct (params !! 0%nat); [|reflexivity].
  apply bind_rows_loop_frame.
Qed.

(** The scalar bind makes the same comparison, before anything is sent. *)
Lemma bind_params_arity `{Platform} `{Server}
    (params : list (list (option string))) (w : world) :
  Z.of_nat (length params) <> nparams_ (this w) ->
  bind_params params w
  = (Throw (ArityError (nparams_ (this w)) (Z.of_nat (length params))), w).
Proof.
  intros Hne. unfold bind_params.
  replace (Z.of_nat (length params) =? nparams_ (this w)) with false
    by (symmetry; apply Z.eqb_neq; exact Hne).
  reflexivity.
Qed.

(** C3 as stated fails: two parameter columns of lengths 1 and 2 on a
    two-parameter statement. The call returns normally after executing one
    row, taken from the first elements. *)
Lemma C3_unequal_columns_are_executed :
  let P := Demo.libc in
  let S := Demo.backend 2 [] [] in
  let params := [[Some "a"]; [Some "x"; Some "y"]] in
  let w := {| this := set_nparams 2 (fresh 1); pConn_ := Demo.idle;
              warnings := [] |} in
  length <$> params = [1%nat; 2%nat] /\
  fst (bind_rows params w) = Ok tt /\
  (forall a b, fst (bind_rows params w) <> Throw (ArityError a b)) /\
  io_log (conn (pConn_ (snd (bind_rows params w)))) = [ExecPrepared ["a"; "x"]].
Proof. cbv zeta. repeat split. discriminate. Qed.

Lemma logged_nil (w : world) : logged [] w = w.
Proof.
  unfold logged, set_pConn, with_conn. rewrite app_nil_r.
  destruct w as [r [u p [q l]] ws]. reflexivity.
Qed.

Lemma logged_logged (e1 e2 : list io_event) (w : world) :
  logged e2 (logged e1 w) = logged (e1 ++ e2) w.
Proof.
  unfold logged, set_pConn, with_conn. simpl. rewrite app_assoc. reflexivity.
Qed.

Lemma row_params_rectangular (params : list (list (option string)))
    (nparams : Z) (i : nat) :
  Z.of_nat (length params) = nparams ->
  Forall (fun param => (i < length param)%nat) params ->
  row_params params nparams i = Some (batch_row params i).
Proof.
  intros <- Hlong. unfold row_params. rewrite Nat2Z.id.
  apply mapM_Some_2, Forall2_same_length_lookup_2.
  - unfold batch_row. rewrite length_seq, length_fmap. reflexivity.
  - intros j x y Hx Hy. apply lookup_seq in Hx as [-> Hj]. simpl.
    unfold batch_row in Hy. rewrite list_lookup_fmap in Hy.
    destruct (params !! j) as [param|] eqn:Hparam; [|discriminate].
    simpl in *. injection Hy as <-.
    pose proof (Forall_lookup_1 _ _ _ _ Hlong Hparam) as Hlen.
    destruct (lookup_lt_is_Some_2 param i Hlen) as [x Hx]. rewrite Hx.
    reflexivity.
Qed.

(** What [bind_rows] does with a batch none of whose rows runs past the end
    of a parameter vector: from row [s] on it sends [m] of the [n] rows, in
    order, and ends in one of three ways. *)
Lemma bind_rows_loop_outcome `{Platform} `{Server}
    (params : list (list (option string))) :
  forall (n s : nat) (w : world),
    Z.of_nat (length params) = nparams_ (this w) ->
    Forall (fun param => (s + n <= length param)%nat) params ->
    exists m : nat,
      (m <= n)%nat /\
      snd (bind_rows_loop params (seq s n) w)
      = logged (ExecPrepared <$> (batch_row params <$> seq s m)) w /\
      match fst (bind_rows_loop params (seq s n) w) with
      | Ok _ =>
          m = n /\
          forall i, (s <= i < s + m)%nat ->
                    exec_reply (batch_row params i) = PGRES_COMMAND_OK
      | Throw (QueryError msg (Some row)) =>
          msg = PQerrorMessage /\ row = Z.of_nat (s + m) /\ (0 < m)%nat /\
          exec_reply (batch_row params (s + m - 1)) <> PGRES_COMMAND_OK /\
          forall i, (s <= i < s + m - 1)%nat ->
                    exec_reply (batch_row params i) = PGRES_COMMAND_OK
      | Throw InterruptedError =>
          interrupt_pending = true /\ (m < n)%nat /\
          Z.rem (Z.of_nat (s + m)) 1000 = 0 /\
          forall i, (s <= i < s + m)%nat ->
                    exec_reply (batch_row params i) = PGRES_COMMAND_OK
      | _ => False
      end.
Proof.
  induction n as [|n IH]; intros s w Harity Hlong.
  - exists 0%nat. simpl. rewrite logged_nil.
    split; [lia|]. split; [reflexivity|]. split; [reflexivity|]. intros i Hi. lia.
  - cbn [seq bind_rows_loop].
    assert (Hpoll :
      (if Z.rem (Z.of_nat s) 1000 =? 0 then checkUserInterrupt else ret tt) w
      = (Ok tt, w) \/
      (if Z.rem (Z.of_nat s) 1000 =? 0 then checkUserInterrupt else ret tt) w
      = (Throw InterruptedError, w) /\
      interrupt_pending = true /\ Z.rem (Z.of_nat s) 1000 = 0).
    { destruct (Z.eqb_spec (Z.rem (Z.of_nat s) 1000) 0) as [Hrem|_];
        [|left; reflexivity].
      unfold checkUserInterrupt. destruct interrupt_pending; [right|left]; auto. }
    destruct Hpoll as [Hp | (Hp & Hint & Hrem)].
    2: { rewrite (and_then_throw _ _ _ _ _ Hp). exists 0%nat. simpl.
         rewrite logged_nil, Nat.add_0_r.
         split; [lia|]. split; [reflexivity|]. split; [exact Hint|].
         split; [lia|]. split; [exact Hrem|]. intros i Hi. lia. }
    rewrite (and_then_ok _ _ _ _ _ Hp). cbv beta.
    rewrite (row_params_rectangular params _ s Harity)
      by (eapply Forall_impl; [exact Hlong | simpl; intros; lia]).
    assert (Hturn :
      (res <- libpq (PQexecPrepared (batch_row params s)) ;;
       if negb (bool_decide (PQresultStatus (Some res) = PGRES_COMMAND_OK))
       then stop (QueryError PQerrorMessage (Some (Z.of_nat s + 1)))
       else bind_rows_loop params (seq (S s) n)) w
      = if bool_decide (exec_reply (batch_row params s) = PGRES_COMMAND_OK)
        then bind_rows_loop params (seq (S s) n)
               (logged [ExecPrepared (batch_row params s)] w)
        else (Throw (QueryError PQerrorMessage (Some (Z.of_nat s + 1))),
              logged [ExecPrepared (batch_row params s)] w)).
    { unfold and_then, libpq, PQexecPrepared, stop. simpl.
      destruct (bool_decide (exec_reply (batch_row params s) = PGRES_COMMAND_OK));
        reflexivity. }
    rewrite Hturn. clear Hturn.
    destruct (decide (exec_reply (batch_row params s) = PGRES_COMMAND_OK))
      as [Hacc | Hrej].
    + rewrite bool_decide_eq_true_2 by exact Hacc.
      destruct (IH (S s) (logged [ExecPrepared (batch_row params s)] w))
        as (m & Hm & Hsnd & Hend).
      { exact Harity. }
      { eapply Forall_impl; [exact Hlong | simpl; intros; lia]. }
      exists (S m). split; [lia|]. split.
      { rewrite Hsnd, logged_logged. reflexivity. }
      replace (s + S m)%nat with (S s + m)%nat by lia.
      destruct (fst (bind_rows_loop params (seq (S s) n)
                       (logged [ExecPrepared (batch_row params s)] w)))
        as [[]|e| |]; try contradiction.
      * destruct Hend as [-> Hall]. split; [reflexivity|].
        intros i Hi. destruct (decide (i = s)) as [->|Hne]; [exact Hacc|].
        apply Hall. lia.
      * destruct e as [|msg row| | | | | | |]; try contradiction;
          [destruct row as [row|]; [|contradiction]|].
        -- destruct Hend as (Hmsg & Hrow & Hpos & Hrej & Hall).
           split; [exact Hmsg|]. split; [exact Hrow|]. split; [lia|].
           split; [exact Hrej|].
           intros i Hi. destruct (decide (i = s)) as [->|Hne]; [exact Hacc|].
           apply Hall. lia.
        -- destruct Hend as (Hint & Hlt & Hrem & Hall).
           split; [exact Hint|]. split; [lia|]. split; [exact Hrem|].
           intros i Hi. destruct (decide (i = s)) as [->|Hne]; [exact Hacc|].
           apply Hall. lia.
    + rewrite bool_decide_eq_false_2 by exact Hrej.
      exists 1%nat. split; [lia|]. split; [reflexivity|]. simpl fst.
      split; [reflexivity|]. split; [lia|]. split; [lia|].
      replace (s + 1 - 1)%nat with s by lia. split; [exact Hrej|].
      intros i Hi. lia.
Qed.

(** C3, amended. [bind_rows] compares the number of parameter columns with
    the parameter count of the statement, and never the lengths of the
    columns. When the numbers differ it throws the arity error with the
    object, the connection (no row sent) and the warnings untouched. When
    they agree and no column is shorter than the first, it sends the rows
    [0], ..., [m - 1] of the batch in order, [m] at most the length of the
    first column, and changes nothing else; it ends in one of three ways
    and in no other, so never with an arity error: normally, after every
    row was sent and accepted; with the query error of the first refused
    row, which carries that row's one-based number; or interrupted, before
    a row whose index is a multiple of 1000. *)
Theorem C3_bind_rows_arity `{Platform} `{Server}
    (params : list (list (option string))) (w : world) :
  if Z.of_nat (length params) =? nparams_ (this w)
  then forall first others,
         params = first :: others ->
         Forall (fun param => (length first <= length param)%nat) others ->
         exists m : nat,
           (m <= length first)%nat /\
           snd (bind_rows params w)
           = logged (ExecPrepared <$> (batch_row params <$> seq 0 m)) w /\
           match fst (bind_rows params w) with
           | Ok _ =>
               m = length first /\
               forall i, (i < m)%nat ->
                         exec_reply (batch_row params i) = PGRES_COMMAND_OK
           | Throw (QueryError msg (Some row)) =>
               msg = PQerrorMessage /\ row = Z.of_nat m /\ (0 < m)%nat /\
               exec_reply (batch_row params (m - 1)) <> PGRES_COMMAND_OK /\
               forall i, (i < m - 1)%nat ->
                         exec_reply (batch_row params i) = PGRES_COMMAND_OK
           | Throw InterruptedError =>
               interrupt_pending = true /\ (m < length first)%nat /\
               Z.rem (Z.of_nat m) 1000 = 0 /\
               forall i, (i < m)%nat ->
                         exec_reply (batch_row params i) = PGRES_COMMAND_OK
           | _ => False
           end
  else bind_rows params w
       = (Throw (ArityError (nparams_ (this w)) (Z.of_nat (length params))), w).
Proof.
  unfold bind_rows.
  destruct (Z.eqb_spec (Z.of_nat (length params)) (nparams_ (this w)))
    as [Harity|_]; simpl; [|reflexivity].
  intros first others -> Hlong. cbn [lookup list_lookup].
  destruct (bind_rows_loop_outcome (first :: others) (length first) 0 w Harity)
    as (m & Hm & Hsnd & Hend).
  { apply Forall_cons. split; [simpl; lia|].
    eapply Forall_impl; [exact Hlong | simpl; intros; lia]. }
  exists m. split; [exact Hm|]. split; [exact Hsnd|].
  destruct (fst (bind_rows_loop (first :: others) (seq 0 (length first)) w))
    as [[]|e| |]; try contradiction.
  - destruct Hend as [Hall Hacc]. split; [exact Hall|].
    intros i Hi. apply Hacc. lia.
  - destruct e as [|msg row| | | | | | |]; try contradiction;
      [destruct row as [row|]; [|contradiction]|].
    + destruct Hend as (Hmsg & Hrow & Hpos & Hrej & Hacc).
      split; [exact Hmsg|]. split; [exact Hrow|]. split; [exact Hpos|].
      split; [exact Hrej|]. intros i Hi. apply Hacc. simpl. lia.
    + destruct Hend as (Hint & Hlt & Hrem & Hacc).
      split; [exact Hint|]. split; [exact Hlt|]. split; [exact Hrem|].
      intros i Hi. apply Hacc. lia.
Qed.

Lemma C3_bind_rows_arity_witness :
  let P := Demo.libc in
  let S := Demo.backend 2 [] [] in
  let params := [[Some "a"]; [Some "x"; Some "y"]] in
  let w := {| this := set_nparams 2 (fresh 1); pConn_ := Demo.idle;
              warnings := [] |} in
  bind_rows params w = (Ok tt, logged [ExecPrepared ["a"; "x"]] w) /\
  bind_rows [[Some "a"]] w = (Throw (ArityError 2 1), w).
Proof.
  intros P S params w. split.
  - destruct (@C3_bind_rows_arity P S params w [Some "a"]
                [[Some "x"; Some "y"]] eq_refl)
      as (m & Hm & Hsnd & Hend).
    + repeat constructor.
    + change (fst (bind_rows params w)) with (Ok tt : outcome unit) in Hend.
      destruct Hend as [-> _].
      rewrite (surjective_pairing (bind_rows params w)), Hsnd. reflexivity.
  - exact (@C3_bind_rows_arity P S [[Some "a"]] w).
Defined.

(** ** Fetching without a bind *)

(** C10. [bind_rows] leaves [bound_] as it was. A result constructed for a
    statement with parameters is not bound, so after any [bind_rows] on it,
    whether the batch completed or not, [fetch] throws the binding error. *)
Theorem C10_bind_rows_does_not_bind `{Platform} `{Server}
    (addr : nat) (pConn : PqConnection) (sql : string) (rs : t)
    (c : PqConnection) (ws : list Rwarning)
    (params : list (list (option string))) (n_max : Z) :
  new addr pConn sql = (Ok rs, c, ws) ->
  0 < nparams_ rs ->
  let w := {| this := rs; pConn_ := c; warnings := ws |} in
  let w' := snd (bind_rows params w) in
  bound_ (this w') = bound_ rs /\
  fetch n_max w' = (Throw BindingError, w').
Proof.
  intros Hnew Hn w w'.
  destruct (usable pConn) eqn:Hok;
    [|rewrite (new_unusable addr pConn sql Hok) in Hnew; discriminate].
  pose proof (new_cases addr pConn sql Hok) as Hc. rewrite Hnew in Hc.
  destruct Hc as (_ & _ & Hnp & Hb & _).
  assert (Hthis : this w' = rs) by apply bind_rows_this.
  assert (Hunbound : bound_ rs = false).
  { rewrite Hb. apply Z.eqb_neq. lia. }
  split; [rewrite Hthis; reflexivity|].
  apply fetch_unbound. rewrite Hthis. exact Hunbound.
Qed.

Lemma C10_bind_rows_does_not_bind_witness :
  let P := Demo.libc in
  let S := Demo.backend 1 [] [] in
  let params := [[Some "a"; Some "b"]] in
  exists rs c ws,
    new 1 Demo.idle "INSERT INTO t VALUES ($1)" = (Ok rs, c, ws) /\
    nparams_ rs = 1 /\
    let w := {| this := rs; pConn_ := c; warnings := ws |} in
    fst (bind_rows params w) = Ok tt /\
    io_log (conn (pConn_ (snd (bind_rows params w))))
      = [Prepare "INSERT INTO t VALUES ($1)"; DescribePrepared;
         ExecPrepared ["a"]; ExecPrepared ["b"]] /\
    fetch 10 (snd (bind_rows params w))
      = (Throw BindingError, snd (bind_rows params w)).
Proof.
  intros P S params. do 3 eexists.
  split; [reflexivity|]. split; [reflexivity|].
  split; [reflexivity|]. split; [reflexivity|].
  exact (proj2 (@C10_bind_rows_does_not_bind P S 1 Demo.idle
                  "INSERT INTO t VALUES ($1)" _ _ _ params 10
                  eq_refl eq_refl)).
Defined.

(** ** Column types *)

(** The [default:] label is reached exactly by the Oids outside the table. *)
Lemma column_type_default (type : Z) :
  snd (column_type type) = negb (is_mapped type).
Proof.
  destruct type as [|p|p]; [reflexivity| |reflexivity].
  do 13 (try (destruct p as [p|p|]; try reflexivity)).
Qed.

Lemma unmapped_is_string (type : Z) :
  is_mapped type = false -> column_type type = (PGString, true).
Proof.
  intros Hm. pose proof (column_type_default type) as Hd. rewrite Hm in Hd.
  destruct type as [|p|p]; [reflexivity| |reflexivity].
  do 13 (try (destruct p as [p|p|]; try reflexivity; try discriminate Hd)).
Qed.

Lemma get_column_types_prefix (spec : PGresult) (n : nat) :
  (n <= length (fields spec))%nat ->
  get_column_types spec (Z.of_nat n)
  = (decoded_type <$> take n (fields spec),
     flat_map unknown_type_warning (take n (fields spec))).
Proof.
  unfold get_column_types. rewrite Nat2Z.id.
  induction n as [|n IH]; intros Hn; [reflexivity|].
  rewrite seq_S, foldl_app, IH by lia. simpl.
  destruct (lookup_lt_is_Some_2 (fields spec) n) as [[nm oid] Hf]; [lia|].
  rewrite (take_S_r _ _ _ Hf), fmap_app, flat_map_app. simpl.
  unfold PQftype, PQfname. rewrite Hf.
  unfold decoded_type, unknown_type_warning. simpl.
  pose proof (column_type_default oid) as Hd.
  destruct (column_type oid) as [ty unknown]. simpl in Hd. subst unknown.
  destruct (is_mapped oid); simpl; rewrite ?app_nil_r; reflexivity.
Qed.

Lemma get_column_types_all (spec : PGresult) :
  get_column_types spec (PQnfields spec)
  = (decoded_type <$> fields spec, flat_map unknown_type_warning (fields spec)).
Proof.
  unfold PQnfields. rewrite get_column_types_prefix by lia.
  rewrite firstn_all. reflexivity.
Qed.

(** Fetching raises no warning. *)
Lemma fetch_row_warnings `{Platform} `{Server} (w : world) :
  warnings (snd (fetch_row w)) = warnings w.
Proof.
  unfold fetch_row. destruct (PqRow.new (conn (pConn_ w))) as [[row|e| |] g];
    reflexivity.
Qed.

Lemma and_then_warnings {A B} (m : M A) (k : A -> M B) (w : world) :
  (forall w0, warnings (snd (m w0)) = warnings w0) ->
  (forall a w0, warnings (snd (k a w0)) = warnings w0) ->
  warnings (snd (and_then m k w)) = warnings w.
Proof.
  intros Hm Hk. unfold and_then. specialize (Hm w).
  destruct (m w) as [[a|e| |] w']; simpl in *; try assumption.
  rewrite Hk. assumption.
Qed.

Lemma poll_warnings `{Platform} (b : bool) (w : world) :
  warnings (snd ((if b then checkUserInterrupt else ret tt) w)) = warnings w.
Proof. destruct (poll_cases b w) as [-> | ->]; reflexivity. Qed.

Lemma next_row_warnings (w : world) : warnings (snd (next_row w)) = warnings w.
Proof. unfold next_row. destruct (pNextRow_ (this w)); reflexivity. Qed.

Lemma fetch_loop_warnings `{Platform} `{Server} (fuel : nat) :
  forall n_max out i n w,
    warnings (snd (fetch_loop fuel n_max out i n w)) = warnings w.
Proof.
  induction fuel as [|fuel IH]; intros n_max out i n w; [reflexivity|].
  cbn [fetch_loop]. apply and_then_warnings; [apply next_row_warnings|].
  intros row w0. destruct (negb (PqRow.has_data row)); [reflexivity|].
  destruct ((n <=? i) && negb (n_max <? 0)); [reflexivity|].
  apply and_then_warnings; [apply fetch_row_warnings|]. intros _ w1.
  apply and_then_warnings; [apply poll_warnings|]. intros _ w2. apply IH.
Qed.

Lemma fetch_warnings `{Platform} `{Server} (n_max : Z) (w : world) :
  warnings (snd (fetch n_max w)) = warnings w.
Proof.
  unfold fetch. destruct (negb (bound_ (this w))); [reflexivity|].
  destruct (negb (active w)); [reflexivity|].
  apply and_then_warnings.
  - intros w0. unfold fetch_row_if_needed.
    destruct (pNextRow_ (this w0)); [reflexivity | apply fetch_row_warnings].
  - intros _ w1. apply and_then_warnings; [intros; apply fetch_loop_warnings|].
    intros [[out i] n] w2. reflexivity.
Qed.

(** C8. Whatever type Oids the statement's columns have, a statement the
    backend accepts is constructed. Every column whose Oid is outside the
    table gets the type [PGString], and the warnings of the construction
    are, in column order, one warning with the Oid and the name of each such
    column and nothing else. Fetching adds no warning. *)
Theorem C8_unknown_type_is_string_with_one_warning `{Platform} `{Server}
    (addr : nat) (pConn : PqConnection) (sql : string) :
  usable pConn = true ->
  accepted sql ->
  exists rs c,
    new addr pConn sql
      = (Ok rs, c, flat_map unknown_type_warning (fields describe_reply)) /\
    types_ rs = decoded_type <$> fields describe_reply /\
    (forall i name oid,
       fields describe_reply !! i = Some (name, oid) ->
       is_mapped oid = false ->
       types_ rs !! i = Some PGString /\
       unknown_type_warning (name, oid) = [UnknownFieldType oid name]) /\
    (forall i name oid,
       fields describe_reply !! i = Some (name, oid) ->
       is_mapped oid = true -> unknown_type_warning (name, oid) = []) /\
    (forall n_max w, warnings (snd (fetch n_max w)) = warnings w).
Proof.
  intros Hok (Hp & Hd & Hs).
  pose proof (new_cases addr pConn sql Hok) as Hc.
  destruct (new addr pConn sql) as [[r c] ws]. destruct r as [rs|e| |].
  - destruct Hc as (_ & _ & _ & _ & _ & _ & _ & _ & _ & _ & _ & Hty & _).
    rewrite get_column_types_all in Hty. injection Hty as Hty Hws.
    exists rs, c. subst ws. split; [reflexivity|]. split; [exact Hty|].
    split; [|split].
    + intros i name oid Hf Hm. split.
      * rewrite Hty, list_lookup_fmap, Hf. simpl. unfold decoded_type. simpl.
        rewrite (unmapped_is_string oid Hm). reflexivity.
      * unfold unknown_type_warning. simpl. rewrite Hm. reflexivity.
    + intros i name oid _ Hm. unfold unknown_type_warning. simpl.
      rewrite Hm. reflexivity.
    + apply fetch_warnings.
  - exfalso. destruct Hc as [_ [Hf|[Hf|[Hz Hf]]]]; [congruence|congruence|].
    destruct (Hs Hz). destruct Hf; congruence.
  - contradiction.
  - contradiction.
Qed.

Lemma C8_unknown_type_is_string_with_one_warning_witness :
  let P := Demo.libc in
  let S := Demo.backend 0 [("id", 23); ("shape", 600); ("note", 25);
                           ("shape", 603)] [] in
  exists rs c,
    new 1 Demo.idle "SELECT * FROM t"
      = (Ok rs, c, [UnknownFieldType 600 "shape"; UnknownFieldType 603 "shape"]) /\
    types_ rs = [PGInt; PGString; PGString; PGString].
Proof.
  intros P S.
  destruct (@C8_unknown_type_is_string_with_one_warning P S 1 Demo.idle
              "SELECT * FROM t" eq_refl
              (conj eq_refl (conj eq_refl (fun _ => conj eq_refl eq_refl))))
    as (rs & c & Hnew & Hty & _).
  exists rs, c. split; [exact Hnew | exact Hty].
Defined.

(** ** Timestamps *)

Lemma digit_char_val (d : Z) : 0 <= d <= 9 -> char_val (digit_char d) - 48 = d.
Proof.
  intros Hd.
  assert (Hcases : d = 0 \/ d = 1 \/ d = 2 \/ d = 3 \/ d = 4 \/ d = 5 \/ d = 6
                   \/ d = 7 \/ d = 8 \/ d = 9) by lia.
  repeat (destruct Hcases as [-> | Hcases]; [reflexivity|]).
  subst d. reflexivity.
Qed.

(** What the positional reads find in a well-formed timestamp. *)
Lemma parse_wire_timestamp (Y M D h m : Z) (rest : string) :
  0 <= Y < 10000 -> 0 <= M < 100 -> 0 <= D < 100 ->
  0 <= h < 100 -> 0 <= m < 100 ->
  let val := wire_timestamp Y M D h m rest in
  PqRow.parse_ymd val = Some (Y - 1900, M - 1, D) /\
  PqRow.parse_hm val 11 = Some (h, m) /\
  advance val 17 = Some rest.
Proof.
  intros HY HM HD Hh Hm val.
  assert (Hdigit : forall v, 0 <= v < 100 ->
            char_val (digit_char (v / 10)) - 48 = v / 10 /\
            char_val (digit_char (v mod 10)) - 48 = v mod 10).
  { intros v Hv. split; apply digit_char_val;
      pose proof (Z.div_mod v 10); pose proof (Z.mod_pos_bound v 10); lia. }
  assert (HY1 : 0 <= Y / 100 < 100)
    by (pose proof (Z.div_mod Y 100); pose proof (Z.mod_pos_bound Y 100); lia).
  assert (HY2 : 0 <= Y mod 100 < 100) by (apply Z.mod_pos_bound; lia).
  destruct (Hdigit _ HY1) as [Ey3 Ey2]. destruct (Hdigit _ HY2) as [Ey1 Ey0].
  destruct (Hdigit _ HM) as [Em1 Em0]. destruct (Hdigit _ HD) as [Ed1 Ed0].
  destruct (Hdigit _ Hh) as [Eh1 Eh0]. destruct (Hdigit _ Hm) as [En1 En0].
  split; [|split].
  - unfold PqRow.parse_ymd, val, wire_timestamp, two_digits, digit_at.
    cbn [peek fmap option_fmap option_map mbind option_bind].
    rewrite Ey3, Ey2, Ey1, Ey0, Em1, Em0, Ed1, Ed0.
    f_equal. f_equal; [f_equal|].
    + pose proof (Z.div_mod Y 100). pose proof (Z.div_mod (Y / 100) 10).
      pose proof (Z.div_mod (Y mod 100) 10). lia.
    + pose proof (Z.div_mod M 10). lia.
    + pose proof (Z.div_mod D 10). lia.
  - unfold PqRow.parse_hm, val, wire_timestamp, two_digits, digit_at.
    cbn [peek fmap option_fmap option_map mbind option_bind Nat.add].
    rewrite Eh1, Eh0, En1, En0.
    f_equal. f_equal.
    + pose proof (Z.div_mod h 10). lia.
    + pose proof (Z.div_mod m 10). lia.
  - reflexivity.
Qed.

(** For seconds that are not negative, what is left after the cast to
    [int] is the fraction of a second. *)
Lemma fraction_of_second (sec : Q) :
  (0 <= sec)%Q ->
  (0 <= sec - inject_Z (trunc sec))%Q /\ (sec - inject_Z (trunc sec) < 1)%Q.
Proof.
  intros Hsec.
  assert (Ht : trunc sec = Qfloor sec).
  { destruct sec as [n d]. unfold trunc, Qfloor. simpl.
    apply Z.quot_div_nonneg; [|lia].
    unfold Qle in Hsec. simpl in Hsec. lia. }
  rewrite Ht. pose proof (Qfloor_le sec) as Hlo.
  pose proof (Qlt_floor sec) as Hhi. rewrite inject_Z_plus in Hhi.
  change (inject_Z 1) with 1%Q in Hhi.
  split; lra.
Qed.

(** C7. A column declared timestamp-with-zone (Oid 1184) has the type
    [PGDatetimeTZ] and one declared timestamp-without-zone (Oid 1114) the
    type [PGDatetime]. For a value [YYYY-MM-DD HH:MM:] followed by the
    seconds text, the first decodes to [timegm] of the fields read (the
    fields taken as UTC) and the second to [mktime] of the same fields (the
    fields taken in the local calendar), each plus what the seconds have
    beyond whole seconds, which for seconds that are not negative is their
    fraction. *)
Theorem C7_timestamp_epoch_rule `{Platform} (row : PqRow.t) (j : nat)
    (name : string) (Y M D h m : Z) (rest : string) :
  0 <= Y < 10000 -> 0 <= M < 100 -> 0 <= D < 100 ->
  0 <= h < 100 -> 0 <= m < 100 ->
  tuple (PqRow.pRes_ row) !! j = Some (Some (wire_timestamp Y M D h m rest)) ->
  let sec := strtod rest in
  let date := calendar Y M D h m sec in
  let fraction := (sec - inject_Z (trunc sec))%Q in
  PqRow.list_value row j (fst (column_type 1184))
    = REAL (Dbl (inject_Z (timegm date) + fraction)) /\
  PqRow.list_value row j (fst (column_type 1114))
    = REAL (Dbl (inject_Z (mktime date) + fraction)) /\
  ((0 <= sec)%Q -> (0 <= fraction)%Q /\ (fraction < 1)%Q).
Proof.
  intros HY HM HD Hh Hm Hcell sec date fraction.
  destruct (parse_wire_timestamp Y M D h m rest HY HM HD Hh Hm)
    as (Hymd & Hhm & Hrest).
  assert (Hnull : PqRow.is_null row j = false).
  { unfold PqRow.is_null, PQgetisnull. rewrite Hcell. reflexivity. }
  assert (Hval : PQgetvalue (PqRow.pRes_ row) j = wire_timestamp Y M D h m rest).
  { unfold PQgetvalue. rewrite Hcell. reflexivity. }
  split; [|split].
  - simpl. unfold PqRow.get_datetime.
    rewrite Hnull, Hval, Hymd, Hhm, Hrest. reflexivity.
  - simpl. unfold PqRow.get_datetime.
    rewrite Hnull, Hval, Hymd, Hhm, Hrest. reflexivity.
  - apply fraction_of_second.
Qed.

Lemma C7_timestamp_epoch_rule_witness :
  let P := Demo.libc in
  let row := {| PqRow.pRes_ :=
                  Demo.unit_of PGRES_SINGLE_TUPLE
                    [Some "2024-03-15 10:30:00.25+00"] |} in
  wire_timestamp 2024 3 15 10 30 "00.25+00" = "2024-03-15 10:30:00.25+00" /\
  PqRow.list_value row 0 PGDatetimeTZ
    = REAL (Dbl (inject_Z 1710498600 + ((1 # 4) - inject_Z 0))) /\
  PqRow.list_value row 0 PGDatetime
    = REAL (Dbl (inject_Z 1710495000 + ((1 # 4) - inject_Z 0))).
Proof.
  intros P row. split; [reflexivity|].
  destruct (@C7_timestamp_epoch_rule P row 0 "ts" 2024 3 15 10 30 "00.25+00"
              ltac:(lia) ltac:(lia) ltac:(lia) ltac:(lia) ltac:(lia) eq_refl)
    as (Hutc & Hlocal & _).
  split; [exact Hutc | exact Hlocal].
Defined.

(** ** The fetch loop *)

Section Buffers.
Context `{Platform}.

Lemma filled_create (types : list PGTypes) (names : list string) (n : Z) :
  df_cols (df_create types names n) = filled types [] (Z.to_nat n).
Proof.
  unfold df_create, filled, decoded_column. simpl.
  apply list_eq. intros j. rewrite list_lookup_fmap, list_lookup_imap.
  destruct (types !! j); simpl; [|reflexivity].
  rewrite resize_nil. reflexivity.
Qed.

Lemma resize_again {A} (x : A) (l : list A) (n m : nat) :
  (length l <= n)%nat -> (length l <= m)%nat ->
  resize m x (resize n x l) = resize m x l.
Proof.
  intros Hn Hm. rewrite (resize_ge l n) by lia.
  rewrite resize_app_ge by lia. rewrite resize_replicate.
  rewrite (resize_ge l m) by lia. reflexivity.
Qed.

Lemma length_decoded_column (rows : list PGresult) (j : nat) (ty : PGTypes) :
  length (decoded_column rows j ty) = length rows.
Proof. unfold decoded_column. apply length_fmap. Qed.

Lemma filled_resize (types : list PGTypes) (rows : list PGresult)
    (names : list string) (n : nat) (m : Z) :
  (length rows <= n)%nat -> (length rows <= Z.to_nat m)%nat ->
  df_cols (df_resize {| df_names := names; df_cols := filled types rows n |} m)
  = filled types rows (Z.to_nat m).
Proof.
  intros Hn Hm. unfold df_resize, filled. simpl.
  apply list_eq. intros j. rewrite list_lookup_fmap, !list_lookup_imap.
  destruct (types !! j) as [ty|]; simpl; [|reflexivity].
  rewrite resize_again by (rewrite length_decoded_column; lia). reflexivity.
Qed.

Lemma foldl_alter_seq {A} (g : nat -> A -> A) (l : list A) (k : nat) :
  foldl (fun acc j => alter (g j) j acc) l (seq 0 k)
  = imap (fun j a => if (j <? k)%nat then g j a else a) l.
Proof.
  induction k as [|k IH].
  - simpl. apply list_eq. intros j. rewrite list_lookup_imap.
    destruct (l !! j); reflexivity.
  - rewrite seq_S, foldl_app, IH. simpl.
    apply list_eq. intros j. rewrite list_lookup_alter, !list_lookup_imap.
    destruct (decide (k = j)) as [->|Hne]; destruct (l !! j) as [a|]; simpl;
      try reflexivity.
    + rewrite Nat.ltb_irrefl.
      replace (j <? S j)%nat with true by (symmetry; apply Nat.ltb_lt; lia).
      reflexivity.
    + destruct (Nat.ltb_spec j k), (Nat.ltb_spec j (S k)); try reflexivity; lia.
Qed.

Lemma resize_store {A} (x v : A) (l : list A) (n : nat) :
  (length l < n)%nat ->
  <[length l := v]> (resize n x l) = resize n x (l ++ [v]).
Proof.
  intros Hn. rewrite (resize_ge l n) by lia.
  rewrite (resize_ge (l ++ [v]) n) by (rewrite length_app; simpl; lia).
  rewrite length_app. simpl.
  replace (length l) with (length l + 0)%nat at 1 by lia.
  rewrite insert_app_r.
  destruct (n - length l)%nat as [|d] eqn:Hd; [lia|].
  replace (n - (length l + 1))%nat with d by lia.
  simpl. rewrite <- app_assoc. reflexivity.
Qed.

Lemma filled_store (types : list PGTypes) (rows : list PGresult)
    (names : list string) (n : nat) (r : PGresult) (i : Z) :
  i = Z.of_nat (length rows) -> (length rows < n)%nat ->
  df_cols (store_row {| PqRow.pRes_ := r |} types (Z.of_nat (length types)) i
             {| df_names := names; df_cols := filled types rows n |})
  = filled types (rows ++ [r]) n.
Proof.
  intros -> Hn. unfold store_row. simpl. rewrite !Nat2Z.id.
  rewrite foldl_alter_seq. unfold filled.
  apply list_eq. intros j. rewrite !list_lookup_imap.
  destruct (types !! j) as [ty|] eqn:Hj; simpl; [|reflexivity].
  apply lookup_lt_Some in Hj as Hlt.
  replace (j <? length types)%nat with true by (symmetry; apply Nat.ltb_lt; lia).
  unfold PqRow.set_list_value. rewrite Hj. unfold bare. simpl. f_equal. f_equal.
  rewrite <- (length_decoded_column rows j ty) at 1.
  rewrite resize_store by (rewrite length_decoded_column; lia).
  unfold decoded_column. rewrite fmap_app. reflexivity.
Qed.

Lemma filled_exact (types : list PGTypes) (rows : list PGresult) :
  filled types rows (length rows)
  = imap (fun j ty => bare (decoded_column rows j ty)) types.
Proof.
  unfold filled. apply imap_ext. intros j ty _.
  rewrite resize_all_alt by (symmetry; apply length_decoded_column).
  reflexivity.
Qed.

End Buffers.

Section Loop.
Context `{Platform} `{Server}.

Lemma new_pull (c : PGconn) (u : PGresult) (q : list PGresult) :
  pending c = u :: q ->
  resultStatus u <> PGRES_FATAL_ERROR ->
  exists g,
    PqRow.new c = (Ok {| PqRow.pRes_ := u |}, g) /\
    pending g = if bool_decide (resultStatus u = PGRES_TUPLES_OK) then [] else q.
Proof.
  intros Hq Hst. unfold PqRow.new, PQgetResult at 1. rewrite Hq.
  simpl PQresultStatus. case_bool_decide as Hdone.
  - rewrite (drain_pulls_everything q); [| reflexivity | simpl; lia].
    rewrite bool_decide_eq_false_2 by assumption. eexists. split; reflexivity.
  - rewrite bool_decide_eq_false_2 by assumption. eexists. split; reflexivity.
Qed.

Lemma fetch_row_pull (w : world) (u : PGresult) (q : list PGresult) :
  pending (conn (pConn_ w)) = u :: q ->
  resultStatus u <> PGRES_FATAL_ERROR ->
  exists g,
    fetch_row w = (Ok tt, set_this (set_next_row {| PqRow.pRes_ := u |})
                            (set_pConn (with_conn g) w)) /\
    pending g = if bool_decide (resultStatus u = PGRES_TUPLES_OK) then [] else q.
Proof.
  intros Hq Hst. destruct (new_pull _ u q Hq Hst) as (g & Hnew & Hg).
  exists g. unfold fetch_row. rewrite Hnew. split; [reflexivity | exact Hg].
Qed.

(** A pull keeps the stream, up to what follows the final unit. *)
Lemma fetch_row_stream (w : world) (taken : list PGresult) (next : PGresult)
    (after : list PGresult) :
  pending (conn (pConn_ w)) = taken ++ next :: after ->
  Forall (fun r => resultStatus r = PGRES_SINGLE_TUPLE) taken ->
  resultStatus next <> PGRES_FATAL_ERROR ->
  exists w1 after1,
    fetch_row w = (Ok tt, w1) /\
    lookahead_stream w1 = taken ++ next :: after1 /\
    pNextRow_ (this w1) <> None /\
    types_ (this w1) = types_ (this w) /\
    ncols_ (this w1) = ncols_ (this w) /\
    names_ (this w1) = names_ (this w) /\
    bound_ (this w1) = bound_ (this w) /\
    nrows_ (this w1) = nrows_ (this w) + 1 /\
    active w1 = active w.
Proof.
  intros Hq Hrows Hnext.
  destruct taken as [|t ts].
  - simpl in Hq. destruct (fetch_row_pull w next after Hq Hnext) as (g & Hf & Hg).
    eexists. exists (pending g). split; [exact Hf|].
    unfold lookahead_stream. simpl. repeat split; auto; try discriminate.
  - simpl in Hq. apply Forall_cons in Hrows as [Ht Hts].
    destruct (fetch_row_pull w t (ts ++ next :: after) Hq) as (g & Hf & Hg);
      [rewrite Ht; discriminate|].
    rewrite bool_decide_eq_false_2 in Hg by (rewrite Ht; discriminate).
    eexists. exists after. split; [exact Hf|].
    unfold lookahead_stream. simpl. rewrite Hg. repeat split; auto; try discriminate.
Qed.

Lemma filled_store_in (types : list PGTypes) (rows : list PGresult)
    (out : data_frame) (n : nat) (r : PGresult) (i : Z) :
  df_cols out = filled types rows n ->
  i = Z.of_nat (length rows) -> (length rows < n)%nat ->
  df_cols (store_row {| PqRow.pRes_ := r |} types (Z.of_nat (length types)) i out)
  = filled types (rows ++ [r]) n.
Proof.
  intros Hout Hi Hn. destruct out as [names cols]. simpl in Hout. subst cols.
  apply filled_store; assumption.
Qed.

Lemma filled_resize_in (types : list PGTypes) (rows : list PGresult)
    (out : data_frame) (n : nat) (m : Z) :
  df_cols out = filled types rows n ->
  (length rows <= n)%nat -> (length rows <= Z.to_nat m)%nat ->
  df_cols (df_resize out m) = filled types rows (Z.to_nat m).
Proof.
  intros Hout Hn Hm. destruct out as [names cols]. simpl in Hout. subst cols.
  apply filled_resize; assumption.
Qed.

Lemma poll_quiet (b : bool) (w : world) :
  interrupt_pending = false ->
  (if b then checkUserInterrupt else ret tt) w = (Ok tt, w).
Proof.
  intros Hq. unfold checkUserInterrupt. rewrite Hq. destruct b; reflexivity.
Qed.

Lemma lookahead_head (w : world) (u : PGresult) (q : list PGresult) :
  pNextRow_ (this w) <> None ->
  lookahead_stream w = u :: q ->
  pNextRow_ (this w) = Some {| PqRow.pRes_ := u |} /\
  pending (conn (pConn_ w)) = q.
Proof.
  unfold lookahead_stream. destruct (pNextRow_ (this w)) as [[r]|]; [|congruence].
  simpl. intros _ Heq. injection Heq as -> ->. auto.
Qed.

(** The loop of [fetch] on a stream that starts with the units [taken],
    all rows, and goes on with [next], at which the loop stops: because
    [next] is not a row or because the caller's limit is reached. *)
Lemma fetch_loop_run (n_max : Z) (types : list PGTypes) :
  interrupt_pending = false ->
  forall (taken done : list PGresult) (fuel : nat) (out : data_frame)
         (i n : Z) (w : world) (next : PGresult) (after : list PGresult),
    types_ (this w) = types ->
    ncols_ (this w) = Z.of_nat (length types) ->
    pNextRow_ (this w) <> None ->
    lookahead_stream w = taken ++ next :: after ->
    Forall (fun r => resultStatus r = PGRES_SINGLE_TUPLE) taken ->
    resultStatus next <> PGRES_FATAL_ERROR ->
    (resultStatus next <> PGRES_SINGLE_TUPLE \/
     0 <= n_max /\ n <= i + Z.of_nat (length taken)) ->
    (n_max < 0 /\ 0 < n \/ i + Z.of_nat (length taken) <= n) ->
    i = Z.of_nat (length done) ->
    i <= n ->
    df_cols out = filled types done (Z.to_nat n) ->
    (length taken < fuel)%nat ->
    exists out',
      fetch_loop fuel n_max out i n w
      = (Ok (out', i + Z.of_nat (length taken), capacity n i (length taken)),
         pull_rows (length taken) w) /\
      df_cols out'
      = filled types (done ++ taken) (Z.to_nat (capacity n i (length taken))) /\
      df_names out' = df_names out.
Proof.
  intros Hquiet. induction taken as [|r taken IH];
    intros done fuel out i n w next after Hty Hnc Hla Hs Hrows Hnext Hstop
      Hroom Hi Hin Hout Hfuel;
    (destruct fuel as [|fuel]; [simpl in Hfuel; lia|]);
    cbn [fetch_loop].
  - simpl in Hs, Hstop, Hroom.
    destruct (lookahead_head w next after Hla Hs) as [Hrow _].
    exists out. rewrite app_nil_r. simpl. rewrite Z.add_0_r.
    split; [|auto].
    unfold and_then, next_row. rewrite Hrow. unfold ret at 1.
    unfold PqRow.has_data, PqRow.status. simpl.
    destruct Hstop as [Hst | [Hmax Hfull]].
    + rewrite bool_decide_eq_false_2 by assumption. reflexivity.
    + case_bool_decide; simpl; [|reflexivity].
      replace (n <=? i) with true by (symmetry; apply Z.leb_le; lia).
      replace (n_max <? 0) with false by (symmetry; apply Z.ltb_ge; lia).
      reflexivity.
  - simpl in Hs. destruct (lookahead_head w r _ Hla Hs) as [Hrow Hq].
    apply Forall_cons in Hrows as [Hr Hrows].
    simpl length in *.
    unfold and_then at 1, next_row. rewrite Hrow. unfold ret at 1.
    unfold PqRow.has_data, PqRow.status. simpl PQresultStatus.
    rewrite bool_decide_eq_true_2 by assumption. simpl negb.
    assert (Hgo : (n <=? i) && negb (n_max <? 0) = false).
    { destruct Hroom as [[Hneg _] | Hfit].
      - replace (n_max <? 0) with true by (symmetry; apply Z.ltb_lt; lia).
        apply andb_false_r.
      - replace (n <=? i) with false by (symmetry; apply Z.leb_gt; lia).
        reflexivity. }
    rewrite Hgo. cbv zeta.
    set (n' := if n <=? i then n * 2 else n).
    assert (Hn' : i < n' /\ ((n <=? i) = false -> n' = n)
                  /\ ((n <=? i) = true -> n' = n * 2 /\ n_max < 0)).
    { subst n'. destruct (Z.leb_spec n i).
      - split; [|split; [discriminate|intros _; split; [reflexivity|]]]; lia.
      - split; [|split; [reflexivity|discriminate]]; lia. }
    destruct Hn' as (Hin' & Hsame & Hdouble).
    set (out1 := if n <=? i then df_resize out n' else out).
    assert (Hout1 : df_cols out1 = filled types done (Z.to_nat n')
                    /\ df_names out1 = df_names out).
    { subst out1. destruct (n <=? i) eqn:Hle.
      - split; [|reflexivity]. apply (filled_resize_in _ _ _ (Z.to_nat n)); [exact Hout| |]; lia.
      - rewrite (Hsame eq_refl). auto. }
    destruct Hout1 as [Hout1 Hnames1].
    change (negb true) with false. cbv beta iota.
    rewrite Hty, Hnc.
    set (out2 := store_row _ types _ i out1).
    assert (Hout2 : df_cols out2 = filled types (done ++ [r]) (Z.to_nat n')).
    { subst out2. apply filled_store_in; [exact Hout1 | exact Hi | lia]. }
    destruct (fetch_row_stream w taken next after Hq Hrows Hnext)
      as (w1 & after1 & Hf & Hs1 & Hla1 & Hty1 & Hnc1 & _).
    rewrite (and_then_ok _ _ _ _ _ Hf).
    rewrite (and_then_ok _ _ _ _ _ (poll_quiet _ w1 Hquiet)).
    assert (Hlen : i + 1 = Z.of_nat (length (done ++ [r])))
      by (rewrite length_app; simpl; lia).
    destruct (IH (done ++ [r]) fuel out2 (i + 1) n' w1 next after1) as (out' & Hloop & Hcols & Hnm);
      try assumption; try congruence; try lia.
    { destruct Hstop as [Hst | [Hmax Hfull]]; [left; exact Hst|].
      right. split; [exact Hmax|]. rewrite Hsame; [lia|]. apply Z.leb_gt.
      destruct Hroom as [[Hneg _] | Hfit]; lia. }
    exists out'. simpl capacity. simpl pull_rows. rewrite Hf. simpl snd.
    fold n'. rewrite Hloop, Hcols, Hnm, <- app_assoc. simpl.
    split; [|split; [reflexivity|]].
    + replace (i + Z.of_nat (S (length taken)))
        with (i + 1 + Z.of_nat (length taken)) by lia.
      reflexivity.
    + subst out2. simpl. exact Hnames1.
Qed.

End Loop.

(** ** Capacity *)

Lemma capacity_fixed (k : nat) :
  forall n i, i + Z.of_nat k <= n -> capacity n i k = n.
Proof.
  induction k as [|k IH]; intros n i Hfit; simpl; [reflexivity|].
  replace (n <=? i) with false by (symmetry; apply Z.leb_gt; lia).
  apply IH. lia.
Qed.

(** From a positive capacity that is not exceeded yet, the capacity after
    [k] more rows holds them all and is the start doubled [p] times; when it
    was doubled at all, half of it would not have held the rows. *)
Lemma capacity_doubling (k : nat) :
  forall n i,
    0 < n -> 0 <= i <= n ->
    i + Z.of_nat k <= capacity n i k /\
    exists p, 0 <= p /\ capacity n i k = n * 2 ^ p /\
              (0 < p -> capacity n i k < 2 * (i + Z.of_nat k)).
Proof.
  induction k as [|k IH]; intros n i Hn Hi.
  - simpl. split; [lia|]. exists 0. rewrite Z.pow_0_r. lia.
  - cbn [capacity]. destruct (Z.leb_spec n i) as [Hfull|Hfree].
    + destruct (IH (n * 2) (i + 1)) as (Hfit & p & Hp & Hcap & Hmin); [lia|lia|].
      split; [lia|]. exists (p + 1). split; [lia|].
      rewrite Z.pow_add_r, Z.pow_1_r by lia. split; [lia|].
      intros _. destruct (Z.eq_dec p 0) as [->|Hne].
      * rewrite Hcap, Z.pow_0_r. lia.
      * lia.
    + destruct (IH n (i + 1)) as (Hfit & p & Hp & Hcap & Hmin); [lia|lia|].
      split; [lia|]. exists p. split; [lia|]. split; [exact Hcap|].
      intros Hpos. specialize (Hmin Hpos). lia.
Qed.

(** ** Streams *)

Section Streams.
Context `{Platform} `{Server}.

Lemma pull_rows_stream (taken : list PGresult) :
  forall (rest : list PGresult) (fin : PGresult) (after : list PGresult)
         (w : world),
    pNextRow_ (this w) <> None ->
    lookahead_stream w = taken ++ rest ++ fin :: after ->
    Forall is_row (taken ++ rest) ->
    resultStatus fin <> PGRES_FATAL_ERROR ->
    let w' := pull_rows (length taken) w in
    (exists after', lookahead_stream w' = rest ++ fin :: after') /\
    pNextRow_ (this w') <> None /\
    types_ (this w') = types_ (this w) /\
    ncols_ (this w') = ncols_ (this w) /\
    names_ (this w') = names_ (this w) /\
    bound_ (this w') = bound_ (this w) /\
    nrows_ (this w') = nrows_ (this w) + Z.of_nat (length taken) /\
    active w' = active w.
Proof.
  induction taken as [|t ts IH]; intros rest fin after w Hla Hs Hrows Hfin.
  - simpl. repeat split; eauto; lia.
  - simpl in Hs. destruct (lookahead_head w t _ Hla Hs) as [_ Hq].
    simpl in Hrows. apply Forall_cons in Hrows as [_ Hrows].
    rewrite app_assoc in Hq.
    destruct (fetch_row_stream w (ts ++ rest) fin after Hq Hrows Hfin)
      as (w1 & after1 & Hf & Hs1 & Hla1 & Hty & Hnc & Hnm & Hb & Hn & Hact).
    rewrite <- app_assoc in Hs1.
    destruct (IH rest fin after1 w1 Hla1 Hs1 Hrows Hfin)
      as (Hs' & Hla' & Hty' & Hnc' & Hnm' & Hb' & Hn' & Hact').
    cbn [pull_rows length]. rewrite Hf. simpl snd.
    repeat split; try congruence; try exact Hs'. lia.
Qed.

Lemma fetch_row_if_needed_stream (w : world) (rows : list PGresult)
    (fin : PGresult) (after : list PGresult) :
  lookahead_stream w = rows ++ fin :: after ->
  Forall is_row rows ->
  resultStatus fin <> PGRES_FATAL_ERROR ->
  exists w1 after1,
    fetch_row_if_needed w = (Ok tt, w1) /\
    lookahead_stream w1 = rows ++ fin :: after1 /\
    pNextRow_ (this w1) <> None /\
    types_ (this w1) = types_ (this w) /\
    ncols_ (this w1) = ncols_ (this w) /\
    names_ (this w1) = names_ (this w) /\
    bound_ (this w1) = bound_ (this w) /\
    n_rows_fetched w1 = n_rows_fetched w /\
    active w1 = active w.
Proof.
  intros Hs Hrows Hfin. unfold fetch_row_if_needed.
  destruct (pNextRow_ (this w)) as [row|] eqn:Hrow.
  - exists w, after. unfold ret. repeat split; auto. congruence.
  - unfold lookahead_stream in Hs. rewrite Hrow in Hs.
    destruct (fetch_row_stream w rows fin after Hs Hrows Hfin)
      as (w1 & after1 & Hf & Hs1 & Hla1 & Hty & Hnc & Hnm & Hb & Hn & Hact).
    exists w1, after1. repeat split; auto.
    unfold n_rows_fetched. rewrite Hrow, Hn.
    destruct (pNextRow_ (this w1)); [lia|congruence].
Qed.

End Streams.

(** ** What fetch returns *)

Section Fetch.
Context `{Platform} `{Server}.

Lemma tag_exact (types : list PGTypes) (rows : list PGresult) :
  imap (fun i c => match types !! i with
                   | Some ty => tag_column ty c
                   | None => c
                   end)
       (imap (fun j ty => bare (decoded_column rows j ty)) types)
  = fetched_columns types rows.
Proof.
  unfold fetched_columns. apply list_eq. intros j. rewrite !list_lookup_imap.
  destruct (types !! j) as [ty|] eqn:Hj; [|reflexivity].
  cbn [fmap option_fmap option_map]. reflexivity.
Qed.

Lemma rows_taken_le (n_max : Z) (len : nat) : (rows_taken n_max len <= len)%nat.
Proof. unfold rows_taken. destruct (n_max <? 0); lia. Qed.

(** The capacity [fetch] ends with holds the rows it took. *)
Lemma capacity_holds (n_max : Z) (len : nat) :
  let n0 := if n_max <? 0 then 100 else n_max in
  Z.of_nat (rows_taken n_max len) <= capacity n0 0 (rows_taken n_max len).
Proof.
  unfold rows_taken. destruct (Z.ltb_spec n_max 0) as [Hneg|Hpos]; cbv zeta.
  - destruct (capacity_doubling len 100 0) as [Hfit _]; lia.
  - rewrite capacity_fixed; lia.
Qed.

(** The unit at which a fetch of [k] rows stops. *)
Lemma stream_split (rows : list PGresult) (fin : PGresult)
    (after : list PGresult) (k : nat) :
  Forall is_row rows ->
  exists next after2,
    rows ++ fin :: after = take k rows ++ next :: after2 /\
    drop k rows ++ fin :: after = next :: after2 /\
    (next = fin /\ (length rows <= k)%nat \/ is_row next /\ (k < length rows)%nat).
Proof.
  intros Hrows.
  assert (Hcut : forall tl, rows ++ tl = take k rows ++ drop k rows ++ tl).
  { intros tl. rewrite app_assoc, take_drop. reflexivity. }
  destruct (drop k rows) as [|x xs] eqn:Hdrop.
  - exists fin, after. split; [apply Hcut|]. split; [reflexivity|]. left.
    split; [reflexivity|]. apply (f_equal length) in Hdrop.
    rewrite length_drop in Hdrop. simpl in Hdrop. lia.
  - exists x, (xs ++ fin :: after). split; [apply Hcut|]. split; [reflexivity|].
    right. split.
    + apply (Forall_drop _ k) in Hrows. rewrite Hdrop in Hrows.
      apply Forall_cons in Hrows as [Hx _]. exact Hx.
    + apply (f_equal length) in Hdrop. rewrite length_drop in Hdrop.
      simpl in Hdrop. lia.
Qed.

(** [fetch] on a streaming result, when no interrupt is pending: the loop
    takes [rows_taken] rows and ends with the capacity [capacity] gives; the
    call returns those rows, decoded, in columns of exactly that length, and
    leaves a streaming result for the rows that remain. *)
Lemma fetch_run (n_max : Z) (w : world) (rows : list PGresult) (fin : PGresult) :
  interrupt_pending = false ->
  streaming w rows fin ->
  let k := rows_taken n_max (length rows) in
  let n0 := if n_max <? 0 then 100 else n_max in
  let types := types_ (this w) in
  exists w1 buf w',
    fetch_row_if_needed w = (Ok tt, w1) /\
    fetch_loop (S (length (pending (conn (pConn_ w1))))) n_max
      (df_create types (names_ (this w)) n0) 0 n0 w1
    = (Ok (buf, Z.of_nat k, capacity n0 0 k), w') /\
    df_cols buf = filled types (take k rows) (Z.to_nat (capacity n0 0 k)) /\
    fetch n_max w
    = (Ok {| df_names := names_ (this w);
             df_cols := fetched_columns types (take k rows) |}, w') /\
    streaming w' (drop k rows) fin /\
    n_rows_fetched w' = n_rows_fetched w + Z.of_nat k /\
    types_ (this w') = types /\
    names_ (this w') = names_ (this w) /\
    pNextRow_ (this w') <> None.
Proof.
  intros Hquiet (Hb & Hact & Hnc & Hrows & Hfin & after & Hs) k n0 types.
  assert (Hfin' : resultStatus fin <> PGRES_FATAL_ERROR) by apply Hfin.
  destruct (fetch_row_if_needed_stream w rows fin after Hs Hrows Hfin')
    as (w1 & after1 & Hf1 & Hs1 & Hla1 & Hty1 & Hnc1 & Hnm1 & Hb1 & Hn1 & Hact1).
  pose proof (rows_taken_le n_max (length rows)) as Hk. fold k in Hk.
  assert (Hlen : length (take k rows) = k) by (rewrite length_take; lia).
  destruct (stream_split rows fin after1 k Hrows)
    as (next & after2 & Hsplit & Hrest & Hnext).
  assert (Hnext' : resultStatus next <> PGRES_FATAL_ERROR).
  { destruct Hnext as [[-> _] | [Hr _]]; [exact Hfin'|]. rewrite Hr. discriminate. }
  pose proof (capacity_holds n_max (length rows)) as Hcap.
  cbv zeta in Hcap. fold k n0 in Hcap.
  assert (Hn0 : 0 <= n0 /\ (n_max < 0 -> n0 = 100) /\ (0 <= n_max -> n0 = n_max)).
  { subst n0. destruct (Z.ltb_spec n_max 0); lia. }
  assert (Hkz : k = rows_taken n_max (length rows)) by reflexivity.
  unfold rows_taken in Hkz.
  destruct (fetch_loop_run n_max types Hquiet (take k rows) []
              (S (length (pending (conn (pConn_ w1)))))
              (df_create types (names_ (this w)) n0) 0 n0 w1 next after2)
    as (buf & Hloop & Hbuf & Hnames); try assumption.
  { rewrite Hnc1. exact Hnc. }
  { rewrite Hs1. exact Hsplit. }
  { apply Forall_take. exact Hrows. }
  { rewrite Hlen. destruct Hnext as [[-> _] | [_ Hlt]].
    - left. apply Hfin.
    - right. destruct (Z.ltb_spec n_max 0); lia. }
  { rewrite Hlen. destruct (Z.ltb_spec n_max 0); [left|right]; lia. }
  { reflexivity. }
  { lia. }
  { apply filled_create. }
  { rewrite Hsplit in Hs1. unfold lookahead_stream in Hs1.
    destruct (pNextRow_ (this w1)) as [row|]; [|congruence].
    destruct (take k rows) as [|t ts]; simpl in *.
    - lia.
    - injection Hs1 as _ ->. rewrite length_app. simpl. lia. }
  rewrite Hlen, Z.add_0_l in Hloop. rewrite Hlen in Hbuf. simpl app in Hbuf.
  assert (Hs1' : lookahead_stream w1 = take k rows ++ drop k rows ++ fin :: after1).
  { rewrite Hs1, app_assoc, take_drop. reflexivity. }
  destruct (pull_rows_stream (take k rows) (drop k rows) fin after1 w1 Hla1 Hs1')
    as (Hs' & Hla' & Hty' & Hnc' & Hnm' & Hb' & Hn' & Hact');
    [rewrite take_drop; exact Hrows | exact Hfin' |].
  rewrite Hlen in *.
  exists w1, buf, (pull_rows k w1).
  split; [exact Hf1|]. split; [exact Hloop|]. split; [exact Hbuf|].
  split; [|split; [|split; [|split; [|split]]]].
  - unfold fetch. rewrite Hb, Hact. simpl negb. cbv iota zeta.
    rewrite (and_then_ok _ _ _ _ _ Hf1). cbv beta.
    fold n0 types.
    rewrite (and_then_ok _ _ _ _ _ Hloop). cbv beta iota. unfold ret.
    f_equal. f_equal. unfold tag_columns.
    rewrite Hty', Hty1. fold types.
    assert (Hout : df_cols (if Z.of_nat k <? capacity n0 0 k
                            then df_resize buf (Z.of_nat k) else buf)
                   = imap (fun j ty => bare (decoded_column (take k rows) j ty)) types
                   /\ df_names (if Z.of_nat k <? capacity n0 0 k
                                then df_resize buf (Z.of_nat k) else buf)
                      = names_ (this w)).
    { destruct (Z.ltb_spec (Z.of_nat k) (capacity n0 0 k)) as [Hlt|Hge].
      - split; [|simpl; rewrite Hnames; reflexivity].
        rewrite (filled_resize_in _ _ _ _ _ Hbuf) by lia.
        rewrite Nat2Z.id. rewrite <- Hlen at 2. apply filled_exact.
      - split; [|rewrite Hnames; reflexivity].
        rewrite Hbuf. replace (Z.to_nat (capacity n0 0 k)) with (length (take k rows)) by lia.
        apply filled_exact. }
    destruct Hout as [-> ->]. rewrite tag_exact. reflexivity.
  - destruct Hs' as [after' Hs']. unfold streaming.
    split; [congruence|]. split; [congruence|]. split; [congruence|].
    split; [apply Forall_drop; exact Hrows|]. split; [exact Hfin|].
    exists after'. exact Hs'.
  - unfold n_rows_fetched in *.
    destruct (pNextRow_ (this (pull_rows k w1))); [|congruence].
    destruct (pNextRow_ (this w1)); [|congruence]. lia.
  - unfold types. congruence.
  - congruence.
  - exact Hla'.
Qed.

Lemma rows_taken_all (n_max : Z) (len : nat) :
  n_max < 0 -> rows_taken n_max len = len.
Proof.
  intros Hneg. unfold rows_taken.
  replace (n_max <? 0) with true by (symmetry; apply Z.ltb_lt; lia). reflexivity.
Qed.

Lemma rows_taken_some (n_max : Z) (len : nat) :
  0 <= n_max -> rows_taken n_max len = Nat.min (Z.to_nat n_max) len.
Proof.
  intros Hpos. unfold rows_taken.
  replace (n_max <? 0) with false by (symmetry; apply Z.ltb_ge; lia). reflexivity.
Qed.

Lemma fetched_columns_length (types : list PGTypes) (rows : list PGresult) :
  Forall (fun c => length (col_data c) = length rows) (fetched_columns types rows).
Proof.
  apply Forall_forall. intros c Hc. apply list_elem_of_lookup in Hc as [j Hj].
  unfold fetched_columns in Hj. rewrite list_lookup_imap in Hj.
  destruct (types !! j) as [ty|]; [|discriminate]. injection Hj as <-.
  destruct ty; simpl; apply length_decoded_column.
Qed.

Lemma filled_length (types : list PGTypes) (rows : list PGresult) (n : nat) :
  Forall (fun c => length (col_data c) = n) (filled types rows n).
Proof.
  apply Forall_forall. intros c Hc. apply list_elem_of_lookup in Hc as [j Hj].
  unfold filled in Hj. rewrite list_lookup_imap in Hj.
  destruct (types !! j) as [ty|]; [|discriminate]. injection Hj as <-.
  simpl. apply length_resize.
Qed.

(** The lookahead of a stream that is at its final unit reports that no
    row is left. *)
Lemma is_complete_at_end (w : world) (fin : PGresult) :
  pNextRow_ (this w) <> None ->
  streaming w [] fin ->
  is_complete w = (Ok true, w).
Proof.
  intros Hla (_ & _ & _ & _ & Hfin & after & Hs). simpl in Hs.
  destruct (lookahead_head w fin after Hla Hs) as [Hrow _].
  unfold is_complete, and_then, fetch_row_if_needed, next_row, ret.
  rewrite Hrow. cbv beta iota zeta. rewrite Hrow. cbv beta iota zeta.
  unfold PqRow.has_data, PqRow.status. simpl PQresultStatus.
  rewrite bool_decide_eq_false_2 by apply Hfin. reflexivity.
Qed.

(** A pull, whatever comes of it, leaves the binding and the registration
    as they are. *)
Lemma fetch_row_frame (w : world) :
  bound_ (this (snd (fetch_row w))) = bound_ (this w) /\
  active (snd (fetch_row w)) = active w.
Proof.
  unfold fetch_row. destruct (PqRow.new (conn (pConn_ w))) as [[row|e| |] g];
    split; reflexivity.
Qed.

Lemma tag_columns_empty (types : list PGTypes) (out : data_frame) :
  Forall (fun c => col_data c = []) (df_cols out) ->
  Forall (fun c => col_data c = []) (df_cols (tag_columns types out)).
Proof.
  intros Hall. apply Forall_forall. intros c Hc.
  apply list_elem_of_lookup in Hc as [j Hj]. unfold tag_columns in Hj.
  simpl in Hj. rewrite list_lookup_imap in Hj.
  destruct (df_cols out !! j) as [c0|] eqn:Hc0; [|discriminate].
  assert (Hc0' : col_data c0 = []).
  { eapply (proj1 (Forall_forall _ _) Hall), list_elem_of_lookup. eauto. }
  simpl in Hj. injection Hj as <-.
  destruct (types !! j) as [[]|]; simpl; exact Hc0'.
Qed.

Lemma df_resize_zero (out : data_frame) :
  Forall (fun c => col_data c = []) (df_cols (df_resize out 0)).
Proof.
  apply Forall_forall. intros c Hc. unfold df_resize in Hc. simpl in Hc.
  apply list_elem_of_fmap in Hc as (c0 & -> & _). simpl. apply resize_0.
Qed.

Lemma df_create_zero (types : list PGTypes) (names : list string) (n : Z) :
  n <= 0 ->
  Forall (fun c => col_data c = []) (df_cols (df_create types names n)).
Proof.
  intros Hn. apply Forall_forall. intros c Hc. unfold df_create in Hc.
  simpl in Hc. apply list_elem_of_fmap in Hc as (ty & -> & _). simpl.
  replace (Z.to_nat n) with 0%nat by lia. reflexivity.
Qed.

(** Once [is_complete] has answered [true], a fetch returns columns without
    rows and changes nothing, so the same holds for every fetch after it. *)
Lemma fetch_when_complete (n_max : Z) (w w1 : world) :
  bound_ (this w) = true ->
  active w = true ->
  is_complete w = (Ok true, w1) ->
  is_complete w1 = (Ok true, w1) /\
  exists out,
    fetch n_max w1 = (Ok out, w1) /\
    Forall (fun c => col_data c = []) (df_cols out).
Proof.
  intros Hb Hact Hdone.
  assert (Hw1 : exists row, pNextRow_ (this w1) = Some row /\
                            PqRow.has_data row = false /\
                            bound_ (this w1) = true /\ active w1 = true).
  { unfold is_complete, and_then, fetch_row_if_needed, next_row, ret in Hdone.
    destruct (pNextRow_ (this w)) as [row|] eqn:Hrow.
    - rewrite Hrow in Hdone. injection Hdone as Hd <-.
      exists row. rewrite negb_true_iff in Hd. auto.
    - destruct (fetch_row_frame w) as [Hb1 Hact1].
      destruct (fetch_row w) as [[[]|e| |] w2] eqn:Hf; try discriminate.
      simpl in Hb1, Hact1.
      destruct (pNextRow_ (this w2)) as [row|] eqn:Hrow2; [|discriminate].
      injection Hdone as Hd <-. exists row. rewrite negb_true_iff in Hd.
      repeat split; congruence. }
  destruct Hw1 as (row & Hrow & Hnodata & Hb1 & Hact1).
  split.
  - unfold is_complete, and_then, fetch_row_if_needed, next_row, ret.
    rewrite Hrow. cbv beta iota zeta. rewrite Hrow. cbv beta iota zeta.
    rewrite Hnodata. reflexivity.
  - eexists. split.
    + unfold fetch. rewrite Hb1, Hact1. simpl negb. cbv iota zeta.
      unfold and_then at 1, fetch_row_if_needed. rewrite Hrow. unfold ret at 1.
      cbv beta iota zeta. cbn [fetch_loop].
      unfold and_then, next_row. rewrite Hrow. unfold ret at 1.
      cbv beta iota zeta. rewrite Hnodata. simpl negb. cbv iota.
      unfold ret. cbv beta iota zeta. reflexivity.
    + apply tag_columns_empty.
      destruct (Z.ltb_spec 0 (if n_max <? 0 then 100 else n_max)) as [Hpos|Hzero].
      * apply df_resize_zero.
      * apply df_create_zero. exact Hzero.
Qed.

End Fetch.

(** A statement without parameters is streaming as soon as it is
    constructed: the constructor has bound it. *)
Lemma new_streaming `{Platform} `{Server} (addr : nat) (pConn : PqConnection)
    (sql : string) (rs : t) (c : PqConnection) (ws : list Rwarning)
    (rows : list PGresult) (fin : PGresult) (after : list PGresult) :
  usable pConn = true ->
  new addr pConn sql = (Ok rs, c, ws) ->
  nparams describe_reply = 0 ->
  query_results [] = rows ++ fin :: after ->
  Forall is_row rows ->
  is_final fin ->
  streaming {| this := rs; pConn_ := c; warnings := ws |} rows fin.
Proof.
  intros Hok Hnew Hn Hq Hrows Hfin.
  pose proof (new_cases addr pConn sql Hok) as Hc. rewrite Hnew in Hc.
  destruct Hc as (Hcur & Hself & _ & Hb & Hla & _ & _ & _ & _ & Hnc & _ & Hty & Hp).
  rewrite get_column_types_all in Hty. injection Hty as Hty _.
  unfold streaming, active, is_current_result, lookahead_stream. simpl.
  rewrite Hb, Hn, Hcur, Hself, Hla, Hnc, Hty, (Hp Hn), Hq.
  split; [reflexivity|]. split; [apply bool_decide_eq_true_2; reflexivity|].
  split; [unfold PQnfields; rewrite length_fmap; reflexivity|].
  split; [exact Hrows|]. split; [exact Hfin|]. exists after. reflexivity.
Qed.

(** C4. On a streaming result with no interrupt pending, a fetch with a
    negative limit starts from buffers with room for 100 rows, stores every
    row of the stream while the lookahead has one, and reaches the end with
    a capacity of 100 doubled [p] times that holds the rows and was doubled
    only when the rows exceeded it. It returns the columns of all the rows,
    decoded, each exactly as long as the stream, and leaves the stream at
    its final unit, where [is_complete] answers [true]. *)
Theorem C4_fetch_all_returns_every_row `{Platform} `{Server}
    (n_max : Z) (w : world) (rows : list PGresult) (fin : PGresult) :
  interrupt_pending = false ->
  streaming w rows fin ->
  n_max < 0 ->
  let types := types_ (this w) in
  exists w1 buf w' cap p,
    fetch_row_if_needed w = (Ok tt, w1) /\
    fetch_loop (S (length (pending (conn (pConn_ w1))))) n_max
      (df_create types (names_ (this w)) 100) 0 100 w1
    = (Ok (buf, Z.of_nat (length rows), cap), w') /\
    df_cols buf = filled types rows (Z.to_nat cap) /\
    0 <= p /\ cap = 100 * 2 ^ p /\ Z.of_nat (length rows) <= cap /\
    (0 < p -> cap < 2 * Z.of_nat (length rows)) /\
    fetch n_max w
    = (Ok {| df_names := names_ (this w);
             df_cols := fetched_columns types rows |}, w') /\
    Forall (fun c => length (col_data c) = length rows)
           (fetched_columns types rows) /\
    streaming w' [] fin /\
    is_complete w' = (Ok true, w') /\
    n_rows_fetched w' = n_rows_fetched w + Z.of_nat (length rows).
Proof.
  intros Hquiet Hstream Hneg types.
  destruct (fetch_run n_max w rows fin Hquiet Hstream)
    as (w1 & buf & w' & Hf1 & Hloop & Hbuf & Hfetch & Hs' & Hn' & _ & _ & Hla').
  rewrite (rows_taken_all n_max _ Hneg) in *.
  replace (n_max <? 0) with true in * by (symmetry; apply Z.ltb_lt; lia).
  rewrite firstn_all in *. rewrite drop_all in Hs'.
  destruct (capacity_doubling (length rows) 100 0) as (Hfit & p & Hp & Hcap & Hmin);
    [lia|lia|].
  exists w1, buf, w', (capacity 100 0 (length rows)), p.
  split; [exact Hf1|]. split; [exact Hloop|]. split; [exact Hbuf|].
  split; [exact Hp|]. split; [exact Hcap|]. split; [lia|].
  split; [intros Hpp; specialize (Hmin Hpp); lia|].
  split; [exact Hfetch|]. split; [apply fetched_columns_length|].
  split; [exact Hs'|].
  split; [exact (is_complete_at_end w' fin Hla' Hs') | exact Hn'].
Qed.

(** C5. On a streaming result with no interrupt pending, a fetch with the
    limit [n_max >= 0] keeps the capacity at [n_max] through the loop, takes
    the first [min n_max (length rows)] rows, and returns their columns,
    decoded, each exactly that long; the rows beyond them stay in the
    stream. Once [is_complete] has answered [true] on a bound, current
    result, a fetch with any limit returns columns without rows and changes
    nothing, so every further fetch does the same. *)
Theorem C5_fetch_n_returns_at_most_n `{Platform} `{Server}
    (n_max : Z) (w : world) (rows : list PGresult) (fin : PGresult) :
  interrupt_pending = false ->
  streaming w rows fin ->
  0 <= n_max ->
  let types := types_ (this w) in
  let k := Nat.min (Z.to_nat n_max) (length rows) in
  (exists w1 buf w',
     fetch_row_if_needed w = (Ok tt, w1) /\
     fetch_loop (S (length (pending (conn (pConn_ w1))))) n_max
       (df_create types (names_ (this w)) n_max) 0 n_max w1
     = (Ok (buf, Z.of_nat k, n_max), w') /\
     Forall (fun c => length (col_data c) = Z.to_nat n_max) (df_cols buf) /\
     fetch n_max w
     = (Ok {| df_names := names_ (this w);
              df_cols := fetched_columns types (take k rows) |}, w') /\
     Z.of_nat k <= n_max /\
     Forall (fun c => length (col_data c) = k)
            (fetched_columns types (take k rows)) /\
     streaming w' (drop k rows) fin /\
     n_rows_fetched w' = n_rows_fetched w + Z.of_nat k) /\
  (forall (m : Z) (v v1 : world),
     bound_ (this v) = true -> active v = true ->
     is_complete v = (Ok true, v1) ->
     is_complete v1 = (Ok true, v1) /\
     exists out,
       fetch m v1 = (Ok out, v1) /\
       Forall (fun c => col_data c = []) (df_cols out)).
Proof.
  intros Hquiet Hstream Hpos types k. split.
  - destruct (fetch_run n_max w rows fin Hquiet Hstream)
      as (w1 & buf & w' & Hf1 & Hloop & Hbuf & Hfetch & Hs' & Hn' & _).
    rewrite (rows_taken_some n_max _ Hpos) in *. fold k in Hloop, Hbuf, Hfetch, Hs', Hn'.
    replace (n_max <? 0) with false in * by (symmetry; apply Z.ltb_ge; lia).
    rewrite capacity_fixed in Hloop, Hbuf by lia.
    exists w1, buf, w'.
    split; [exact Hf1|]. split; [exact Hloop|].
    split; [rewrite Hbuf; apply filled_length|].
    split; [exact Hfetch|]. split; [lia|].
    split; [|split; [exact Hs' | exact Hn']].
    pose proof (fetched_columns_length types (take k rows)) as Hlen.
    rewrite length_take in Hlen.
    replace (Nat.min k (length rows)) with k in Hlen by lia. exact Hlen.
  - intros m v v1. apply fetch_when_complete.
Qed.

Lemma demo250_opened :
  @new Demo250.server 1 Demo.idle Demo250.sql
  = (Ok Demo250.result, pConn_ Demo250.world0, warnings Demo250.world0).
Proof. vm_compute. reflexivity. Qed.

Lemma demo250_streaming :
  streaming Demo250.world0 (replicate 250 Demo250.row) Demo250.fin.
Proof.
  apply (@new_streaming Demo.libc Demo250.server 1 Demo.idle Demo250.sql
           Demo250.result (pConn_ Demo250.world0) (warnings Demo250.world0)
           (replicate 250 Demo250.row) Demo250.fin []).
  - reflexivity.
  - exact demo250_opened.
  - reflexivity.
  - reflexivity.
  - apply Forall_replicate. reflexivity.
  - split; discriminate.
Qed.

Lemma C4_fetch_all_returns_every_row_witness :
  exists w',
    @fetch Demo.libc Demo250.server (-1) Demo250.world0
    = (Ok {| df_names := ["id"; "note"];
             df_cols := [bare (replicate 250 (INTEGER 0));
                         bare (replicate 250 (STRING_ELT NA_STRING))] |}, w') /\
    @is_complete Demo250.server w' = (Ok true, w').
Proof.
  destruct (@C4_fetch_all_returns_every_row Demo.libc Demo250.server (-1)
              Demo250.world0 (replicate 250 Demo250.row) Demo250.fin
              eq_refl demo250_streaming eq_refl)
    as (w1 & buf & w' & cap & p & _ & _ & _ & _ & _ & _ & _ & Hfetch & _ & _
        & Hdone & _).
  exists w'. split; [|exact Hdone].
  rewrite Hfetch. reflexivity.
Defined.

Lemma C5_fetch_n_returns_at_most_n_witness :
  exists w',
    @fetch Demo.libc Demo250.server 100 Demo250.world0
    = (Ok {| df_names := ["id"; "note"];
             df_cols := [bare (replicate 100 (INTEGER 0));
                         bare (replicate 100 (STRING_ELT NA_STRING))] |}, w') /\
    streaming w' (replicate 150 Demo250.row) Demo250.fin /\
    n_rows_fetched w' = 100.
Proof.
  destruct (proj1 (@C5_fetch_n_returns_at_most_n Demo.libc Demo250.server 100
                     Demo250.world0 (replicate 250 Demo250.row) Demo250.fin
                     eq_refl demo250_streaming ltac:(discriminate)))
    as (w1 & buf & w' & _ & _ & _ & Hfetch & _ & _ & Hrest & Hcount).
  exists w'. split; [|split; [exact Hrest | exact Hcount]].
  rewrite Hfetch. reflexivity.
Defined.

(** * Further properties of the code *)

(** ** Constructing a row cursor *)

(** X1. [PqRow::PqRow] always returns or throws, and in one of four ways.
    It throws "No active query" exactly on an empty queue. It throws the
    server's message on a fatal-error unit, which it consumes while leaving
    the units behind it queued. Otherwise it returns the unit it pulled,
    never a fatal one, with the queue emptied when that unit has status
    [PGRES_TUPLES_OK] and shortened by that unit alone when it has not. *)
Theorem X1_cursor_construction_cases `{Server} (c : PGconn) :
  match PqRow.new c with
  | (Ok row, c') =>
      exists q,
        pending c = PqRow.pRes_ row :: q /\
        resultStatus (PqRow.pRes_ row) <> PGRES_FATAL_ERROR /\
        pending c' = if bool_decide (resultStatus (PqRow.pRes_ row) = PGRES_TUPLES_OK)
                     then [] else q
  | (Throw e, c') =>
      pending c = [] /\ e = ProtocolError /\ pending c' = [] \/
      exists u q,
        pending c = u :: q /\ resultStatus u = PGRES_FATAL_ERROR /\
        e = QueryError PQerrorMessage None /\ pending c' = q
  | (Undefined, _) => False
  | (OutOfFuel, _) => False
  end.
Proof.
  destruct (pending c) as [|u q] eqn:Hq.
  - unfold PqRow.new, PQgetResult. rewrite Hq. simpl.
    left. unfold record. simpl. auto.
  - destruct (decide (resultStatus u = PGRES_FATAL_ERROR)) as [Hfatal|Hfine].
    + unfold PqRow.new, PQgetResult. rewrite Hq. simpl PQresultStatus.
      rewrite (bool_decide_eq_false_2 (resultStatus u = PGRES_TUPLES_OK))
        by (rewrite Hfatal; discriminate).
      rewrite bool_decide_eq_true_2 by exact Hfatal.
      right. exists u, q. auto.
    + destruct (new_pull c u q Hq Hfine) as (g & -> & Hg).
      exists q. simpl. auto.
Qed.

(** ** The lookahead *)





(** ** What the constructor leaves *)

Lemma get_column_names_all (spec : PGresult) :
  get_column_names spec (PQnfields spec) = fst <$> fields spec.
Proof.
  unfold get_column_names, PQnfields. rewrite Nat2Z.id.
  apply list_eq. intros i. rewrite !list_lookup_fmap.
  destruct (decide (i < length (fields spec))%nat) as [Hlt|Hge].
  - rewrite lookup_seq_lt by exact Hlt. simpl. unfold PQfname.
    destruct (lookup_lt_is_Some_2 (fields spec) i Hlt) as [[nm oid] Hf].
    rewrite Hf. reflexivity.
  - rewrite lookup_seq_ge by lia. rewrite lookup_ge_None_2 by lia. reflexivity.
Qed.

(** X3. A constructed result holds the metadata of the description: the
    column names in the server's order, duplicates kept, one decoded type
    per column, and [ncols_] equal to the length of both. No row has been
    fetched, there is no lookahead yet, the object is the connection's
    current result, and it is bound exactly when the statement has no
    parameters. *)
Theorem X3_constructed_result_metadata `{Platform} `{Server}
    (addr : nat) (pConn : PqConnection) (sql : string) (rs : t)
    (c : PqConnection) (ws : list Rwarning) :
  new addr pConn sql = (Ok rs, c, ws) ->
  names_ rs = fst <$> fields describe_reply /\
  types_ rs = decoded_type <$> fields describe_reply /\
  ncols_ rs = Z.of_nat (length (names_ rs)) /\
  ncols_ rs = Z.of_nat (length (types_ rs)) /\
  n_rows_fetched {| this := rs; pConn_ := c; warnings := ws |} = 0 /\
  pNextRow_ rs = None /\
  active {| this := rs; pConn_ := c; warnings := ws |} = true /\
  bound_ rs = (nparams_ rs =? 0).
Proof.
  intros Hnew.
  destruct (usable pConn) eqn:Hok;
    [|rewrite (new_unusable addr pConn sql Hok) in Hnew; discriminate].
  pose proof (new_cases addr pConn sql Hok) as Hc. rewrite Hnew in Hc.
  destruct Hc as (Hcur & Hself & Hnp & Hb & Hla & Hn & _ & _ & _ & Hnc & Hnames
                  & Hty & _).
  rewrite get_column_types_all in Hty. injection Hty as Hty _.
  rewrite get_column_names_all in Hnames.
  split; [exact Hnames|]. split; [exact Hty|].
  split; [rewrite Hnc, Hnames, length_fmap; reflexivity|].
  split; [rewrite Hnc, Hty, length_fmap; reflexivity|].
  split; [unfold n_rows_fetched; simpl; rewrite Hla, Hn; reflexivity|].
  split; [exact Hla|].
  split; [|rewrite Hb, Hnp; reflexivity].
  unfold active, is_current_result. simpl. rewrite Hcur, Hself.
  apply bool_decide_eq_true_2. reflexivity.
Qed.

Lemma X3_constructed_result_metadata_witness :
  let P := Demo.libc in
  let S := Demo.backend 2 [("id", 23); ("x", 701); ("id", 20)] [] in
  exists rs c ws,
    new 1 Demo.idle "SELECT a.id, x, b.id FROM a, b WHERE a.id = $1 AND x > $2"
      = (Ok rs, c, ws) /\
    names_ rs = ["id"; "x"; "id"] /\
    types_ rs = [PGInt; PGReal; PGInt] /\
    ncols_ rs = 3 /\ bound_ rs = false.
Proof.
  intros P S. do 3 eexists. split; [reflexivity|].
  destruct (@X3_constructed_result_metadata P S 1 Demo.idle
              "SELECT a.id, x, b.id FROM a, b WHERE a.id = $1 AND x > $2"
              _ _ _ eq_refl) as (Hnm & Hty & Hnc & _ & _ & _ & _ & Hb).
  split; [exact Hnm|]. split; [exact Hty|]. split; [exact Hnc | exact Hb].
Defined.

(** X4. A later construction on the connection makes an earlier result
    stale, whether the later one succeeds or throws after the check: the
    earlier object is no longer the connection's current result, and a
    fetch on it, if it is bound, fails with "Inactive result set" and
    touches nothing. *)
Theorem X4_later_construction_makes_stale `{Platform} `{Server}
    (old : t) (addr : nat) (pConn : PqConnection) (sql : string)
    (r : outcome t) (c : PqConnection) (ws ws0 : list Rwarning) (n_max : Z) :
  usable pConn = true ->
  self old <> addr ->
  new addr pConn sql = (r, c, ws) ->
  let w := {| this := old; pConn_ := c; warnings := ws0 |} in
  active w = false /\
  (bound_ old = true -> fetch n_max w = (Throw StaleResultError, w)).
Proof.
  intros Hok Hne Hnew w.
  assert (Hstale : active w = false).
  { pose proof (new_cases addr pConn sql Hok) as Hc. rewrite Hnew in Hc.
    unfold active, is_current_result. simpl.
    apply bool_decide_eq_false_2.
    destruct r as [rs|e| |]; try contradiction.
    - destruct Hc as (Hcur & _). rewrite Hcur. congruence.
    - destruct Hc as (Hcur & _). rewrite Hcur. discriminate. }
  split; [exact Hstale|]. intros Hb. apply fetch_inactive; assumption.
Qed.

Lemma X4_later_construction_makes_stale_witness :
  let P := Demo.libc in
  let S := Demo.backend 0 [("id", 23)] [Demo.unit_of PGRES_TUPLES_OK []] in
  let first := set_bound true (fresh 1) in
  let c1 := set_current_result (Some 1%nat) Demo.idle in
  exists second c2 ws2,
    new 2 c1 "SELECT id FROM t" = (Ok second, c2, ws2) /\
    fetch (-1) {| this := first; pConn_ := c2; warnings := [] |}
    = (Throw StaleResultError,
       {| this := first; pConn_ := c2; warnings := [] |}).
Proof.
  intros P S first c1.
  destruct (new 2 c1 "SELECT id FROM t") as [[r c2] ws2] eqn:Hnew.
  assert (Hr : exists second, r = Ok second).
  { vm_compute in Hnew. injection Hnew as <- _ _. eexists. reflexivity. }
  destruct Hr as [second ->].
  exists second, c2, ws2. split; [reflexivity|].
  refine (proj2 (@X4_later_construction_makes_stale P S first 2 c1
                   "SELECT id FROM t" _ c2 ws2 [] (-1) eq_refl _ Hnew) eq_refl).
  discriminate.
Defined.

(** ** Binding *)

(** X5. The two binds differ when the server refuses. [bind()] sets
    [bound_] before it sends, so the result is bound whatever comes of the
    call. [bind(params)] sets it last: a result that was not bound is bound
    afterwards exactly when the call returned normally. *)
Theorem X5_bound_flag_after_bind `{Platform} `{Server}
    (params : list (list (option string))) (w : world) :
  bound_ (this (snd (bind w))) = true /\
  (bound_ (this w) = false ->
   (bound_ (this (snd (bind_params params w))) = true <->
    fst (bind_params params w) = Ok tt)).
Proof.
  split.
  - unfold bind, and_then, update, libpq, PQsendQueryPrepared,
      PQsetSingleRowMode, stop, ret. simpl.
    destruct (send_reply []); simpl; [|reflexivity].
    destruct single_row_reply; reflexivity.
  - intros Hb. unfold bind_params.
    destruct (negb (Z.of_nat (length params) =? nparams_ (this w)));
      [simpl; rewrite Hb; split; discriminate|].
    destruct (first_elements params) as [c_params|];
      [|simpl; rewrite Hb; split; discriminate].
    unfold and_then, update, libpq, PQsendQueryPrepared, PQsetSingleRowMode,
      stop, ret. simpl.
    destruct (send_reply c_params); simpl;
      [|rewrite Hb; split; discriminate].
    destruct single_row_reply; simpl; [split; reflexivity|].
    rewrite Hb. split; discriminate.
Qed.

(** What a scalar bind that returns has done. *)
Lemma bind_params_ok `{Platform} `{Server}
    (params : list (list (option string))) (w w' : world) :
  bind_params params w = (Ok tt, w') ->
  exists c_params,
    first_elements params = Some c_params /\
    Z.of_nat (length params) = nparams_ (this w) /\
    send_reply c_params = true /\ single_row_reply = true /\
    w' = {| this := set_bound true (this w);
            pConn_ := with_conn
                        {| pending := query_results c_params;
                           io_log := io_log (conn (pConn_ w))
                                     ++ [SendQueryPrepared c_params;
                                         SetSingleRowMode] |}
                        (pConn_ w);
            warnings := warnings w |}.
Proof.
  unfold bind_params.
  destruct (Z.eqb_spec (Z.of_nat (length params)) (nparams_ (this w)))
    as [Harity|Harity]; simpl; [|discriminate].
  destruct (first_elements params) as [c_params|]; [|discriminate].
  unfold and_then, update, libpq, PQsendQueryPrepared, PQsetSingleRowMode,
    stop, ret. simpl.
  destruct (send_reply c_params) eqn:Hsend; simpl; [|discriminate].
  destruct single_row_reply eqn:Hsingle; simpl; [|discriminate].
  intros [= <-]. exists c_params. repeat split; try assumption.
  unfold set_this, set_pConn, with_conn, record. simpl.
  rewrite <- app_assoc. reflexivity.
Qed.

(** X6. Binding and then fetching. When [bind(params)] returns, it has sent
    one query whose parameters are the first elements of the given vectors,
    NA as NULL, and switched to single-row mode. On a current result that
    had no lookahead, with no interrupt pending, the fetch that follows
    returns the rows the server streams for those parameters, decoded, as
    many as the limit allows. *)
Theorem X6_bind_then_fetch `{Platform} `{Server}
    (params : list (list (option string))) (w w' : world)
    (rows : list PGresult) (fin : PGresult) (after : list PGresult)
    (n_max : Z) :
  interrupt_pending = false ->
  active w = true ->
  pNextRow_ (this w) = None ->
  ncols_ (this w) = Z.of_nat (length (types_ (this w))) ->
  bind_params params w = (Ok tt, w') ->
  (forall c_params,
     first_elements params = Some c_params ->
     query_results c_params = rows ++ fin :: after) ->
  Forall is_row rows ->
  is_final fin ->
  exists c_params w'',
    mapM head params = Some c_params /\
    io_log (conn (pConn_ w'))
    = io_log (conn (pConn_ w)) ++ [SendQueryPrepared c_params; SetSingleRowMode] /\
    fetch n_max w'
    = (Ok {| df_names := names_ (this w);
             df_cols := fetched_columns (types_ (this w))
                          (take (rows_taken n_max (length rows)) rows) |}, w'') /\
    n_rows_fetched w'' = n_rows_fetched w
                         + Z.of_nat (rows_taken n_max (length rows)).
Proof.
  intros Hquiet Hact Hla Hnc Hbind Hq Hrows Hfin.
  destruct (bind_params_ok params w w' Hbind)
    as (c_params & Hfirst & _ & _ & _ & ->).
  specialize (Hq c_params Hfirst).
  assert (Hstream : streaming
            {| this := set_bound true (this w);
               pConn_ := with_conn
                           {| pending := query_results c_params;
                              io_log := io_log (conn (pConn_ w))
                                        ++ [SendQueryPrepared c_params;
                                            SetSingleRowMode] |}
                           (pConn_ w);
               warnings := warnings w |} rows fin).
  { unfold streaming, lookahead_stream. simpl. rewrite Hla, Hq.
    split; [reflexivity|]. split; [exact Hact|]. split; [exact Hnc|].
    split; [exact Hrows|]. split; [exact Hfin|]. exists after. reflexivity. }
  destruct (fetch_run n_max _ rows fin Hquiet Hstream)
    as (w1 & buf & w'' & _ & _ & _ & Hfetch & _ & Hn & _).
  exists c_params, w''. split; [exact Hfirst|]. split; [reflexivity|].
  split; [exact Hfetch|]. rewrite Hn. unfold n_rows_fetched. simpl.
  reflexivity.
Qed.

Lemma X6_bind_then_fetch_witness :
  let P := Demo.libc in
  let row := Demo.unit_of PGRES_SINGLE_TUPLE [Some "7"] in
  let fin := Demo.unit_of PGRES_TUPLES_OK [] in
  let S := Demo.backend 2 [("id", 23)] [row; row; fin] in
  let w := {| this := set_metadata 1 ["id"] [PGInt] (set_nparams 2 (fresh 1));
              pConn_ := set_current_result (Some 1%nat) Demo.idle;
              warnings := [] |} in
  let params := [[Some "a"; Some "ignored"]; [None]] in
  exists w' w'',
    bind_params params w = (Ok tt, w') /\
    io_log (conn (pConn_ w'))
    = [SendQueryPrepared [Some "a"; None]; SetSingleRowMode] /\
    fetch (-1) w'
    = (Ok {| df_names := ["id"];
             df_cols := [bare [INTEGER 0; INTEGER 0]] |}, w'').
Proof.
  intros P row fin S w params.
  destruct (bind_params params w) as [o w'] eqn:Hbind.
  assert (Ho : o = Ok tt) by (vm_compute in Hbind; congruence).
  subst o.
  destruct (@X6_bind_then_fetch P S params w w' [row; row] fin [] (-1)
              eq_refl eq_refl eq_refl eq_refl Hbind
              (fun _ _ => eq_refl)
              ltac:(repeat constructor) ltac:(split; discriminate))
    as (c_params & w'' & Hfirst & Hlog & Hfetch & _).
  exists w', w''. split; [reflexivity|].
  assert (Hc : c_params = [Some "a"; None])
    by (vm_compute in Hfirst; congruence).
  subst c_params. split; [exact Hlog|]. rewrite Hfetch. reflexivity.
Defined.

(** X7. Neither bind resets the lookahead. On a current result whose
    lookahead holds a unit that is not a row (its stream was read to the
    end), a [bind(params)] that returns queues the results of the new
    parameters, yet [is_complete] still answers [true] and every fetch
    returns columns without rows and changes nothing: the new results stay
    in the queue, unread. *)
Theorem X7_rebind_keeps_old_lookahead `{Platform} `{Server}
    (params : list (list (option string))) (w w' : world) (row : PqRow.t)
    (n_max : Z) :
  active w = true ->
  pNextRow_ (this w) = Some row ->
  PqRow.has_data row = false ->
  bind_params params w = (Ok tt, w') ->
  pNextRow_ (this w') = Some row /\
  (exists c_params,
     first_elements params = Some c_params /\
     pending (conn (pConn_ w')) = query_results c_params) /\
  is_complete w' = (Ok true, w') /\
  exists out,
    fetch n_max w' = (Ok out, w') /\
    Forall (fun c => col_data c = []) (df_cols out).
Proof.
  intros Hact Hrow Hnodata Hbind.
  destruct (bind_params_ok params w w' Hbind)
    as (c_params & Hfirst & _ & _ & _ & Hw').
  assert (Hrow' : pNextRow_ (this w') = Some row) by (subst w'; exact Hrow).
  assert (Hdone : is_complete w' = (Ok true, w')).
  { unfold is_complete, and_then, fetch_row_if_needed, next_row, ret.
    rewrite Hrow'. cbv beta iota zeta. rewrite Hrow'. cbv beta iota zeta.
    rewrite Hnodata. reflexivity. }
  split; [exact Hrow'|].
  split; [exists c_params; subst w'; auto|].
  split; [exact Hdone|].
  apply (fetch_when_complete n_max w' w'); [subst w'; reflexivity | | exact Hdone].
  subst w'. exact Hact.
Qed.

Lemma X7_rebind_keeps_old_lookahead_witness :
  let P := Demo.libc in
  let row := Demo.unit_of PGRES_SINGLE_TUPLE [Some "7"] in
  let fin := Demo.unit_of PGRES_TUPLES_OK [] in
  let S := Demo.backend 1 [("id", 23)] [row; row; fin] in
  let w := {| this := set_next_row {| PqRow.pRes_ := fin |}
                        (set_bound true
                           (set_metadata 1 ["id"] [PGInt]
                              (set_nparams 1 (fresh 1))));
              pConn_ := set_current_result (Some 1%nat) Demo.idle;
              warnings := [] |} in
  exists w' out,
    bind_params [[Some "a"]] w = (Ok tt, w') /\
    pending (conn (pConn_ w')) = [row; row; fin] /\
    fetch (-1) w' = (Ok out, w') /\
    Forall (fun c => col_data c = []) (df_cols out).
Proof.
  intros P row fin S w.
  destruct (bind_params [[Some "a"]] w) as [o w'] eqn:Hbind.
  assert (Ho : o = Ok tt) by (vm_compute in Hbind; congruence).
  subst o.
  destruct (@X7_rebind_keeps_old_lookahead P S [[Some "a"]] w w'
              {| PqRow.pRes_ := fin |} (-1) eq_refl eq_refl eq_refl Hbind)
    as (_ & (c_params & _ & Hq) & _ & out & Hfetch & Hempty).
  exists w', out. split; [reflexivity|]. split; [exact Hq|].
  split; [exact Hfetch | exact Hempty].
Defined.

(** ** Batches *)

(** A backend that executes every row except those whose first value is
    the text "bad". *)
Definition picky_backend (n : Z) : Server := {|
  prepare_reply := fun _ => PGRES_COMMAND_OK;
  describe_reply := {| resultStatus := PGRES_COMMAND_OK; nparams := n;
                       fields := []; tuple := []; cmdTuples := "" |};
  send_reply := fun _ => true;
  single_row_reply := true;
  query_results := fun _ => [];
  exec_reply := fun row =>
    match row with
    | first :: _ => if String.eqb first "bad" then PGRES_FATAL_ERROR
                    else PGRES_COMMAND_OK
    | [] => PGRES_COMMAND_OK
    end;
  PQerrorMessage := "ERROR:  invalid input"
|}.

Section Batches.
Context `{Platform} `{Server}.

(** One turn of the loop of [bind_rows], with no interrupt pending. *)
Lemma bind_rows_loop_turn (params : list (list (option string)))
    (i : nat) (rest : list nat) (w : world) :
  interrupt_pending = false ->
  Z.of_nat (length params) = nparams_ (this w) ->
  Forall (fun param => (i < length param)%nat) params ->
  bind_rows_loop params (i :: rest) w
  = if bool_decide (exec_reply (batch_row params i) = PGRES_COMMAND_OK)
    then bind_rows_loop params rest (logged [ExecPrepared (batch_row params i)] w)
    else (Throw (QueryError PQerrorMessage (Some (Z.of_nat i + 1))),
          logged [ExecPrepared (batch_row params i)] w).
Proof.
  intros Hquiet Harity Hlong. cbn [bind_rows_loop].
  rewrite (and_then_ok _ _ _ _ _ (poll_quiet _ w Hquiet)).
  rewrite (row_params_rectangular params _ i Harity Hlong).
  unfold and_then, libpq, PQexecPrepared, stop. simpl.
  destruct (bool_decide (exec_reply (batch_row params i) = PGRES_COMMAND_OK));
    reflexivity.
Qed.

Lemma bind_rows_loop_accepted (params : list (list (option string)))
    (todo : list nat) :
  interrupt_pending = false ->
  forall w,
    Z.of_nat (length params) = nparams_ (this w) ->
    Forall (fun i => Forall (fun param => (i < length param)%nat) params
                     /\ exec_reply (batch_row params i) = PGRES_COMMAND_OK) todo ->
    bind_rows_loop params todo w
    = (Ok tt, logged (ExecPrepared <$> (batch_row params <$> todo)) w).
Proof.
  intros Hquiet. induction todo as [|i todo IH]; intros w Harity Hall.
  - simpl. rewrite logged_nil. reflexivity.
  - apply Forall_cons in Hall as [[Hlong Hacc] Hall].
    rewrite bind_rows_loop_turn by assumption.
    rewrite bool_decide_eq_true_2 by exact Hacc.
    rewrite IH by assumption. rewrite logged_logged. reflexivity.
Qed.

Lemma bind_rows_loop_refused (params : list (list (option string)))
    (before : list nat) (k : nat) (later : list nat) :
  interrupt_pending = false ->
  forall w,
    Z.of_nat (length params) = nparams_ (this w) ->
    Forall (fun i => Forall (fun param => (i < length param)%nat) params
                     /\ exec_reply (batch_row params i) = PGRES_COMMAND_OK)
           before ->
    Forall (fun param => (k < length param)%nat) params ->
    exec_reply (batch_row params k) <> PGRES_COMMAND_OK ->
    bind_rows_loop params (before ++ k :: later) w
    = (Throw (QueryError PQerrorMessage (Some (Z.of_nat k + 1))),
       logged (ExecPrepared <$> (batch_row params <$> (before ++ [k]))) w).
Proof.
  intros Hquiet. induction before as [|i before IH];
    intros w Harity Hall Hlong Hrefused.
  - simpl app. rewrite bind_rows_loop_turn by assumption.
    rewrite bool_decide_eq_false_2 by exact Hrefused. reflexivity.
  - apply Forall_cons in Hall as [[Hlongi Hacc] Hall]. simpl app.
    rewrite bind_rows_loop_turn by assumption.
    rewrite bool_decide_eq_true_2 by exact Hacc.
    rewrite IH by assumption. rewrite logged_logged. reflexivity.
Qed.

End Batches.

(** X8. A batch the server accepts throughout. With the right number of
    parameter vectors, none shorter than the first, and no interrupt
    pending, [bind_rows] executes one statement per element of the first
    vector, in order, row [i] made of element [i] of every vector with NA
    sent as the text "NA". It returns normally and changes nothing but the
    record of calls: the result is as bound or unbound as before and nothing
    is queued for fetching. *)
Theorem X8_bind_rows_executes_each_row `{Platform} `{Server}
    (first : list (option string)) (others : list (list (option string)))
    (w : world) :
  interrupt_pending = false ->
  Z.of_nat (length (first :: others)) = nparams_ (this w) ->
  Forall (fun param => (length first <= length param)%nat) others ->
  (forall i, (i < length first)%nat ->
             exec_reply (batch_row (first :: others) i) = PGRES_COMMAND_OK) ->
  bind_rows (first :: others) w
  = (Ok tt,
     logged (ExecPrepared <$>
               (batch_row (first :: others) <$> seq 0 (length first))) w).
Proof.
  intros Hquiet Harity Hlong Hacc. unfold bind_rows.
  rewrite (proj2 (Z.eqb_eq _ _) Harity). simpl negb. cbv iota. simpl lookup.
  apply bind_rows_loop_accepted; [exact Hquiet | exact Harity |].
  apply Forall_forall. intros i Hi. apply elem_of_seq in Hi as [_ Hi].
  simpl in Hi. split; [|apply Hacc; exact Hi].
  apply Forall_cons. split; [exact Hi|].
  eapply Forall_impl; [exact Hlong|]. simpl. intros param Hp. lia.
Qed.

Lemma X8_bind_rows_executes_each_row_witness :
  let P := Demo.libc in
  let S := Demo.backend 2 [] [] in
  let w := {| this := set_nparams 2 (fresh 1); pConn_ := Demo.idle;
              warnings := [] |} in
  bind_rows [[Some "a"; None]; [Some "1"; Some "2"; Some "3"]] w
  = (Ok tt, logged [ExecPrepared ["a"; "1"]; ExecPrepared ["NA"; "2"]] w).
Proof.
  intros P S w.
  apply (@X8_bind_rows_executes_each_row P S [Some "a"; None]
           [[Some "1"; Some "2"; Some "3"]] w eq_refl eq_refl).
  - repeat constructor.
  - intros i _. reflexivity.
Defined.

(** X9. A batch with a refused row. Under the same conditions, when row
    [k] (counted from 0) is the first the server refuses, [bind_rows] throws
    the server's message with the row number [k + 1]; the rows before it and
    the refused row itself have been sent, in order, and no row after it. *)
Theorem X9_bind_rows_stops_at_refused_row `{Platform} `{Server}
    (first : list (option string)) (others : list (list (option string)))
    (w : world) (k : nat) :
  interrupt_pending = false ->
  Z.of_nat (length (first :: others)) = nparams_ (this w) ->
  Forall (fun param => (length first <= length param)%nat) others ->
  (k < length first)%nat ->
  (forall i, (i < k)%nat ->
             exec_reply (batch_row (first :: others) i) = PGRES_COMMAND_OK) ->
  exec_reply (batch_row (first :: others) k) <> PGRES_COMMAND_OK ->
  bind_rows (first :: others) w
  = (Throw (QueryError PQerrorMessage (Some (Z.of_nat k + 1))),
     logged (ExecPrepared <$>
               (batch_row (first :: others) <$> seq 0 (S k))) w).
Proof.
  intros Hquiet Harity Hlong Hk Hacc Hrefused. unfold bind_rows.
  rewrite (proj2 (Z.eqb_eq _ _) Harity). simpl negb. cbv iota. simpl lookup.
  assert (Hall : forall i, (i < length first)%nat ->
            Forall (fun param => (i < length param)%nat) (first :: others)).
  { intros i Hi. apply Forall_cons. split; [exact Hi|].
    eapply Forall_impl; [exact Hlong|]. simpl. intros param Hp. lia. }
  cbv beta iota.
  assert (Hseq : seq 0 (length first)
                 = seq 0 k ++ k :: seq (S k) (length first - S k)).
  { replace (length first) with (k + S (length first - S k))%nat at 1 by lia.
    rewrite seq_app. reflexivity. }
  rewrite Hseq, seq_S. simpl Nat.add.
  apply bind_rows_loop_refused; try assumption.
  - apply Forall_forall. intros i Hi. apply elem_of_seq in Hi as [_ Hi].
    simpl in Hi. split; [apply Hall; lia | apply Hacc; exact Hi].
  - apply Hall. exact Hk.
Qed.

Lemma X9_bind_rows_stops_at_refused_row_witness :
  let P := Demo.libc in
  let S := picky_backend 1 in
  let w := {| this := set_nparams 1 (fresh 1); pConn_ := Demo.idle;
              warnings := [] |} in
  bind_rows [[Some "a"; Some "bad"; Some "c"]] w
  = (Throw (QueryError "ERROR:  invalid input" (Some 2)),
     logged [ExecPrepared ["a"]; ExecPrepared ["bad"]] w).
Proof.
  intros P S w.
  apply (@X9_bind_rows_stops_at_refused_row P S
           [Some "a"; Some "bad"; Some "c"] [] w 1 eq_refl eq_refl).
  - constructor.
  - simpl. lia.
  - intros i Hi. assert (i = 0%nat) as -> by lia. reflexivity.
  - discriminate.
Defined.

(** X10. A pending interrupt and a batch. The arity is checked first; then,
    when the first vector has an element, the interrupt is noticed before
    row 1 is sent and [bind_rows] throws with nothing changed. When the
    first vector is empty there is no row and no poll: the call returns
    normally. *)
Theorem X10_bind_rows_interrupted_before_first_row `{Platform} `{Server}
    (first : list (option string)) (others : list (list (option string)))
    (w : world) :
  interrupt_pending = true ->
  Z.of_nat (length (first :: others)) = nparams_ (this w) ->
  bind_rows (first :: others) w
  = (match first with [] => Ok tt | _ :: _ => Throw InterruptedError end, w).
Proof.
  intros Hint Harity. unfold bind_rows.
  rewrite (proj2 (Z.eqb_eq _ _) Harity). simpl negb. cbv iota. simpl lookup.
  destruct first as [|x first]; [reflexivity|].
  simpl length. simpl seq. cbn [bind_rows_loop].
  apply and_then_throw. simpl. unfold checkUserInterrupt. rewrite Hint.
  reflexivity.
Qed.

Lemma X10_bind_rows_interrupted_before_first_row_witness :
  let P := {| atoi := fun _ => 0; atof := fun _ => 0%Q; strtod := fun _ => 0%Q;
              timegm := fun _ => 0; mktime := fun _ => 0;
              interrupt_pending := true |} in
  let S := Demo.backend 1 [] [] in
  let w := {| this := set_nparams 1 (fresh 1); pConn_ := Demo.idle;
              warnings := [] |} in
  bind_rows [[Some "a"; Some "b"]] w = (Throw InterruptedError, w).
Proof.
  intros P S w.
  exact (@X10_bind_rows_interrupted_before_first_row P S [Some "a"; Some "b"]
           [] w eq_refl eq_refl).
Defined.

(** ** Column information *)

Lemma time_oids (type : Z) :
  fst (column_type type) = PGTime <-> type = 1083 \/ type = 1266.
Proof.
  split.
  - destruct type as [|p|p]; [discriminate| |discriminate].
    do 13 (try (destruct p as [p|p|]; try discriminate)); auto.
  - intros [-> | ->]; reflexivity.
Qed.

Lemma mapM_lookup_all {A} (l : list A) :
  mapM (fun i => l !! i) (seq 0 (length l)) = Some l.
Proof.
  apply mapM_Some_2, Forall2_same_length_lookup_2.
  - apply length_seq.
  - intros i j x Hj Hx. apply lookup_seq in Hj as [-> _]. simpl.
    exact Hx.
Qed.

Lemma column_labels_valid (types : list PGTypes) (todo : list nat)
    (tys : list PGTypes) :
  Forall2 (fun i ty => types !! i = Some ty) todo tys ->
  column_labels types todo = Some (mapM type_label tys).
Proof.
  induction 1 as [|i ty todo tys Hi _ IH]; [reflexivity|].
  cbn [column_labels]. rewrite Hi, IH. simpl.
  destruct (type_label ty) as [label|]; [|reflexivity].
  simpl. destruct (mapM type_label tys); reflexivity.
Qed.

Lemma column_labels_all (types : list PGTypes) :
  column_labels types (seq 0 (length types)) = Some (mapM type_label types).
Proof.
  apply column_labels_valid, Forall2_same_length_lookup_2.
  - apply length_seq.
  - intros i j ty Hj Hty. apply lookup_seq in Hj as [-> _]. exact Hty.
Qed.

(** X11. [get_column_info] of a constructed result stops with "Unknown
    variable type" as soon as one column is a time column (Oid 1083 or
    1266): its switch has no case for the time type. Without such a column
    it returns the column names, as described, beside one type label per
    column. *)
Theorem X11_column_info_stops_on_time_columns `{Platform} `{Server}
    (addr : nat) (pConn : PqConnection) (sql : string) (rs : t)
    (c : PqConnection) (ws : list Rwarning) :
  new addr pConn sql = (Ok rs, c, ws) ->
  ((exists name oid, (name, oid) ∈ fields describe_reply /\
                     (oid = 1083 \/ oid = 1266)) ->
   get_column_info rs = UnknownVariableType) /\
  ((forall name oid, (name, oid) ∈ fields describe_reply ->
                     oid <> 1083 /\ oid <> 1266) ->
   exists labels,
     get_column_info rs
     = ColumnInfo (fst <$> fields describe_reply) labels
         (NA_INTEGER, - Z.of_nat (length (fields describe_reply))) /\
     length labels = length (fields describe_reply) /\
     mapM type_label (types_ rs) = Some labels).
Proof.
  intros Hnew.
  destruct (usable pConn) eqn:Hok;
    [|rewrite (new_unusable addr pConn sql Hok) in Hnew; discriminate].
  pose proof (new_cases addr pConn sql Hok) as Hc. rewrite Hnew in Hc.
  destruct Hc as (_ & _ & _ & _ & _ & _ & _ & _ & _ & Hnc & Hnames & Hty & _).
  rewrite get_column_types_all in Hty. injection Hty as Hty _.
  rewrite get_column_names_all in Hnames.
  assert (Hinfo : get_column_info rs
                  = match mapM type_label (types_ rs) with
                    | None => UnknownVariableType
                    | Some labels =>
                        ColumnInfo (names_ rs) labels (NA_INTEGER, - ncols_ rs)
                    end).
  { unfold get_column_info. rewrite Hnc. unfold PQnfields. rewrite Nat2Z.id.
    replace (length (fields describe_reply)) with (length (names_ rs)) at 1
      by (rewrite Hnames; apply length_fmap).
    rewrite mapM_lookup_all.
    replace (length (fields describe_reply)) with (length (types_ rs))
      by (rewrite Hty; apply length_fmap).
    rewrite column_labels_all. reflexivity. }
  split.
  - intros (name & oid & Hin & Hoid).
    assert (Hnone : mapM type_label (types_ rs) = None).
    { apply mapM_None_2, Exists_exists. exists PGTime. split; [|reflexivity].
      rewrite Hty. apply list_elem_of_fmap. exists (name, oid).
      split; [|exact Hin]. symmetry. apply time_oids. exact Hoid. }
    rewrite Hinfo, Hnone. reflexivity.
  - intros Hnotime.
    destruct (mapM type_label (types_ rs)) as [labels|] eqn:Hlabels.
    + exists labels. rewrite Hinfo, Hnames, Hnc. unfold PQnfields.
      split; [reflexivity|]. split; [|reflexivity].
      apply mapM_Some_1, Forall2_length in Hlabels.
      rewrite <- Hlabels, Hty. apply length_fmap.
    + exfalso. apply mapM_None_1, Exists_exists in Hlabels as (ty & Hin & Hnone).
      destruct ty; try discriminate.
      rewrite Hty in Hin. apply list_elem_of_fmap in Hin as ([name oid] & Hdec & Hin).
      symmetry in Hdec. apply time_oids in Hdec.
      destruct (Hnotime name oid Hin). simpl in Hdec. destruct Hdec; contradiction.
Qed.

Lemma X11_column_info_stops_on_time_columns_witness :
  let P := Demo.libc in
  let S := Demo.backend 0 [("id", 23); ("at", 1083)]
             [Demo.unit_of PGRES_TUPLES_OK []] in
  exists rs c ws,
    new 1 Demo.idle "SELECT id, at FROM t" = (Ok rs, c, ws) /\
    types_ rs = [PGInt; PGTime] /\
    get_column_info rs = UnknownVariableType.
Proof.
  intros P S. do 3 eexists. split; [reflexivity|]. split; [reflexivity|].
  refine (proj1 (@X11_column_info_stops_on_time_columns P S 1 Demo.idle
                   "SELECT id, at FROM t" _ _ _ eq_refl) _).
  exists "at", 1083. split; [|left; reflexivity].
  apply list_elem_of_In. simpl. auto.
Defined.

(** ** Dates and times of day *)

Lemma two_digit_values (v : Z) :
  0 <= v < 100 ->
  char_val (digit_char (v / 10)) - 48 = v / 10 /\
  char_val (digit_char (v mod 10)) - 48 = v mod 10.
Proof.
  intros Hv. split; apply digit_char_val;
    pose proof (Z.div_mod v 10); pose proof (Z.mod_pos_bound v 10); lia.
Qed.

Lemma parse_wire_date (Y M D : Z) (sep1 sep2 : ascii) (rest : string) :
  0 <= Y < 10000 -> 0 <= M < 100 -> 0 <= D < 100 ->
  PqRow.parse_ymd (wire_date Y M D sep1 sep2 rest) = Some (Y - 1900, M - 1, D).
Proof.
  intros HY HM HD.
  assert (HY1 : 0 <= Y / 100 < 100)
    by (pose proof (Z.div_mod Y 100); pose proof (Z.mod_pos_bound Y 100); lia).
  assert (HY2 : 0 <= Y mod 100 < 100) by (apply Z.mod_pos_bound; lia).
  destruct (two_digit_values _ HY1) as [Ey3 Ey2].
  destruct (two_digit_values _ HY2) as [Ey1 Ey0].
  destruct (two_digit_values _ HM) as [Em1 Em0].
  destruct (two_digit_values _ HD) as [Ed1 Ed0].
  unfold PqRow.parse_ymd, wire_date, two_digits, digit_at.
  cbn [peek fmap option_fmap option_map mbind option_bind].
  rewrite Ey3, Ey2, Ey1, Ey0, Em1, Em0, Ed1, Ed0.
  f_equal. f_equal; [f_equal|].
  - pose proof (Z.div_mod Y 100). pose proof (Z.div_mod (Y / 100) 10).
    pose proof (Z.div_mod (Y mod 100) 10). lia.
  - pose proof (Z.div_mod M 10). lia.
  - pose proof (Z.div_mod D 10). lia.
Qed.

Lemma parse_wire_time (h m : Z) (sep1 sep2 : ascii) (rest : string) :
  0 <= h < 100 -> 0 <= m < 100 ->
  PqRow.parse_hm (wire_time h m sep1 sep2 rest) 0 = Some (h, m) /\
  advance (wire_time h m sep1 sep2 rest) 6 = Some rest.
Proof.
  intros Hh Hm.
  destruct (two_digit_values _ Hh) as [Eh1 Eh0].
  destruct (two_digit_values _ Hm) as [En1 En0].
  split; [|reflexivity].
  unfold PqRow.parse_hm, wire_time, two_digits, digit_at.
  cbn [peek fmap option_fmap option_map mbind option_bind Nat.add].
  rewrite Eh1, Eh0, En1, En0. f_equal. f_equal.
  - pose proof (Z.div_mod h 10). lia.
  - pose proof (Z.div_mod m 10). lia.
Qed.

(** X12. A date column (Oid 1082) holding the text [YYYY?MM?DD] decodes to
    [timegm] of midnight of the year, month and day read from the digit
    positions, divided by the seconds of a day. The two separator
    characters and whatever follows the day are not looked at, and fields
    such as month 13 are passed on as they are. Whenever [timegm] returns a
    whole number of days in seconds, the decoded value is that number of
    days. *)
Theorem X12_date_decodes_to_days `{Platform} (row : PqRow.t) (j : nat)
    (Y M D : Z) (sep1 sep2 : ascii) (rest : string) :
  0 <= Y < 10000 -> 0 <= M < 100 -> 0 <= D < 100 ->
  tuple (PqRow.pRes_ row) !! j = Some (Some (wire_date Y M D sep1 sep2 rest)) ->
  PqRow.list_value row j (fst (column_type 1082))
  = REAL (Dbl (inject_Z (timegm (midnight Y M D)) / inject_Z 86400)) /\
  forall days,
    timegm (midnight Y M D) = 86400 * days ->
    (inject_Z (timegm (midnight Y M D)) / inject_Z 86400 == inject_Z days)%Q.
Proof.
  intros HY HM HD Hcell. split.
  - simpl. unfold PqRow.get_date, PqRow.is_null, PQgetisnull, PQgetvalue.
    rewrite Hcell. rewrite parse_wire_date by assumption. reflexivity.
  - intros days ->. rewrite inject_Z_mult. field.
Qed.

Lemma X12_date_decodes_to_days_witness :
  let P := Demo.libc in
  let row := {| PqRow.pRes_ :=
                  Demo.unit_of PGRES_SINGLE_TUPLE [Some "2024-03-15"] |} in
  wire_date 2024 3 15 "-" "-" "" = "2024-03-15" /\
  PqRow.list_value row 0 PGDate
  = REAL (Dbl (inject_Z 1710460800 / inject_Z 86400)) /\
  (inject_Z 1710460800 / inject_Z 86400 == inject_Z 19797)%Q.
Proof.
  intros P row. split; [reflexivity|].
  destruct (@X12_date_decodes_to_days P row 0 2024 3 15 "-" "-" ""
              ltac:(lia) ltac:(lia) ltac:(lia) eq_refl) as [Hval Hdays].
  split; [exact Hval | exact (Hdays 19797 eq_refl)].
Defined.

(** X13. A time column (Oid 1083 or 1266) holding the text [HH?MM?]
    followed by the seconds decodes to hours times 3600 plus minutes times
    60 plus the seconds as [strtod] reads them, fraction included; the
    separators are not looked at and nothing is range-checked. *)
Theorem X13_time_decodes_to_seconds `{Platform} (row : PqRow.t) (j : nat)
    (h m : Z) (sep1 sep2 : ascii) (rest : string) (oid : Z) :
  0 <= h < 100 -> 0 <= m < 100 ->
  oid = 1083 \/ oid = 1266 ->
  tuple (PqRow.pRes_ row) !! j = Some (Some (wire_time h m sep1 sep2 rest)) ->
  PqRow.list_value row j (fst (column_type oid))
  = REAL (Dbl (inject_Z (h * 3600 + m * 60) + strtod rest)).
Proof.
  intros Hh Hm Hoid Hcell.
  destruct (parse_wire_time h m sep1 sep2 rest Hh Hm) as [Hhm Hrest].
  replace (fst (column_type oid)) with PGTime
    by (destruct Hoid as [-> | ->]; reflexivity).
  simpl. unfold PqRow.get_time, PqRow.is_null, PQgetisnull, PQgetvalue.
  rewrite Hcell, Hhm, Hrest. reflexivity.
Qed.

Lemma X13_time_decodes_to_seconds_witness :
  let P := Demo.libc in
  let row := {| PqRow.pRes_ :=
                  Demo.unit_of PGRES_SINGLE_TUPLE [Some "10:30:00.25+00"] |} in
  wire_time 10 30 ":" ":" "00.25+00" = "10:30:00.25+00" /\
  PqRow.list_value row 0 PGTime = REAL (Dbl (inject_Z 37800 + (1 # 4))).
Proof.
  intros P row. split; [reflexivity|].
  exact (@X13_time_decodes_to_seconds P row 0 10 30 ":" ":" "00.25+00" 1266
           ltac:(lia) ltac:(lia) (or_intror eq_refl) eq_refl).
Defined.

(** ** The columns a fetch returns *)

(** The kind of vector element a column of the given type holds. *)
Definition slot_kind (ty : PGTypes) (s : slot) : Prop :=
  match ty, s with
  | PGLogical, LOGICAL _ => True
  | PGInt, INTEGER _ => True
  | (PGReal | PGDate | PGDatetime | PGDatetimeTZ | PGTime), REAL _ => True
  | PGVector, VECTOR_ELT _ => True
  | PGString, STRING_ELT _ => True
  | _, _ => False
  end.

Lemma list_value_kind `{Platform} (row : PqRow.t) (j : nat) (ty : PGTypes) :
  slot_kind ty (PqRow.list_value row j ty).
Proof. destruct ty; exact I. Qed.

(** X14. The data frame of a fetch, on a streaming result with no
    interrupt pending, has the names of the result and one column per
    decoded type. Every element of a column is a written element of the
    kind of its type, none is left unfilled, and the column carries the
    class of its type: "Date" for dates, "POSIXct", "POSIXt" for both
    timestamps, "hms", "difftime" with units "secs" for times, none
    otherwise. *)
Theorem X14_fetched_columns_are_typed_and_tagged `{Platform} `{Server}
    (n_max : Z) (w : world) (rows : list PGresult) (fin : PGresult) :
  interrupt_pending = false ->
  streaming w rows fin ->
  exists out w',
    fetch n_max w = (Ok out, w') /\
    df_names out = names_ (this w) /\
    length (df_cols out) = length (types_ (this w)) /\
    forall j ty col,
      types_ (this w) !! j = Some ty ->
      df_cols out !! j = Some col ->
      Forall (slot_kind ty) (col_data col) /\
      col_class col = match ty with
                      | PGDate => ["Date"]
                      | PGDatetime | PGDatetimeTZ => ["POSIXct"; "POSIXt"]
                      | PGTime => ["hms"; "difftime"]
                      | _ => []
                      end /\
      col_units col = match ty with PGTime => ["secs"] | _ => [] end.
Proof.
  intros Hquiet Hstream.
  destruct (fetch_run n_max w rows fin Hquiet Hstream)
    as (w1 & buf & w' & _ & _ & _ & Hfetch & _).
  eexists _, w'. split; [exact Hfetch|]. simpl. split; [reflexivity|].
  split; [unfold fetched_columns; apply length_imap|].
  intros j ty col Hty Hcol. unfold fetched_columns in Hcol.
  rewrite list_lookup_imap, Hty in Hcol. simpl in Hcol. injection Hcol as <-.
  split.
  - replace (col_data (tag_column ty (bare (decoded_column
               (take (rows_taken n_max (length rows)) rows) j ty))))
      with (decoded_column (take (rows_taken n_max (length rows)) rows) j ty)
      by (destruct ty; reflexivity).
    unfold decoded_column. apply Forall_fmap, Forall_true. intros r.
    apply list_value_kind.
  - destruct ty; split; reflexivity.
Qed.

Lemma X14_fetched_columns_are_typed_and_tagged_witness :
  exists out w',
    @fetch Demo.libc Demo250.server 7 Demo250.world0 = (Ok out, w') /\
    df_names out = ["id"; "note"] /\
    length (df_cols out) = 2%nat.
Proof.
  destruct (@X14_fetched_columns_are_typed_and_tagged Demo.libc Demo250.server
              7 Demo250.world0 (replicate 250 Demo250.row) Demo250.fin
              eq_refl demo250_streaming)
    as (out & w' & Hfetch & Hnames & Hlen & _).
  exists out, w'. split; [exact Hfetch|]. split; [exact Hnames | exact Hlen].
Defined.

Lemma decoded_column_app `{Platform} (l k : list PGresult) (j : nat)
    (ty : PGTypes) :
  decoded_column (l ++ k) j ty = decoded_column l j ty ++ decoded_column k j ty.
Proof. unfold decoded_column. apply fmap_app. Qed.

(** X15. Fetching in two steps loses and repeats nothing. On a streaming
    result with no interrupt pending, a fetch with any limit followed by a
    fetch with a negative limit returns first the rows the limit allows and
    then all the others: column by column the two results, one after the
    other, are the decoded rows of the stream in order; afterwards
    [is_complete] answers [true] and [n_rows_fetched] has grown by the
    length of the stream. *)
Theorem X15_two_fetches_cover_the_stream `{Platform} `{Server}
    (n_max m_max : Z) (w : world) (rows : list PGresult) (fin : PGresult) :
  interrupt_pending = false ->
  streaming w rows fin ->
  m_max < 0 ->
  let k := rows_taken n_max (length rows) in
  let types := types_ (this w) in
  exists w1 w2,
    fetch n_max w
    = (Ok {| df_names := names_ (this w);
             df_cols := fetched_columns types (take k rows) |}, w1) /\
    fetch m_max w1
    = (Ok {| df_names := names_ (this w);
             df_cols := fetched_columns types (drop k rows) |}, w2) /\
    (forall j ty,
       decoded_column (take k rows) j ty ++ decoded_column (drop k rows) j ty
       = decoded_column rows j ty) /\
    is_complete w2 = (Ok true, w2) /\
    n_rows_fetched w2 = n_rows_fetched w + Z.of_nat (length rows).
Proof.
  intros Hquiet Hstream Hneg k types.
  destruct (fetch_run n_max w rows fin Hquiet Hstream)
    as (v1 & buf1 & w1 & _ & _ & _ & Hfetch1 & Hstream1 & Hn1 & Hty1 & Hnm1 & _).
  fold k in Hfetch1, Hstream1, Hn1.
  destruct (fetch_run m_max w1 (drop k rows) fin Hquiet Hstream1)
    as (v2 & buf2 & w2 & _ & _ & _ & Hfetch2 & Hstream2 & Hn2 & _ & _ & Hla2).
  rewrite (rows_taken_all m_max _ Hneg) in Hfetch2, Hstream2, Hn2.
  rewrite firstn_all in Hfetch2. rewrite drop_all in Hstream2.
  rewrite Hty1, Hnm1 in Hfetch2.
  exists w1, w2. split; [exact Hfetch1|]. split; [exact Hfetch2|].
  split; [|split].
  - intros j ty. rewrite <- decoded_column_app, take_drop. reflexivity.
  - apply (is_complete_at_end w2 fin Hla2 Hstream2).
  - rewrite Hn2, Hn1, length_drop.
    pose proof (rows_taken_le n_max (length rows)) as Hle. fold k in Hle. lia.
Qed.

Lemma X15_two_fetches_cover_the_stream_witness :
  exists w1 w2,
    @fetch Demo.libc Demo250.server 100 Demo250.world0
    = (Ok {| df_names := ["id"; "note"];
             df_cols := [bare (replicate 100 (INTEGER 0));
                         bare (replicate 100 (STRING_ELT NA_STRING))] |}, w1) /\
    @fetch Demo.libc Demo250.server (-1) w1
    = (Ok {| df_names := ["id"; "note"];
             df_cols := [bare (replicate 150 (INTEGER 0));
                         bare (replicate 150 (STRING_ELT NA_STRING))] |}, w2) /\
    n_rows_fetched w2 = 250.
Proof.
  destruct (@X15_two_fetches_cover_the_stream Demo.libc Demo250.server 100 (-1)
              Demo250.world0 (replicate 250 Demo250.row) Demo250.fin
              eq_refl demo250_streaming eq_refl)
    as (w1 & w2 & Hf1 & Hf2 & _ & _ & Hn).
  exists w1, w2. split; [rewrite Hf1; reflexivity|].
  split; [rewrite Hf2; reflexivity | exact Hn].
Defined.

(** ** The affected-row count *)

(** X16. [n_rows_affected] reads the command tag of the lookahead unit,
    whatever its status, pulling that unit first when there is no
    lookahead: the answer is [atoi] of the tag of the first unit not yet
    handed out. It leaves [n_rows_fetched] as it was, and asking again gives
    the same answer and changes nothing. *)
Theorem X16_rows_affected_reads_the_lookahead `{Platform} `{Server}
    (w : world) (u : PGresult) (q : list PGresult) :
  lookahead_stream w = u :: q ->
  resultStatus u <> PGRES_FATAL_ERROR ->
  exists w1,
    n_rows_affected w = (Ok (atoi (cmdTuples u)), w1) /\
    n_rows_fetched w1 = n_rows_fetched w /\
    n_rows_affected w1 = (Ok (atoi (cmdTuples u)), w1).
Proof.
  intros Hs Hfine.
  destruct (fetch_row_if_needed_stream w [] u q Hs (Forall_nil_2 _) Hfine)
    as (w1 & after1 & Hf & Hs1 & Hla1 & _ & _ & _ & _ & Hn & _).
  simpl in Hs1. destruct (lookahead_head w1 u after1 Hla1 Hs1) as [Hrow _].
  exists w1. split; [|split; [exact Hn|]].
  - unfold n_rows_affected. rewrite (and_then_ok _ _ _ _ _ Hf).
    unfold and_then, next_row, ret. rewrite Hrow. reflexivity.
  - unfold n_rows_affected, and_then, fetch_row_if_needed, next_row, ret.
    rewrite Hrow. cbv beta iota zeta. rewrite Hrow. reflexivity.
Qed.

Lemma X16_rows_affected_reads_the_lookahead_witness :
  let P := {| atoi := fun s => if String.eqb s "3" then 3 else 0;
              atof := fun _ => 0%Q; strtod := fun _ => 0%Q;
              timegm := fun _ => 0; mktime := fun _ => 0;
              interrupt_pending := false |} in
  let done := {| resultStatus := PGRES_COMMAND_OK; nparams := 0; fields := [];
                 tuple := []; cmdTuples := "3" |} in
  let S := Demo.backend 0 [] [done] in
  let w := {| this := set_bound true (fresh 1);
              pConn_ := {| usable := true; pCurrentResult_ := Some 1%nat;
                           conn := {| pending := [done]; io_log := [] |} |};
              warnings := [] |} in
  exists w1, n_rows_affected w = (Ok 3, w1) /\ n_rows_fetched w1 = 0.
Proof.
  intros P done S w.
  destruct (@X16_rows_affected_reads_the_lookahead P S w done [] eq_refl
              ltac:(discriminate)) as (w1 & Hcount & Hn & _).
  exists w1. split; [exact Hcount | exact Hn].
Defined.

(** ** Fetches that do not return *)

Section Aborts.
Context `{Platform} `{Server}.

Lemma poll_skipped (i : Z) (w : world) :
  interrupt_pending = false \/ 0 <= i /\ i + 1 < 1000 ->
  (if Z.rem (i + 1) 1000 =? 0 then checkUserInterrupt else ret tt) w = (Ok tt, w).
Proof.
  intros [Hquiet | [Hlo Hhi]]; [apply poll_quiet; exact Hquiet|].
  rewrite Z.rem_small by lia.
  replace (i + 1 =? 0) with false by (symmetry; apply Z.eqb_neq; lia).
  reflexivity.
Qed.

(** The loop of [fetch] over rows that fit and raise no poll: after one
    turn per row it stands at the unit that follows them. *)
Lemma fetch_loop_advance (n_max : Z) (types : list PGTypes) :
  forall (taken done : list PGresult) (fuel : nat) (out : data_frame)
         (i n : Z) (w : world) (next : PGresult) (after : list PGresult),
    types_ (this w) = types ->
    ncols_ (this w) = Z.of_nat (length types) ->
    pNextRow_ (this w) <> None ->
    lookahead_stream w = taken ++ next :: after ->
    Forall is_row taken ->
    resultStatus next <> PGRES_FATAL_ERROR ->
    (n_max < 0 /\ 0 < n \/ i + Z.of_nat (length taken) <= n) ->
    i = Z.of_nat (length done) ->
    i <= n ->
    df_cols out = filled types done (Z.to_nat n) ->
    (interrupt_pending = false \/ i + Z.of_nat (length taken) < 1000) ->
    exists out',
      fetch_loop (length taken + fuel) n_max out i n w
      = fetch_loop fuel n_max out' (i + Z.of_nat (length taken))
          (capacity n i (length taken)) (pull_rows (length taken) w) /\
      df_cols out'
      = filled types (done ++ taken) (Z.to_nat (capacity n i (length taken))) /\
      df_names out' = df_names out.
Proof.
  induction taken as [|r taken IH];
    intros done fuel out i n w next after Hty Hnc Hla Hs Hrows Hnext Hroom
      Hi Hin Hout Hpoll.
  - exists out. simpl. rewrite Z.add_0_r, app_nil_r. auto.
  - simpl in Hs. destruct (lookahead_head w r _ Hla Hs) as [Hrow Hq].
    apply Forall_cons in Hrows as [Hr Hrows].
    simpl length in *. cbn [Nat.add fetch_loop].
    unfold and_then at 1, next_row. rewrite Hrow. unfold ret at 1.
    unfold PqRow.has_data, PqRow.status. simpl PQresultStatus.
    rewrite bool_decide_eq_true_2 by exact Hr.
    assert (Hgo : (n <=? i) && negb (n_max <? 0) = false).
    { destruct Hroom as [[Hneg _] | Hfit].
      - replace (n_max <? 0) with true by (symmetry; apply Z.ltb_lt; lia).
        apply andb_false_r.
      - replace (n <=? i) with false by (symmetry; apply Z.leb_gt; lia).
        reflexivity. }
    rewrite Hgo. cbv zeta.
    set (n' := if n <=? i then n * 2 else n).
    assert (Hn' : i < n' /\ ((n <=? i) = false -> n' = n)
                  /\ ((n <=? i) = true -> n' = n * 2 /\ n_max < 0)).
    { subst n'. destruct (Z.leb_spec n i).
      - split; [|split; [discriminate|intros _; split; [reflexivity|]]]; lia.
      - split; [|split; [reflexivity|discriminate]]; lia. }
    destruct Hn' as (Hin' & Hsame & Hdouble).
    set (out1 := if n <=? i then df_resize out n' else out).
    assert (Hout1 : df_cols out1 = filled types done (Z.to_nat n')
                    /\ df_names out1 = df_names out).
    { subst out1. destruct (n <=? i) eqn:Hle.
      - split; [|reflexivity].
        apply (filled_resize_in _ _ _ (Z.to_nat n)); [exact Hout| |]; lia.
      - rewrite (Hsame eq_refl). auto. }
    destruct Hout1 as [Hout1 Hnames1].
    change (negb true) with false. cbv beta iota.
    rewrite Hty, Hnc.
    set (out2 := store_row _ types _ i out1).
    assert (Hout2 : df_cols out2 = filled types (done ++ [r]) (Z.to_nat n')).
    { subst out2. apply filled_store_in; [exact Hout1 | exact Hi | lia]. }
    destruct (fetch_row_stream w taken next after Hq Hrows Hnext)
      as (w1 & after1 & Hf & Hs1 & Hla1 & Hty1 & Hnc1 & _).
    rewrite (and_then_ok _ _ _ _ _ Hf).
    assert (Hskip : interrupt_pending = false \/ 0 <= i /\ i + 1 < 1000)
      by (destruct Hpoll as [Hquiet | Hfew]; [left; exact Hquiet | right; lia]).
    rewrite (and_then_ok _ _ _ _ _ (poll_skipped i w1 Hskip)).
    assert (Hlen : i + 1 = Z.of_nat (length (done ++ [r])))
      by (rewrite length_app; simpl; lia).
    destruct (IH (done ++ [r]) fuel out2 (i + 1) n' w1 next after1)
      as (out' & Hloop & Hcols & Hnm);
      try assumption; try congruence; try lia.
    { destruct Hpoll as [Hquiet | Hfew]; [left; exact Hquiet | right; lia]. }
    exists out'. simpl capacity. simpl pull_rows. rewrite Hf. simpl snd.
    fold n'. rewrite Hloop, Hcols, Hnm, <- app_assoc. simpl.
    split; [|split; [reflexivity|]].
    + replace (i + Z.of_nat (S (length taken)))
        with (i + 1 + Z.of_nat (length taken)) by lia.
      reflexivity.
    + subst out2. simpl. exact Hnames1.
Qed.

(** Pulls of rows keep the stream exactly. *)
Lemma pull_rows_exact (taken : list PGresult) :
  forall (r : PGresult) (tail : list PGresult) (w : world),
    pNextRow_ (this w) <> None ->
    lookahead_stream w = taken ++ r :: tail ->
    Forall is_row taken ->
    is_row r ->
    let w' := pull_rows (length taken) w in
    lookahead_stream w' = r :: tail /\
    pNextRow_ (this w') <> None /\
    types_ (this w') = types_ (this w) /\
    ncols_ (this w') = ncols_ (this w) /\
    nrows_ (this w') = nrows_ (this w) + Z.of_nat (length taken).
Proof.
  induction taken as [|t ts IH]; intros r tail w Hla Hs Hrows Hr.
  - simpl. repeat split; auto. lia.
  - simpl in Hs. destruct (lookahead_head w t _ Hla Hs) as [_ Hq].
    apply Forall_cons in Hrows as [Ht Hts].
    assert (Hhead : exists u q, ts ++ r :: tail = u :: q /\ is_row u).
    { destruct ts as [|t' ts']; simpl; eauto.
      apply Forall_cons in Hts as [Ht' _]. eauto. }
    destruct Hhead as (u & q & Huq & Hu). rewrite Huq in Hq.
    destruct (fetch_row_pull w u q Hq) as (g & Hf & Hg);
      [rewrite Hu; discriminate|].
    rewrite bool_decide_eq_false_2 in Hg by (rewrite Hu; discriminate).
    cbn [pull_rows length]. rewrite Hf. simpl snd.
    destruct (IH r tail (set_this (set_next_row {| PqRow.pRes_ := u |})
                           (set_pConn (with_conn g) w)))
      as (Hs' & Hla' & Hty' & Hnc' & Hn'); try assumption.
    + simpl. discriminate.
    + unfold lookahead_stream. simpl. rewrite Hg, <- Huq. reflexivity.
    + simpl in *. repeat split; try assumption. lia.
Qed.

Lemma fetch_row_fatal (w : world) (u : PGresult) (q : list PGresult) :
  pending (conn (pConn_ w)) = u :: q ->
  resultStatus u = PGRES_FATAL_ERROR ->
  exists g,
    fetch_row w = (Throw (QueryError PQerrorMessage None),
                   set_pConn (with_conn g) w) /\
    pending g = q.
Proof.
  intros Hq Hfatal. unfold fetch_row, PqRow.new, PQgetResult. rewrite Hq.
  simpl PQresultStatus.
  rewrite (bool_decide_eq_false_2 (resultStatus u = PGRES_TUPLES_OK))
    by (rewrite Hfatal; discriminate).
  rewrite bool_decide_eq_true_2 by exact Hfatal.
  eexists. split; reflexivity.
Qed.

Lemma rows_end (rows : list PGresult) :
  rows <> [] ->
  exists init z,
    rows = init ++ [z] /\ length rows = S (length init) /\
    last rows = Some z.
Proof.
  intros Hne. destruct rows as [|z init _] using rev_ind; [congruence|].
  exists init, z. rewrite length_app, last_snoc. simpl.
  split; [reflexivity|]. split; [lia | reflexivity].
Qed.

(** One turn of the loop of [fetch] at a row for which there is room. *)
Lemma fetch_loop_turn (fuel : nat) (n_max : Z) (out : data_frame) (i n : Z)
    (w : world) (r : PGresult) :
  pNextRow_ (this w) = Some {| PqRow.pRes_ := r |} ->
  is_row r ->
  (n <=? i) && negb (n_max <? 0) = false ->
  fetch_loop (S fuel) n_max out i n w
  = (fetch_row ;;
     (if Z.rem (i + 1) 1000 =? 0 then checkUserInterrupt else ret tt) ;;
     fetch_loop fuel n_max
       (store_row {| PqRow.pRes_ := r |} (types_ (this w)) (ncols_ (this w)) i
          (if n <=? i then df_resize out (if n <=? i then n * 2 else n) else out))
       (i + 1) (if n <=? i then n * 2 else n)) w.
Proof.
  intros Hrow Hr Hgo. cbn [fetch_loop].
  unfold and_then at 1, next_row. rewrite Hrow. unfold ret at 1.
  unfold PqRow.has_data, PqRow.status. simpl PQresultStatus.
  rewrite bool_decide_eq_true_2 by exact Hr.
  rewrite Hgo. reflexivity.
Qed.

(** The loop of [fetch] goes on at a row as long as the caller's limit
    leaves room. *)
Lemma room_left (n_max n0 : Z) (k : nat) :
  n0 = (if n_max <? 0 then 100 else n_max) ->
  n_max < 0 \/ Z.of_nat (S k) <= n_max ->
  (capacity n0 0 k <=? 0 + Z.of_nat k) && negb (n_max <? 0) = false.
Proof.
  intros Hn0 Hroom. destruct (Z.ltb_spec n_max 0) as [Hneg|Hpos].
  - apply andb_false_r.
  - rewrite capacity_fixed by lia.
    replace (n0 <=? 0 + Z.of_nat k) with false by (symmetry; apply Z.leb_gt; lia).
    reflexivity.
Qed.

Lemma fetch_row_if_needed_row (w : world) (r : PGresult) (q : list PGresult) :
  lookahead_stream w = r :: q ->
  is_row r ->
  exists w1,
    fetch_row_if_needed w = (Ok tt, w1) /\
    lookahead_stream w1 = r :: q /\
    pNextRow_ (this w1) <> None /\
    types_ (this w1) = types_ (this w) /\
    ncols_ (this w1) = ncols_ (this w) /\
    n_rows_fetched w1 = n_rows_fetched w.
Proof.
  intros Hs Hr. unfold fetch_row_if_needed.
  destruct (pNextRow_ (this w)) as [row|] eqn:Hrow.
  - exists w. unfold ret. repeat split; auto. congruence.
  - unfold lookahead_stream in Hs. rewrite Hrow in Hs.
    destruct (fetch_row_pull w r q Hs) as (g & Hf & Hg);
      [rewrite Hr; discriminate|].
    rewrite bool_decide_eq_false_2 in Hg by (rewrite Hr; discriminate).
    eexists. split; [exact Hf|].
    unfold lookahead_stream, n_rows_fetched. simpl. rewrite Hg, Hrow.
    repeat split; auto; try discriminate. lia.
Qed.

End Aborts.

(** X17. A server error in the middle of a stream. When the units not yet
    handed out are the rows [rows] followed by a fatal-error unit, and the
    request has room for all of these rows ([n_max] negative or at least
    their number), [fetch] throws the query error with the connection's
    message and returns no data frame: the rows it had decoded are lost to
    the caller. The error unit is consumed and what was queued behind it is
    left on the connection; the last row stays behind as the lookahead, and
    the count of fetched rows has advanced by one less than the number of
    rows. *)
Theorem X17_fetch_server_error_in_stream `{Platform} `{Server} (n_max : Z)
    (w : world) (rows : list PGresult) (bad : PGresult) (after : list PGresult) :
  interrupt_pending = false ->
  bound_ (this w) = true ->
  active w = true ->
  ncols_ (this w) = Z.of_nat (length (types_ (this w))) ->
  lookahead_stream w = rows ++ bad :: after ->
  pNextRow_ (this w) = None \/ rows <> [] ->
  Forall is_row rows ->
  resultStatus bad = PGRES_FATAL_ERROR ->
  n_max < 0 \/ Z.of_nat (length rows) <= n_max ->
  exists w',
    fetch n_max w = (Throw (QueryError PQerrorMessage None), w') /\
    pending (conn (pConn_ w')) = after /\
    pNextRow_ (this w') = (fun r => {| PqRow.pRes_ := r |}) <$> last rows /\
    n_rows_fetched w' = n_rows_fetched w + Z.of_nat (length rows - 1).
Proof.
  intros Hquiet Hb Hact Hnc Hs Hfresh Hrows Hbad Hroom.
  unfold fetch. rewrite Hb, Hact. simpl negb. cbv iota zeta.
  set (n0 := if n_max <? 0 then 100 else n_max).
  set (types := types_ (this w)).
  destruct rows as [|r0 rs].
  - destruct Hfresh as [Hnone | Hne]; [|congruence].
    unfold lookahead_stream in Hs. rewrite Hnone in Hs. simpl in Hs.
    destruct (fetch_row_fatal w bad after Hs Hbad) as (g & Hf & Hg).
    assert (Hf1 : fetch_row_if_needed w
                  = (Throw (QueryError PQerrorMessage None),
                     set_pConn (with_conn g) w))
      by (unfold fetch_row_if_needed; rewrite Hnone; exact Hf).
    rewrite (and_then_throw _ _ _ _ _ Hf1).
    eexists. split; [reflexivity|]. simpl.
    split; [exact Hg|]. split; [exact Hnone|].
    unfold n_rows_fetched. simpl. lia.
  - simpl in Hs. pose proof Hrows as Hall.
    apply Forall_cons in Hrows as [Hr0 Hrs].
    destruct (fetch_row_if_needed_row w r0 _ Hs Hr0)
      as (w1 & Hf1 & Hs1 & Hla1 & Hty1 & Hnc1 & Hn1).
    rewrite (and_then_ok _ _ _ _ _ Hf1). cbv beta.
    destruct (rows_end (r0 :: rs)) as (init & z & Hsplit & Hlen & Hlast);
      [discriminate|].
    rewrite Hsplit in Hall. apply Forall_app in Hall as [Hinit Hz].
    apply Forall_cons in Hz as [Hz _].
    assert (Hs1' : lookahead_stream w1 = init ++ z :: bad :: after).
    { rewrite Hs1. change (r0 :: rs ++ bad :: after)
        with ((r0 :: rs) ++ bad :: after).
      rewrite Hsplit, <- app_assoc. reflexivity. }
    assert (Hfuel : S (length (pending (conn (pConn_ w1))))
                    = (length init + S (S (length after)))%nat).
    { destruct (lookahead_head w1 r0 _ Hla1 Hs1) as [_ ->].
      rewrite length_app. simpl in *. lia. }
    rewrite Hfuel.
    assert (Hn0 : n0 = if n_max <? 0 then 100 else n_max) by reflexivity.
    destruct (fetch_loop_advance n_max types init [] (S (S (length after)))
                (df_create types (names_ (this w)) n0) 0 n0 w1 z (bad :: after))
      as (out' & Hloop & _ & _); try assumption.
    { rewrite Hnc1. exact Hnc. }
    { rewrite Hz. discriminate. }
    { destruct (Z.ltb_spec n_max 0); [left|right]; simpl length in *; lia. }
    { reflexivity. }
    { destruct (Z.ltb_spec n_max 0); simpl length in *; lia. }
    { apply filled_create. }
    { left. exact Hquiet. }
    destruct (pull_rows_exact init z (bad :: after) w1 Hla1 Hs1' Hinit Hz)
      as (Hs2 & Hla2 & Hty2 & Hnc2 & Hn2).
    set (w2 := pull_rows (length init) w1) in *.
    destruct (lookahead_head w2 z _ Hla2 Hs2) as [Hrow2 Hq2].
    destruct (fetch_row_fatal w2 bad after Hq2 Hbad) as (g & Hf & Hg).
    assert (Hturn : fetch_loop (length init + S (S (length after))) n_max
                      (df_create types (names_ (this w)) n0) 0 n0 w1
                    = (Throw (QueryError PQerrorMessage None),
                       set_pConn (with_conn g) w2)).
    { rewrite Hloop.
      rewrite (fetch_loop_turn _ _ _ _ _ _ z Hrow2 Hz).
      - apply and_then_throw. exact Hf.
      - apply room_left; [exact Hn0|]. simpl length in *.
        destruct Hroom; [left|right]; lia. }
    rewrite (and_then_throw _ _ _ _ _ Hturn).
    eexists. split; [reflexivity|]. simpl.
    split; [exact Hg|]. split.
    + rewrite Hrow2, Hlast. reflexivity.
    + unfold n_rows_fetched in *. simpl.
      destruct (pNextRow_ (this w2)); [|congruence].
      destruct (pNextRow_ (this w1)); [|congruence].
      simpl length in *. lia.
Qed.

(** A query whose stream breaks after two rows. *)
Module DemoBroken.
Definition row : PGresult := Demo.unit_of PGRES_SINGLE_TUPLE [Some "7"; None].
Definition bad : PGresult := Demo.unit_of PGRES_FATAL_ERROR [].
Definition server : Server :=
  Demo.backend 0 [("id", 23); ("note", 25)] [row; row; bad].
Definition opened : outcome PqResult.t * PqConnection * list Rwarning :=
  Eval vm_compute in @new server 1 Demo.idle "SELECT id, note FROM t".
Definition world0 : world :=
  {| this := match opened with (Ok rs, _, _) => rs | _ => fresh 1 end;
     pConn_ := snd (fst opened); warnings := snd opened |}.
End DemoBroken.

Lemma X17_fetch_server_error_in_stream_witness :
  exists w',
    @fetch Demo.libc DemoBroken.server (-1) DemoBroken.world0
    = (Throw (QueryError "ERROR" None), w') /\
    pending (conn (pConn_ w')) = [] /\
    pNextRow_ (this w') = Some {| PqRow.pRes_ := DemoBroken.row |} /\
    n_rows_fetched w' = 1.
Proof.
  destruct (@X17_fetch_server_error_in_stream Demo.libc DemoBroken.server (-1)
              DemoBroken.world0 [DemoBroken.row; DemoBroken.row]
              DemoBroken.bad [])
    as (w' & Hf & Hq & Hrow & Hn).
  - reflexivity.
  - reflexivity.
  - reflexivity.
  - reflexivity.
  - reflexivity.
  - left. reflexivity.
  - repeat constructor.
  - reflexivity.
  - left. lia.
  - exists w'. split; [exact Hf|]. split; [exact Hq|].
    split; [exact Hrow | exact Hn].
Defined.

(** X18. The interrupt poll. [fetch] asks for a pending user interrupt
    only after it has stored a row whose number is a multiple of 1000 and
    has pulled the unit behind it. With an interrupt pending, a stream of a
    thousand rows or more and room for a thousand rows in the request
    ([n_max] negative or at least 1000, exactly 1000 included), [fetch]
    throws the interrupt error: no data frame is returned, the thousand
    rows are consumed, the unit that followed them is the lookahead, and
    the count of fetched rows has advanced by 1000. *)
Theorem X18_fetch_interrupted_after_thousand_rows `{Platform} `{Server}
    (n_max : Z) (w : world) (rows : list PGresult) (next : PGresult)
    (after : list PGresult) :
  interrupt_pending = true ->
  bound_ (this w) = true ->
  active w = true ->
  ncols_ (this w) = Z.of_nat (length (types_ (this w))) ->
  lookahead_stream w = rows ++ next :: after ->
  Forall is_row rows ->
  length rows = 1000%nat ->
  resultStatus next <> PGRES_FATAL_ERROR ->
  n_max < 0 \/ 1000 <= n_max ->
  exists w' after',
    fetch n_max w = (Throw InterruptedError, w') /\
    lookahead_stream w' = next :: after' /\
    pNextRow_ (this w') <> None /\
    n_rows_fetched w' = n_rows_fetched w + 1000.
Proof.
  intros Hint Hb Hact Hnc Hs Hrows Hlen Hnext Hroom.
  unfold fetch. rewrite Hb, Hact. simpl negb. cbv iota zeta.
  set (n0 := if n_max <? 0 then 100 else n_max).
  set (types := types_ (this w)).
  destruct (fetch_row_if_needed_stream w rows next after Hs Hrows Hnext)
    as (w1 & after1 & Hf1 & Hs1 & Hla1 & Hty1 & Hnc1 & _ & _ & Hn1 & _).
  rewrite (and_then_ok _ _ _ _ _ Hf1). cbv beta.
  destruct (rows_end rows) as (init & z & Hsplit & Hlen' & _).
  { intros ->. discriminate. }
  assert (Hinit : length init = 999%nat) by lia.
  rewrite Hsplit in Hrows. apply Forall_app in Hrows as [Hrinit Hz].
  apply Forall_cons in Hz as [Hz _].
  assert (Hs1' : lookahead_stream w1 = init ++ z :: next :: after1)
    by (rewrite Hs1, Hsplit, <- app_assoc; reflexivity).
  assert (Hfuel : S (length (pending (conn (pConn_ w1))))
                  = (length init + S (S (length after1)))%nat).
  { destruct init as [|r0 init']; [discriminate|]. simpl in Hs1'.
    destruct (lookahead_head w1 r0 _ Hla1 Hs1') as [_ ->].
    rewrite length_app. simpl. lia. }
  rewrite Hfuel.
  assert (Hn0 : n0 = if n_max <? 0 then 100 else n_max) by reflexivity.
  destruct (fetch_loop_advance n_max types init [] (S (S (length after1)))
              (df_create types (names_ (this w)) n0) 0 n0 w1 z (next :: after1))
    as (out' & Hloop & _ & _); try assumption.
  { rewrite Hnc1. exact Hnc. }
  { rewrite Hz. discriminate. }
  { destruct (Z.ltb_spec n_max 0); [left|right]; lia. }
  { reflexivity. }
  { destruct (Z.ltb_spec n_max 0); lia. }
  { apply filled_create. }
  { right. lia. }
  destruct (pull_rows_exact init z (next :: after1) w1 Hla1 Hs1' Hrinit Hz)
    as (Hs2 & Hla2 & Hty2 & Hnc2 & Hn2).
  set (w2 := pull_rows (length init) w1) in *.
  destruct (lookahead_head w2 z _ Hla2 Hs2) as [Hrow2 Hq2].
  destruct (fetch_row_stream w2 [] next after1 Hq2 (Forall_nil_2 _) Hnext)
    as (w3 & after3 & Hf3 & Hs3 & Hla3 & _ & _ & _ & _ & Hn3 & _).
  assert (Hturn : fetch_loop (length init + S (S (length after1))) n_max
                    (df_create types (names_ (this w)) n0) 0 n0 w1
                  = (Throw InterruptedError, w3)).
  { rewrite Hloop.
    rewrite (fetch_loop_turn _ _ _ _ _ _ z Hrow2 Hz).
    - rewrite (and_then_ok _ _ _ _ _ Hf3).
      apply and_then_throw. rewrite Hinit.
      change (Z.rem (0 + Z.of_nat 999 + 1) 1000 =? 0) with true.
      cbv iota. unfold checkUserInterrupt. rewrite Hint. reflexivity.
    - apply room_left; [exact Hn0|]. destruct Hroom; [left|right]; lia. }
  rewrite (and_then_throw _ _ _ _ _ Hturn).
  exists w3, after3. split; [reflexivity|]. split; [exact Hs3|].
  split; [exact Hla3|].
  unfold n_rows_fetched in *.
  destruct (pNextRow_ (this w3)); [|congruence].
  destruct (pNextRow_ (this w1)); [|congruence]. lia.
Qed.

(** A query of a thousand rows, and a process in which the user has asked
    to interrupt. *)
Module DemoLong.
Definition server : Server :=
  Demo.backend 0 [("id", 23); ("note", 25)]
    (replicate 1000 Demo250.row ++ [Demo250.fin]).
Definition opened : outcome PqResult.t * PqConnection * list Rwarning :=
  Eval vm_compute in @new server 1 Demo.idle "SELECT id, note FROM t".
Definition world0 : world :=
  {| this := match opened with (Ok rs, _, _) => rs | _ => fresh 1 end;
     pConn_ := snd (fst opened); warnings := snd opened |}.
Definition interrupted : Platform := {|
  atoi := @atoi Demo.libc;
  atof := @atof Demo.libc;
  strtod := @strtod Demo.libc;
  timegm := @timegm Demo.libc;
  mktime := @mktime Demo.libc;
  interrupt_pending := true
|}.
End DemoLong.

Lemma X18_fetch_interrupted_after_thousand_rows_witness :
  exists w',
    @fetch DemoLong.interrupted DemoLong.server 1000 DemoLong.world0
    = (Throw InterruptedError, w') /\
    lookahead_stream w' = [Demo250.fin] /\
    n_rows_fetched w' = 1000.
Proof.
  destruct (@X18_fetch_interrupted_after_thousand_rows DemoLong.interrupted
              DemoLong.server 1000 DemoLong.world0
              (replicate 1000 Demo250.row) Demo250.fin [])
    as (w' & after' & Hf & Hs & Hla & Hn).
  - reflexivity.
  - reflexivity.
  - reflexivity.
  - reflexivity.
  - vm_compute. reflexivity.
  - apply Forall_replicate. reflexivity.
  - apply length_replicate.
  - discriminate.
  - right. lia.
  - exists w'. split; [exact Hf|]. split; [|exact Hn].
    rewrite Hs. f_equal.
    assert (Hval : fst (@fetch DemoLong.interrupted DemoLong.server 1000
                          DemoLong.world0) = Throw InterruptedError
                   /\ lookahead_stream
                        (snd (@fetch DemoLong.interrupted DemoLong.server 1000
                                DemoLong.world0)) = [Demo250.fin])
      by (vm_compute; split; reflexivity).
    rewrite Hf in Hval. simpl in Hval. destruct Hval as [_ Hval].
    rewrite Hs in Hval. congruence.
Defined.

Section Polls.
Context `{Platform} `{Server}.

(** The loop of [fetch] ends at a unit that is not a row, and at a row
    when the caller's limit is reached. *)
Lemma fetch_loop_stop (fuel : nat) (n_max : Z) (out : data_frame) (i n : Z)
    (w : world) (next : PGresult) :
  pNextRow_ (this w) = Some {| PqRow.pRes_ := next |} ->
  resultStatus next <> PGRES_SINGLE_TUPLE \/ 0 <= n_max /\ n <= i ->
  fetch_loop (S fuel) n_max out i n w = (Ok (out, i, n), w).
Proof.
  intros Hrow Hstop. cbn [fetch_loop].
  unfold and_then, next_row. rewrite Hrow. unfold ret at 1.
  unfold PqRow.has_data, PqRow.status. simpl.
  destruct Hstop as [Hst | [Hmax Hfull]].
  - rewrite bool_decide_eq_false_2 by assumption. reflexivity.
  - case_bool_decide; simpl; [|reflexivity].
    replace (n <=? i) with true by (symmetry; apply Z.leb_le; lia).
    replace (n_max <? 0) with false by (symmetry; apply Z.ltb_ge; lia).
    reflexivity.
Qed.

End Polls.

(** X19. Short fetches are never interrupted. A [fetch] that takes fewer
    than a thousand rows does not ask for a pending interrupt at all: on a
    streaming result it returns the rows it takes, decoded, and leaves a
    streaming result for the rows that remain, whether or not the user has
    asked to interrupt. *)
Theorem X19_short_fetch_is_not_interrupted `{Platform} `{Server} (n_max : Z)
    (w : world) (rows : list PGresult) (fin : PGresult) :
  streaming w rows fin ->
  (rows_taken n_max (length rows) < 1000)%nat ->
  let k := rows_taken n_max (length rows) in
  exists w',
    fetch n_max w
    = (Ok {| df_names := names_ (this w);
             df_cols := fetched_columns (types_ (this w)) (take k rows) |}, w') /\
    streaming w' (drop k rows) fin /\
    n_rows_fetched w' = n_rows_fetched w + Z.of_nat k.
Proof.
  intros (Hb & Hact & Hnc & Hrows & Hfin & after & Hs) Hshort k.
  set (n0 := if n_max <? 0 then 100 else n_max).
  set (types := types_ (this w)).
  assert (Hfin' : resultStatus fin <> PGRES_FATAL_ERROR) by apply Hfin.
  destruct (fetch_row_if_needed_stream w rows fin after Hs Hrows Hfin')
    as (w1 & after1 & Hf1 & Hs1 & Hla1 & Hty1 & Hnc1 & Hnm1 & Hb1 & Hn1 & Hact1).
  pose proof (rows_taken_le n_max (length rows)) as Hk. fold k in Hk, Hshort.
  assert (Hlen : length (take k rows) = k) by (rewrite length_take; lia).
  destruct (stream_split rows fin after1 k Hrows)
    as (next & after2 & Hsplit & Hrest & Hnext).
  assert (Hnext' : resultStatus next <> PGRES_FATAL_ERROR).
  { destruct Hnext as [[-> _] | [Hr _]]; [exact Hfin'|]. rewrite Hr. discriminate. }
  pose proof (capacity_holds n_max (length rows)) as Hcap.
  cbv zeta in Hcap. fold k n0 in Hcap.
  assert (Hn0 : 0 <= n0 /\ (n_max < 0 -> n0 = 100) /\ (0 <= n_max -> n0 = n_max)).
  { subst n0. destruct (Z.ltb_spec n_max 0); lia. }
  assert (Hkz : k = rows_taken n_max (length rows)) by reflexivity.
  unfold rows_taken in Hkz.
  assert (Hfuel : exists fuel,
             S (length (pending (conn (pConn_ w1))))
             = (length (take k rows) + S fuel)%nat).
  { exists (length after2). rewrite Hsplit in Hs1. unfold lookahead_stream in Hs1.
    destruct (pNextRow_ (this w1)) as [row|]; [|congruence].
    destruct (take k rows) as [|t ts]; simpl in *.
    - injection Hs1 as _ ->. reflexivity.
    - injection Hs1 as _ ->. rewrite length_app. simpl. lia. }
  destruct Hfuel as [fuel Hfuel].
  destruct (fetch_loop_advance n_max types (take k rows) [] (S fuel)
              (df_create types (names_ (this w)) n0) 0 n0 w1 next after2)
    as (buf & Hadv & Hbuf & Hnames); try assumption.
  { rewrite Hnc1. exact Hnc. }
  { rewrite Hs1. exact Hsplit. }
  { apply Forall_take. exact Hrows. }
  { rewrite Hlen. destruct (Z.ltb_spec n_max 0); [left|right]; lia. }
  { reflexivity. }
  { lia. }
  { apply filled_create. }
  { right. rewrite Hlen. lia. }
  assert (Hs1' : lookahead_stream w1 = take k rows ++ drop k rows ++ fin :: after1).
  { rewrite Hs1, app_assoc, take_drop. reflexivity. }
  destruct (pull_rows_stream (take k rows) (drop k rows) fin after1 w1 Hla1 Hs1')
    as (Hs' & Hla' & Hty' & Hnc' & Hnm' & Hb' & Hn' & Hact');
    [rewrite take_drop; exact Hrows | exact Hfin' |].
  assert (Hat : exists after3,
             lookahead_stream (pull_rows (length (take k rows)) w1)
             = next :: after3).
  { destruct (pull_rows_stream (take k rows) [] next after2 w1 Hla1)
      as ([after3 Hs3] & _); [| rewrite app_nil_r; apply Forall_take; exact Hrows
                              | exact Hnext' | exists after3; exact Hs3].
    rewrite Hs1. exact Hsplit. }
  destruct Hat as [after3 Hat].
  destruct (lookahead_head _ next after3 Hla' Hat) as [Hrow' _].
  rewrite Hlen in *.
  assert (Hloop : fetch_loop (S (length (pending (conn (pConn_ w1))))) n_max
                    (df_create types (names_ (this w)) n0) 0 n0 w1
                  = (Ok (buf, Z.of_nat k, capacity n0 0 k), pull_rows k w1)).
  { rewrite Hfuel, Hadv, Z.add_0_l.
    apply (fetch_loop_stop _ _ _ _ _ _ next Hrow').
    destruct Hnext as [[-> _] | [_ Hlt]].
    - left. apply Hfin.
    - right. destruct (Z.ltb_spec n_max 0); [lia|].
      rewrite capacity_fixed; lia. }
  simpl app in Hbuf.
  exists (pull_rows k w1).
  split; [|split].
  - unfold fetch. rewrite Hb, Hact. simpl negb. cbv iota zeta.
    rewrite (and_then_ok _ _ _ _ _ Hf1). cbv beta.
    fold n0 types.
    rewrite (and_then_ok _ _ _ _ _ Hloop). cbv beta iota. unfold ret.
    f_equal. f_equal. unfold tag_columns.
    rewrite Hty', Hty1. fold types.
    assert (Hout : df_cols (if Z.of_nat k <? capacity n0 0 k
                            then df_resize buf (Z.of_nat k) else buf)
                   = imap (fun j ty => bare (decoded_column (take k rows) j ty)) types
                   /\ df_names (if Z.of_nat k <? capacity n0 0 k
                                then df_resize buf (Z.of_nat k) else buf)
                      = names_ (this w)).
    { destruct (Z.ltb_spec (Z.of_nat k) (capacity n0 0 k)) as [Hlt|Hge].
      - split; [|simpl; rewrite Hnames; reflexivity].
        rewrite (filled_resize_in _ _ _ _ _ Hbuf) by lia.
        rewrite Nat2Z.id. rewrite <- Hlen at 2. apply filled_exact.
      - split; [|rewrite Hnames; reflexivity].
        rewrite Hbuf.
        replace (Z.to_nat (capacity n0 0 k)) with (length (take k rows)) by lia.
        apply filled_exact. }
    destruct Hout as [-> ->]. rewrite tag_exact. reflexivity.
  - destruct Hs' as [after' Hs']. unfold streaming.
    split; [congruence|]. split; [congruence|]. split; [congruence|].
    split; [apply Forall_drop; exact Hrows|]. split; [exact Hfin|].
    exists after'. exact Hs'.
  - unfold n_rows_fetched in *.
    destruct (pNextRow_ (this (pull_rows k w1))); [|congruence].
    destruct (pNextRow_ (this w1)); [|congruence]. lia.
Qed.

Lemma X19_short_fetch_is_not_interrupted_witness :
  exists w',
    @fetch DemoLong.interrupted Demo250.server (-1) Demo250.world0
    = (Ok {| df_names := ["id"; "note"];
             df_cols := [bare (replicate 250 (INTEGER 0));
                         bare (replicate 250 (STRING_ELT NA_STRING))] |}, w') /\
    n_rows_fetched w' = 250.
Proof.
  destruct (@X19_short_fetch_is_not_interrupted DemoLong.interrupted
              Demo250.server (-1) Demo250.world0
              (replicate 250 Demo250.row) Demo250.fin)
    as (w' & Hf & _ & Hn).
  - exact demo250_streaming.
  - vm_compute. lia.
  - exists w'. split; [rewrite Hf; reflexivity | exact Hn].
Defined.

(** ** Destruction, and the readers that have no guard *)

(** X20. The destructor deregisters only itself. After a construction that
    returned, destroying an older result of the connection changes nothing:
    the newer result stays the connection's current one. Destroying the
    current result empties the slot and touches neither the queue of the
    connection nor its log: units the result had not read yet stay on the
    connection. *)
Theorem X20_destructor_deregisters_only_itself `{Platform} `{Server}
    (old : t) (addr : nat) (pConn : PqConnection) (sql : string)
    (rs : t) (c : PqConnection) (ws ws0 : list Rwarning) :
  usable pConn = true ->
  self old <> addr ->
  new addr pConn sql = (Ok rs, c, ws) ->
  let stale := {| this := old; pConn_ := c; warnings := ws0 |} in
  let current := {| this := rs; pConn_ := c; warnings := ws |} in
  destroy stale = stale /\
  active current = true /\
  pCurrentResult_ (pConn_ (destroy current)) = None /\
  conn (pConn_ (destroy current)) = conn c /\
  this (destroy current) = rs /\
  active (destroy current) = false.
Proof.
  intros Hok Hne Hnew stale current.
  pose proof (new_cases addr pConn sql Hok) as Hc. rewrite Hnew in Hc.
  destruct Hc as (Hcur & Hself & _).
  assert (Hstale : active stale = false).
  { unfold active, is_current_result. simpl. rewrite Hcur.
    apply bool_decide_eq_false_2. congruence. }
  assert (Hact : active current = true).
  { unfold active, is_current_result. simpl. rewrite Hcur, Hself.
    apply bool_decide_eq_true_2. reflexivity. }
  unfold destroy. rewrite Hstale, Hact.
  repeat split; reflexivity.
Qed.

Lemma X20_destructor_deregisters_only_itself_witness :
  let stale := {| this := set_bound true (fresh 7);
                  pConn_ := pConn_ Demo250.world0; warnings := [] |} in
  destroy stale = stale /\
  active Demo250.world0 = true /\
  pCurrentResult_ (pConn_ (destroy Demo250.world0)) = None /\
  length (pending (conn (pConn_ (destroy Demo250.world0)))) = 251%nat.
Proof.
  intros stale.
  destruct (@X20_destructor_deregisters_only_itself Demo.libc Demo250.server
              (set_bound true (fresh 7)) 1 Demo.idle Demo250.sql
              Demo250.result (pConn_ Demo250.world0) (warnings Demo250.world0)
              [] eq_refl ltac:(discriminate) demo250_opened)
    as (Hstale & Hact & Hslot & Hconn & _ & _).
  split; [exact Hstale|]. split; [exact Hact|]. split; [exact Hslot|].
  change (length (pending (conn (pConn_ (destroy
            {| this := Demo250.result; pConn_ := pConn_ Demo250.world0;
               warnings := warnings Demo250.world0 |})))) = 251%nat).
  rewrite Hconn. reflexivity.
Defined.

(** X21. [is_complete] has no guard. Unlike [fetch] it tests neither
    [bound_] nor [active()]: asked of a result that has no lookahead, it
    pulls the next unit of the connection, whoever that unit belongs to.
    When the connection streams the rows of its current result [cur], the
    question put to another result [old] of that connection answers false
    and takes the first row away: [cur] then streams the remaining rows
    only, and a fetch of everything on [cur] returns them without the
    first. *)
Theorem X21_is_complete_takes_a_row_from_the_current_result
    `{Platform} `{Server} (old cur : t) (c : PqConnection)
    (ws ws0 : list Rwarning) (r : PGresult) (rows : list PGresult)
    (fin : PGresult) :
  interrupt_pending = false ->
  pNextRow_ old = None ->
  pNextRow_ cur = None ->
  streaming {| this := cur; pConn_ := c; warnings := ws |} (r :: rows) fin ->
  exists c' w2,
    is_complete {| this := old; pConn_ := c; warnings := ws0 |}
    = (Ok false, {| this := set_next_row {| PqRow.pRes_ := r |} old;
                    pConn_ := c'; warnings := ws0 |}) /\
    streaming {| this := cur; pConn_ := c'; warnings := ws |} rows fin /\
    fetch (-1) {| this := cur; pConn_ := c'; warnings := ws |}
    = (Ok {| df_names := names_ cur;
             df_cols := fetched_columns (types_ cur) rows |}, w2).
Proof.
  intros Hquiet Hold Hcur (Hb & Hact & Hnc & Hrows & Hfin & after & Hs).
  unfold lookahead_stream in Hs. simpl in Hs. rewrite Hcur in Hs.
  apply Forall_cons in Hrows as [Hr Hrows].
  set (w := {| this := old; pConn_ := c; warnings := ws0 |}).
  destruct (fetch_row_pull w r (rows ++ fin :: after) Hs) as (g & Hf & Hg);
    [rewrite Hr; discriminate|].
  rewrite bool_decide_eq_false_2 in Hg by (rewrite Hr; discriminate).
  assert (Hstream : streaming {| this := cur; pConn_ := with_conn g c;
                                 warnings := ws |} rows fin).
  { unfold streaming. simpl.
    split; [exact Hb|]. split; [exact Hact|]. split; [exact Hnc|].
    split; [exact Hrows|]. split; [exact Hfin|].
    exists after. unfold lookahead_stream. simpl. rewrite Hcur. exact Hg. }
  destruct (fetch_run (-1) _ rows fin Hquiet Hstream)
    as (_ & _ & w2 & _ & _ & _ & Hfetch & _).
  rewrite rows_taken_all, firstn_all in Hfetch by lia.
  exists (with_conn g c), w2.
  split; [|split; [exact Hstream | exact Hfetch]].
  unfold is_complete.
  assert (Hneed : fetch_row_if_needed w
                  = (Ok tt, set_this (set_next_row {| PqRow.pRes_ := r |})
                              (set_pConn (with_conn g) w)))
    by (unfold fetch_row_if_needed; simpl; rewrite Hold; exact Hf).
  rewrite (and_then_ok _ _ _ _ _ Hneed).
  unfold and_then, next_row, ret. simpl.
  unfold PqRow.has_data, PqRow.status. simpl.
  rewrite bool_decide_eq_true_2 by exact Hr. reflexivity.
Qed.

Lemma X21_is_complete_takes_a_row_from_the_current_result_witness :
  let P := Demo.libc in
  let S := Demo250.server in
  exists c' w2,
    fst (is_complete {| this := set_bound true (fresh 7);
                        pConn_ := pConn_ Demo250.world0; warnings := [] |})
    = Ok false /\
    active {| this := set_bound true (fresh 7);
              pConn_ := pConn_ Demo250.world0; warnings := [] |} = false /\
    fetch (-1) {| this := Demo250.result; pConn_ := c';
                  warnings := warnings Demo250.world0 |}
    = (Ok {| df_names := ["id"; "note"];
             df_cols := [bare (replicate 249 (INTEGER 0));
                         bare (replicate 249 (STRING_ELT NA_STRING))] |}, w2).
Proof.
  intros P S.
  destruct (@X21_is_complete_takes_a_row_from_the_current_result P S
              (set_bound true (fresh 7)) Demo250.result
              (pConn_ Demo250.world0) (warnings Demo250.world0) []
              Demo250.row (replicate 249 Demo250.row) Demo250.fin
              eq_refl eq_refl eq_refl demo250_streaming)
    as (c' & w2 & Hc & _ & Hf).
  exists c', w2. split; [rewrite Hc; reflexivity|].
  split; [reflexivity|]. rewrite Hf. reflexivity.
Defined.
